(** * thinkfan driver layer (drivers.cpp): a shallow embedding and its properties

    The development follows [src/drivers.cpp].  Every C++ member function
    is a computation in a small state-and-exception monad; the operating
    system (files, write failures, the clock) is an explicit [World] that the
    computations read and extend with a trace of observable events. *)

From Stdlib Require Import ZArith String Ascii Bool Lia QArith DecimalString List.
Import ListNotations.

Local Open Scope Z_scope.

(** ** Bytes and text *)

(** File data and [std::string] values that are used as buffers are lists of
    characters; paths and diagnostic texts are Rocq strings. *)
Definition bytes := list ascii.

Definition lit (s : string) : bytes := list_ascii_of_string s.

(** [std::to_string] on an integer: decimal digits, with a leading minus
    sign for negative numbers. *)
Definition to_string (z : Z) : bytes := lit (NilZero.string_of_int (Z.to_int z)).

(** ** OS error numbers (Linux [<cerrno>]) *)

Definition EPERM : Z := 1.    (* "Operation not permitted" *)
Definition EACCES : Z := 13.  (* "Permission denied" *)
Definition EINVAL : Z := 22.  (* "Invalid argument" *)

(** ** Diagnostics and exceptions *)

(** The message macros of [message.h] are kept symbolic: a macro applied
    to its arguments.  [Text] is a literal string built in place. *)
Inductive message : Type :=
| MSG_FAN_EPERM (path : string)
| MSG_FAN_CTRL (level : bytes) (path : string)
| MSG_FAN_INIT (path : string)
| MSG_FAN_RESET (path : string)
| MSG_FAN_MODOPTS
| MSG_CONF_CORRECTION_LEN (path : string) (given expected : nat)
| MSG_T_GET (path : string)
| MSG_SENSOR_INIT (path : string)
| Text (s : string).

(** The exception classes of [error.h] that drivers.cpp throws, and the
    standard library's [std::ios_base::failure].  The three thinkfan classes
    are distinct: a handler for [IOerror] catches neither of the others. *)
Inductive exn : Type :=
| SystemError (what : message)
| IOerror (what : message) (code : Z)
| ConfigError (what : message)
| ios_base_failure.

Inductive loglevel : Type := TF_DBG | TF_WRN.

(** Observable events, in the order in which they happen. *)
Inductive event : Type :=
| EvWrite (path : string) (data : bytes) (failure : option Z)
| EvSleep (duration : Q)
| EvLog (lvl : loglevel) (what : message).

(** ** The world *)

(** What opening a path and reading from it gives. *)
Inductive file : Type :=
| Unreadable (errno : Z)
    (* cannot be opened in any mode: the open fails with [errno] *)
| Content (data : bytes)
    (* opens for reading and for reading and writing; reads as [data], up
       to the end of the file *)
| ReadOnly (errno : Z) (data : bytes)
    (* opens for reading and reads as [data]; an open for reading and
       writing fails with [errno] *)
| Failing (data : bytes) (errno : Z).
    (* opens in either mode; the reads deliver [data], and the read behind
       them fails with [errno] *)

Record World : Type := mkWorld {
  files : string -> file;        (* what opening a path gives *)
  write_reply : nat -> option Z; (* errno of the n-th write attempt, None = success *)
  writes_done : nat;
  clock : nat -> Z;              (* n-th value of system_clock::now(), in ticks *)
  clock_reads : nat;
  errno : Z;
  open_streams : nat;            (* stream objects currently alive *)
  trace : list event;
  temp_state : list Z;           (* the temperature aggregate *)
  sleeptime : Z                  (* polling period, seconds *)
}.

Definition set_errno (e : Z) (w : World) : World :=
  mkWorld (files w) (write_reply w) (writes_done w) (clock w) (clock_reads w)
          e (open_streams w) (trace w) (temp_state w) (sleeptime w).

Definition emit (ev : event) (w : World) : World :=
  mkWorld (files w) (write_reply w) (writes_done w) (clock w) (clock_reads w)
          (errno w) (open_streams w) (trace w ++ [ev]) (temp_state w) (sleeptime w).

Definition count_write (w : World) : World :=
  mkWorld (files w) (write_reply w) (S (writes_done w)) (clock w) (clock_reads w)
          (errno w) (open_streams w) (trace w) (temp_state w) (sleeptime w).

Definition count_clock (w : World) : World :=
  mkWorld (files w) (write_reply w) (writes_done w) (clock w) (S (clock_reads w))
          (errno w) (open_streams w) (trace w) (temp_state w) (sleeptime w).

Definition set_open_streams (n : nat) (w : World) : World :=
  mkWorld (files w) (write_reply w) (writes_done w) (clock w) (clock_reads w)
          (errno w) n (trace w) (temp_state w) (sleeptime w).

Definition set_temp_state (l : list Z) (w : World) : World :=
  mkWorld (files w) (write_reply w) (writes_done w) (clock w) (clock_reads w)
          (errno w) (open_streams w) (trace w) l (sleeptime w).

(** ** The monad: state, exceptions, undefined behaviour, fuel *)

Inductive result (A : Type) : Type :=
| Ok (a : A)
| Throw (e : exn)
| Undefined        (* undefined behaviour of the C++ abstract machine *)
| OutOfFuel.       (* a loop was cut off by its fuel *)
Arguments Ok {A} a.
Arguments Throw {A} e.
Arguments Undefined {A}.
Arguments OutOfFuel {A}.

Definition M (St A : Type) : Type := St -> result A * St.

Definition ret {St A : Type} (a : A) : M St A := fun s => (Ok a, s).

Definition bind {St A B : Type} (m : M St A) (k : A -> M St B) : M St B :=
  fun s =>
    match m s with
    | (Ok a, s') => k a s'
    | (Throw e, s') => (Throw e, s')
    | (Undefined, s') => (Undefined, s')
    | (OutOfFuel, s') => (OutOfFuel, s')
    end.

Definition throw {St A : Type} (e : exn) : M St A := fun s => (Throw e, s).

Definition undefined {St A : Type} : M St A := fun s => (Undefined, s).

Definition out_of_fuel {St A : Type} : M St A := fun s => (OutOfFuel, s).

Definition try_catch {St A : Type} (m : M St A) (handler : exn -> M St A) : M St A :=
  fun s =>
    match m s with
    | (Throw e, s') => handler e s'
    | other => other
    end.

Definition gets {St A : Type} (f : St -> A) : M St A := fun s => (Ok (f s), s).

Definition modify {St : Type} (f : St -> St) : M St unit := fun s => (Ok tt, f s).

Declare Scope monad_scope.
Delimit Scope monad_scope with monad.
Notation "x <- m ;; k" := (bind m (fun x => k))
  (at level 61, m at next level, right associativity) : monad_scope.
Notation "m ;; k" := (bind m (fun _ => k))
  (at level 61, right associativity) : monad_scope.
Local Open Scope monad_scope.

(** A member function runs on its object and the world; a free function
    or a world primitive is lifted to it. *)
Definition lift {O A : Type} (m : M World A) : M (O * World) A :=
  fun s => let (r, w') := m (snd s) in (r, (fst s, w')).

Definition this {O : Type} : M (O * World) O := gets fst.

Definition set_this {O : Type} (o : O) : M (O * World) unit :=
  modify (fun s => (o, snd s)).

(** A local stream object: it is alive from its declaration to the end of
    the enclosing block, whichever way the block is left. *)
Definition scoped_stream {A : Type} (body : M World A) : M World A :=
  fun w =>
    let (r, w') := body (set_open_streams (S (open_streams w)) w) in
    (r, set_open_streams (pred (open_streams w')) w').

(** [f.exceptions(failbit | badbit); f << data << std::flush;] on an output
    stream opened on [path]: one write attempt.  Whether the attempt fails at
    [open] or at [write], the stream raises [std::ios_base::failure] and
    [errno] holds the OS error. *)
Definition stream_write (path : string) (data : bytes) : M World unit :=
  fun w =>
    match write_reply w (writes_done w) with
    | None => (Ok tt, count_write (emit (EvWrite path data None) w))
    | Some e =>
        (Throw ios_base_failure,
         set_errno e (count_write (emit (EvWrite path data (Some e)) w)))
    end.

Definition system_clock_now : M World Z :=
  fun w => (Ok (clock w (clock_reads w)), count_clock w).

Definition sleep_for (d : Q) : M World unit := modify (emit (EvSleep d)).

Definition log (lvl : loglevel) (what : message) : M World unit :=
  modify (emit (EvLog lvl what)).

(** [std::chrono::seconds] converted to clock ticks (nanoseconds). *)
Definition seconds (n : Z) : Z := n * 1000000000.

(** An integer as an [unsigned int] parameter or field holds it: modulo
    2^32. *)
Definition to_unsigned (z : Z) : Z := z mod 4294967296.

(** A tick count as the clock's representation holds it, a signed 64-bit
    integer: sums that leave the range wrap around, as they do on the
    machine (the C++ standard leaves such a sum undefined). *)
Definition to_int64 (z : Z) : Z :=
  (z + 9223372036854775808) mod 18446744073709551616 - 9223372036854775808.

Definition Qltb (x y : Q) : bool := negb (Qle_bool y x).

(** A fan level as the decision policy hands it over: [str()] for the
    text protocol, [num()] for PWM. *)
Record Level : Type := mkLevel { str : bytes; num : Z }.

(** ** FanDriver *)

Module FanDriver.

Record obj : Type := mk {
  path_ : string;
  watchdog_ : Z;              (* std::chrono::duration<unsigned int> *)
  depulse_ : Q;               (* std::chrono::duration<float>, as a rational *)
  initial_state_ : bytes;
  last_watchdog_ping_ : Z     (* system_clock::time_point, ticks since the epoch *)
}.

(** [FanDriver::FanDriver(path, watchdog_timeout)] *)
Definition new (path : string) (watchdog_timeout : Z) : obj :=
  mk path (to_unsigned watchdog_timeout) 0%Q [] 0.

(** [FanDriver::set_speed(const string &level)] *)
Definition set_speed (level : bytes) : M (obj * World) unit :=
  d <- this ;;
  lift (scoped_stream
    (try_catch (stream_write (path_ d) level)
       (fun e =>
          match e with
          | ios_base_failure =>
              err <- gets errno ;;
              if err =? EPERM
              then throw (SystemError (MSG_FAN_EPERM (path_ d)))
              else throw (IOerror (MSG_FAN_CTRL level (path_ d)) err)
          | other => throw other
          end))).

End FanDriver.

(** ** Input streams *)

(** A [std::ifstream] (or the read side of a [std::fstream]): the characters
    of the file, those not yet extracted, the read position, and the state bits
    the model uses.  [badbit] has no field: a read that fails raises at once
    (see [reading]), and no code looks at the stream after that. *)
Record istream : Type := mkIstream {
  contents : bytes;   (* the whole file *)
  unread : bytes;
  offset : nat;
  eofbit : bool;
  failbit : bool
}.

Definition good (f : istream) : bool := negb (eofbit f) && negb (failbit f).

Definition set_failbit (f : istream) : istream :=
  mkIstream (contents f) (unread f) (offset f) (eofbit f) true.

(** [f.clear(f.rdstate() & ~f.failbit)] *)
Definition clear_failbit (f : istream) : istream :=
  mkIstream (contents f) (unread f) (offset f) (eofbit f) false.

(** Opening [path] with a [std::ifstream]: the stream, and the OS error
    that waits behind the last character of a file whose reads fail.  A failed
    open leaves a stream with [failbit] set and the OS error in [errno]. *)
Definition open_read (path : string) : M World (istream * option Z) :=
  fun w =>
    match files w path with
    | Content data | ReadOnly _ data =>
        (Ok (mkIstream data data 0 false false, None), w)
    | Failing data e => (Ok (mkIstream data data 0 false false, Some e), w)
    | Unreadable e => (Ok (mkIstream [] [] 0 false true, None), set_errno e w)
    end.

(** Opening [path] with a [std::fstream], whose default mode is
    [in | out]: the open also fails on a file that cannot be written. *)
Definition open_read_write (path : string) : M World (istream * option Z) :=
  fun w =>
    match files w path with
    | Content data => (Ok (mkIstream data data 0 false false, None), w)
    | Failing data e => (Ok (mkIstream data data 0 false false, Some e), w)
    | Unreadable e | ReadOnly e _ =>
        (Ok (mkIstream [] [] 0 false true, None), set_errno e w)
    end.

(** What an extracting operation gives on a file whose reads may fail:
    [r] is the stream after the operation and what it extracted, had the file
    ended behind its last character.  On a file whose reads fail there, an
    operation that runs into that end meets the error instead: the stream
    buffer raises, the operation sets [badbit], [errno] holds the OS error,
    and, [badbit] being in the exception mask of every input stream of
    drivers.cpp from its first operation on, [std::ios_base::failure] leaves
    the operation. *)
Definition reading {A : Type} (err : option Z) (r : istream * A)
  : M World (istream * A) :=
  match err with
  | Some e =>
      if eofbit (fst r) then modify (set_errno e) ;; throw ios_base_failure
      else ret r
  | None => ret r
  end.

(** [f.exceptions(f.failbit | f.badbit)]: raises at once when the bit is
    already set, and makes every later operation that sets it raise. *)
Definition exceptions_failbit (f : istream) : M World unit :=
  if failbit f then throw ios_base_failure else ret tt.

(** The byte string a stream operation leaves in a character array [s]:
    [data] is stored from index 0, the rest of [s] keeps its old bytes and
    the array does not grow. *)
Definition store (s data : bytes) : bytes :=
  firstn (length s) (data ++ skipn (length data) s).

Definition NUL : ascii := "000"%char.
Definition LF : ascii := "010"%char.

(** The extraction loop of [istream::getline(s, n)]: end of file is
    tested first, then the delimiter (extracted, not stored), then the room
    left in the array (n-1 characters stored: [failbit]).  Returns the
    characters stored, the characters left, [eofbit] and [failbit]. *)
Fixpoint getline_chars (room : nat) (l : bytes) : bytes * bytes * bool * bool :=
  match l with
  | [] => ([], [], true, false)
  | c :: l' =>
      if Ascii.eqb c LF then ([], l', false, false)
      else match room with
           | O => ([], l, false, true)
           | S room' =>
               let '(stored, rest, e, f) := getline_chars room' l' in
               (c :: stored, rest, e, f)
           end
  end.

(** [f.getline(s, n)] for n > 0: nothing is extracted from a stream that is
    not good; extracting no character at all sets [failbit]; a NUL is stored
    after the characters in every case. *)
Definition getline (f : istream) (s : bytes) (n : nat) : istream * bytes :=
  if good f then
    let '(stored, rest, e, fl) := getline_chars (n - 1) (unread f) in
    let extracted := (length (unread f) - length rest)%nat in
    (mkIstream (contents f) rest (offset f + extracted) e (fl || Nat.eqb extracted 0),
     store s (stored ++ [NUL]))
  else (set_failbit f, store s [NUL]).

(** [f.tellg()]: -1 (and [failbit]) on a stream that is not good. *)
Definition tellg (f : istream) : istream * Z :=
  if good f then (f, Z.of_nat (offset f)) else (set_failbit f, -1).

(** [f.seekg(pos)]: clears [eofbit]; does nothing more on a failed stream; a
    negative position is refused by the OS and sets [failbit]; any other
    position is taken, also one behind the end of the file. *)
Definition seekg (pos : Z) (f : istream) : M World istream :=
  if failbit f then ret (mkIstream (contents f) (unread f) (offset f) false true)
  else if pos <? 0 then
    modify (set_errno EINVAL) ;;
    ret (mkIstream (contents f) (unread f) (offset f) false true)
  else ret (mkIstream (contents f) (skipn (Z.to_nat pos) (contents f))
                      (Z.to_nat pos) false false).

(** *** Formatted extraction of an [int] *)

Definition isspace (c : ascii) : bool :=
  let n := nat_of_ascii c in
  (Nat.eqb n 32 || (Nat.leb 9 n && Nat.leb n 13))%bool.

Definition isdigit (c : ascii) : bool :=
  let n := nat_of_ascii c in (Nat.leb 48 n && Nat.leb n 57)%bool.

Definition digit_value (c : ascii) : Z := Z.of_nat (nat_of_ascii c) - 48.

Fixpoint skip_ws (l : bytes) : bytes :=
  match l with
  | c :: l' => if isspace c then skip_ws l' else l
  | [] => []
  end.

(** The longest run of decimal digits at the head of [l], accumulated
    onto [acc], and what follows it. *)
Fixpoint take_digits (acc : Z) (l : bytes) : Z * nat * bytes :=
  match l with
  | c :: l' =>
      if isdigit c
      then let '(v, n, rest) := take_digits (acc * 10 + digit_value c) l' in
           (v, S n, rest)
      else (acc, O, l)
  | [] => (acc, O, [])
  end.

Definition INT_MIN : Z := -2147483648.
Definition INT_MAX : Z := 2147483647.

Definition in_int_range (z : Z) : bool := (INT_MIN <=? z) && (z <=? INT_MAX).

(** [f >> tmp] for [int tmp], default flags (skipws, dec), "C" locale.
    The sentry fails on a stream that is not good, and when only white space
    is left (then [eofbit] and [failbit]).  An optional sign and the digits are
    extracted; running into the end of the file sets [eofbit]; no digit or a
    value outside [int] sets [failbit].  The value is given when [failbit] is
    clear. *)
Definition extract_int (f : istream) : istream * Z :=
  if good f then
    match skip_ws (unread f) with
    | [] => (mkIstream (contents f) [] (offset f + length (unread f)) true true, 0)
    | c :: l' =>
        let '(neg, l1) :=
          if Ascii.eqb c "-" then (true, l')
          else if Ascii.eqb c "+" then (false, l')
          else (false, c :: l') in
        let '(v, ndigits, rest) := take_digits 0 l1 in
        let value := if neg then - v else v in
        let bad := (Nat.eqb ndigits 0 || negb (in_int_range value))%bool in
        (mkIstream (contents f) rest (offset f + (length (unread f) - length rest))
                   (match rest with [] => true | _ => false end) bad,
         if bad then 0 else value)
    end
  else (set_failbit f, 0).

(** *** [std::string] searches *)

Fixpoint prefixb (p l : bytes) : bool :=
  match p, l with
  | [], _ => true
  | a :: p', b :: l' => Ascii.eqb a b && prefixb p' l'
  | _ :: _, [] => false
  end.

(** [s.rfind(p)]: the last position at which [p] occurs, [None] for npos. *)
Fixpoint rfind (p l : bytes) : option nat :=
  match l with
  | [] => if prefixb p [] then Some O else None
  | _ :: l' =>
      match rfind p l' with
      | Some i => Some (S i)
      | None => if prefixb p l then Some O else None
      end
  end.

Definition found (r : option nat) : bool :=
  match r with Some _ => true | None => false end.

(** [s.find_last_of(set)] *)
Fixpoint find_last_of (set l : bytes) : option nat :=
  match l with
  | [] => None
  | c :: l' =>
      match find_last_of set l' with
      | Some i => Some (S i)
      | None => if existsb (Ascii.eqb c) set then Some O else None
      end
  end.

(** The argument [" \t"] of [find_last_of]: a space and a tab. *)
Definition blanks : bytes := [" "%char; "009"%char].

(** [s.substr(s.find_last_of(set) + 1)]; npos + 1 wraps around to 0. *)
Definition substr_after_last_of (set l : bytes) : bytes :=
  match find_last_of set l with
  | Some i => skipn (S i) l
  | None => l
  end.

(** The handler shared by the drivers' [catch (std::ios_base::failure &e)]
    blocks: rethrow as an [IOerror] that carries [errno]. *)
Definition failure_to_IOerror {A : Type} (what : message) (e : exn) : M World A :=
  match e with
  | ios_base_failure => err <- gets errno ;; throw (IOerror what err)
  | other => throw other
  end.

(** ** TpFanDriver *)

Module TpFanDriver.
Import FanDriver.

(** The constructor's [while (f.getline(&*line.begin(), 255))] loop;
    [fuel] bounds the number of rounds.  [line] is the 256-byte string the
    lines are read into: its size never changes, so the searches see the line
    just read, the NUL behind it and whatever earlier lines left further
    back. *)
Fixpoint read_status (err : option Z) (fuel : nat) (f : istream)
         (line initial : bytes) (ctrl_supported : bool) : M World (bytes * bool) :=
  match fuel with
  | O => out_of_fuel
  | S fuel' =>
      r <- reading err (getline f line 255) ;;
      let (f', line') := r in
      if failbit f' then ret (initial, ctrl_supported)
      else if found (rfind (lit "level:") line')
      then read_status err fuel' f' line'
             (substr_after_last_of blanks line')
             ctrl_supported
      else if found (rfind (lit "commands:") line')
              && found (rfind (lit "level <level>") line')
      then read_status err fuel' f' line' initial true
      else read_status err fuel' f' line' initial ctrl_supported
  end.

(** [TpFanDriver::TpFanDriver(path)].  The loop is given one round more
    than the file has characters. *)
Definition new (path : string) : M World obj :=
  let d := FanDriver.new path 120 in
  scoped_stream
    (fe <- open_read_write path ;;
     let (f, err) := fe in
     r <- try_catch
            (exceptions_failbit f ;;
             read_status err (S (length (unread f))) f (repeat NUL 256)
                         (initial_state_ d) false)
            (failure_to_IOerror (MSG_FAN_INIT path)) ;;
     if snd r
     then ret (mk (path_ d) (watchdog_ d) (depulse_ d) (fst r)
                  (last_watchdog_ping_ d))
     else throw (SystemError MSG_FAN_MODOPTS)).

(** [TpFanDriver::~TpFanDriver()] *)
Definition destroy : M (obj * World) unit :=
  d <- this ;;
  lift (scoped_stream
    (try_catch
       (stream_write (path_ d) (lit "level " ++ initial_state_ d))
       (failure_to_IOerror (MSG_FAN_RESET (path_ d))))).

(** [TpFanDriver::set_watchdog(timeout)] *)
Definition set_watchdog (timeout : Z) : M (obj * World) unit :=
  d <- this ;;
  set_this (mk (path_ d) (to_unsigned timeout) (depulse_ d) (initial_state_ d)
               (last_watchdog_ping_ d)).

(** [TpFanDriver::set_depulse(duration)] *)
Definition set_depulse (duration : Q) : M (obj * World) unit :=
  d <- this ;;
  set_this (mk (path_ d) (watchdog_ d) duration (initial_state_ d)
               (last_watchdog_ping_ d)).

(** [TpFanDriver::set_speed(const Level *level)] *)
Definition set_speed (level : Level) : M (obj * World) unit :=
  FanDriver.set_speed (str level) ;;
  now <- lift system_clock_now ;;
  d <- this ;;
  set_this (mk (path_ d) (watchdog_ d) (depulse_ d) (initial_state_ d) now).

(** The left-hand side of the watchdog comparison,
    [last_watchdog_ping_ + watchdog_ + sleeptime]: the two durations, counts
    of seconds, are converted to the ticks of the time point and added to it
    in its signed 64-bit representation. *)
Definition deadline (d : obj) (w : World) : Z :=
  to_int64 (to_int64 (last_watchdog_ping_ d + seconds (watchdog_ d))
            + seconds (sleeptime w)).

(** [TpFanDriver::ping_watchdog_and_depulse(level)] *)
Definition ping_watchdog_and_depulse (level : Level) : M (obj * World) unit :=
  d <- this ;;
  if Qltb 0 (depulse_ d) then
    FanDriver.set_speed (lit "level disengaged") ;;
    lift (sleep_for (depulse_ d)) ;;
    set_speed level
  else
    dl <- lift (gets (deadline d)) ;;
    now <- lift system_clock_now ;;
    if dl >=? now then set_speed level else ret tt.

(** [TpFanDriver::init()] *)
Definition init : M (obj * World) unit :=
  d <- this ;;
  lift (scoped_stream
    (try_catch
       (stream_write (path_ d) (lit "watchdog " ++ to_string (watchdog_ d)))
       (failure_to_IOerror (MSG_FAN_INIT (path_ d))))).

End TpFanDriver.

(** ** HwmonFanDriver *)

Module HwmonFanDriver.
Import FanDriver.

(** [HwmonFanDriver::HwmonFanDriver(path)] *)
Definition new (path : string) : M World obj :=
  let d := FanDriver.new path 0 in
  scoped_stream
    (fe <- open_read (path ++ "_enable")%string ;;
     let (f, err) := fe in
     try_catch
       (exceptions_failbit f ;;
        r <- reading err (getline f (repeat NUL 64) 63) ;;
        let (f', line) := r in
        exceptions_failbit f' ;;
        ret (mk (path_ d) (watchdog_ d) (depulse_ d) line
                (last_watchdog_ping_ d)))
       (failure_to_IOerror (MSG_FAN_INIT path))).

(** [HwmonFanDriver::~HwmonFanDriver()] *)
Definition destroy : M (obj * World) unit :=
  d <- this ;;
  lift (scoped_stream
    (try_catch
       (stream_write (path_ d ++ "_enable")%string (initial_state_ d))
       (failure_to_IOerror (MSG_FAN_RESET (path_ d))))).

(** [HwmonFanDriver::init()] *)
Definition init : M (obj * World) unit :=
  d <- this ;;
  lift (scoped_stream
    (try_catch
       (stream_write (path_ d ++ "_enable")%string (lit "1"))
       (failure_to_IOerror (MSG_FAN_INIT (path_ d))))).

Definition woke_up : message :=
  Text "It seems we woke up from suspend. PWM fan driver had to be re-initialized.".

(** [HwmonFanDriver::set_speed(const Level *level)] *)
Definition set_speed (level : Level) : M (obj * World) unit :=
  try_catch
    (FanDriver.set_speed (to_string (num level)))
    (fun e =>
       match e with
       | IOerror _ code =>
           if code =? EINVAL then
             init ;;
             FanDriver.set_speed (to_string (num level)) ;;
             lift (log TF_DBG woke_up)
           else throw e
       | other => throw other
       end).

End HwmonFanDriver.

(** ** The temperature aggregate *)

(** Modelled from the spec: [temp_state.add_temp] belongs to the decision
    policy's [TemperatureState], which is not part of drivers.cpp.  The
    aggregate is an ordered, append-only sequence of integers, so adding a
    temperature appends it. *)
Definition add_temp (t : Z) : M World unit :=
  modify (fun w => set_temp_state (temp_state w ++ [t]) w).

(** [v[i]] on a [std::vector<int>]: reading past the end is undefined. *)
Definition index (v : list Z) (i : nat) : M World Z :=
  match nth_error v i with
  | Some x => ret x
  | None => undefined
  end.

(** [a + b] on [int]: signed overflow is undefined. *)
Definition int_add (a b : Z) : M World Z :=
  if in_int_range (a + b) then ret (a + b) else undefined.

(** [v.resize(n, x)] *)
Definition resize (v : list Z) (n : nat) (x : Z) : list Z :=
  firstn n v ++ repeat x (n - length v).

(** A method of a base class run on an object of a derived class. *)
Definition inherited {O B A : Type} (get : O -> B) (set : B -> O -> O)
           (m : M (B * World) A) : M (O * World) A :=
  fun s =>
    let '(r, s') := m (get (fst s), snd s) in
    (r, (set (fst s') (fst s), snd s')).

(** ** SensorDriver *)

Module SensorDriver.

Record obj : Type := mk {
  path_ : string;
  num_temps_ : nat;        (* unsigned int *)
  correction_ : list Z     (* std::vector<int> *)
}.

(** [SensorDriver::SensorDriver(path)] *)
Definition new (path : string) : M World obj :=
  scoped_stream
    (fe <- open_read path ;;
     try_catch (exceptions_failbit (fst fe))
               (failure_to_IOerror (MSG_FAN_INIT path))) ;;
  ret (mk path 0 []).

Definition num_temps (d : obj) : nat := num_temps_ d.

(** [SensorDriver::set_correction(correction)] *)
Definition set_correction (correction : list Z) : M (obj * World) unit :=
  d <- this ;;
  (if (num_temps d <? length correction)%nat
   then throw (ConfigError (MSG_CONF_CORRECTION_LEN
                              (path_ d) (length correction) (num_temps_ d)))
   else if (length correction <? num_temps d)%nat
   then lift (log TF_WRN (MSG_CONF_CORRECTION_LEN
                            (path_ d) (length correction) (num_temps_ d)))
   else ret tt) ;;
  set_this (mk (path_ d) (num_temps_ d) correction).

(** [SensorDriver::set_num_temps(n)] *)
Definition set_num_temps (n : nat) (d : obj) : obj :=
  mk (path_ d) n (resize (correction_ d) n 0).

End SensorDriver.

(** ** HwmonSensorDriver *)

Module HwmonSensorDriver.
Import SensorDriver.

(** [HwmonSensorDriver::HwmonSensorDriver(path)] *)
Definition new (path : string) : M World obj :=
  d <- SensorDriver.new path ;;
  ret (set_num_temps 1 d).

(** [HwmonSensorDriver::read_temps()].  [failbit] stays in the
    exception mask, so an extraction that fails raises. *)
Definition read_temps : M (obj * World) unit :=
  d <- this ;;
  lift (scoped_stream
    (fe <- open_read (path_ d) ;;
     let (f, err) := fe in
     try_catch
       (exceptions_failbit f ;;
        r <- reading err (extract_int f) ;;
        let (f', tmp) := r in
        exceptions_failbit f' ;;
        c <- index (correction_ d) 0 ;;
        t <- int_add (Z.quot tmp 1000) c ;;
        add_temp t)
       (failure_to_IOerror (MSG_T_GET (path_ d))))).

End HwmonSensorDriver.

(** ** TpSensorDriver *)

Module TpSensorDriver.

Record obj : Type := mk {
  base : SensorDriver.obj;
  skip_bytes_ : Z
}.

Definition set_base (b : SensorDriver.obj) (d : obj) : obj :=
  mk b (skip_bytes_ d).

Definition num_temps (d : obj) : nat := SensorDriver.num_temps (base d).

(** The inherited [set_correction]. *)
Definition set_correction (correction : list Z) : M (obj * World) unit :=
  inherited base set_base (SensorDriver.set_correction correction).

Definition skip_prefix_ : bytes := lit "temperatures:".

(** The constructor's counting loop,
    [while (!(f.eof() || f.fail())) { f >> tmp; if (!f.fail()) ++count; }];
    [fuel] bounds the number of rounds. *)
Fixpoint count_temps (err : option Z) (fuel : nat) (f : istream) (count : nat)
  : M World nat :=
  match fuel with
  | O => out_of_fuel
  | S fuel' =>
      if eofbit f || failbit f then ret count
      else
        r <- reading err (extract_int f) ;;
        let (f', _) := r in
        count_temps err fuel' f' (if failbit f' then count else S count)
  end.

(** [TpSensorDriver::TpSensorDriver(path)].  The counting loop is given
    two rounds more than the file has characters left. *)
Definition new (path : string) : M World obj :=
  b <- SensorDriver.new path ;;
  scoped_stream
    (fe <- open_read path ;;
     let (f, err) := fe in
     try_catch
       (exceptions_failbit f ;;
        let skip := repeat NUL (length skip_prefix_) in
        r <- reading err (getline f skip (length skip_prefix_ + 1)) ;;
        let (f1, skip') := r in
        let f2 := clear_failbit f1 in
        if list_eq_dec ascii_dec skip' skip_prefix_ then
          let (f3, pos) := tellg f2 in
          count <- count_temps err (S (S (length (unread f3)))) f3 0 ;;
          ret (mk (SensorDriver.set_num_temps count b) pos)
        else
          throw (SystemError (Text (path ++ ": Unknown file format."))))
       (failure_to_IOerror (MSG_SENSOR_INIT path))).

(** The loop of [read_temps],
    [while (!f.eof()) { f >> tmp; if (!f.fail()) add_temp(tmp + correction_[tidx++]); }].
    Nothing bounds it: [fuel] cuts it off. *)
Fixpoint read_loop (err : option Z) (fuel : nat) (correction : list Z)
         (f : istream) (tidx : nat) : M World unit :=
  match fuel with
  | O => out_of_fuel
  | S fuel' =>
      if eofbit f then ret tt
      else
        r <- reading err (extract_int f) ;;
        let (f', tmp) := r in
        if failbit f' then read_loop err fuel' correction f' tidx
        else
          c <- index correction tidx ;;
          t <- int_add tmp c ;;
          add_temp t ;;
          read_loop err fuel' correction f' (S tidx)
  end.

(** [TpSensorDriver::read_temps()] *)
Definition read_temps (fuel : nat) : M (obj * World) unit :=
  d <- this ;;
  lift (scoped_stream
    (fe <- open_read (SensorDriver.path_ (base d)) ;;
     let (f, err) := fe in
     try_catch
       (exceptions_failbit f ;;
        f1 <- seekg (skip_bytes_ d) f ;;
        exceptions_failbit f1 ;;
        read_loop err fuel (SensorDriver.correction_ (base d)) f1 0)
       (failure_to_IOerror (MSG_T_GET (SensorDriver.path_ (base d)))))).

End TpSensorDriver.


(** ** The polling cycle *)

(** The sensor bindings that are always compiled in. *)
Inductive sensor : Type :=
| HwmonSensor (d : SensorDriver.obj)
| TpSensor (d : TpSensorDriver.obj).

Definition sensor_num_temps (s : sensor) : nat :=
  match s with
  | HwmonSensor d => SensorDriver.num_temps d
  | TpSensor d => TpSensorDriver.num_temps d
  end.

(** The virtual call [sensor->read_temps()]. *)
Definition sensor_read_temps (fuel : nat) (s : sensor) : M World unit :=
  fun w =>
    match s with
    | HwmonSensor d =>
        let (r, s') := HwmonSensorDriver.read_temps (d, w) in (r, snd s')
    | TpSensor d =>
        let (r, s') := TpSensorDriver.read_temps fuel (d, w) in (r, snd s')
    end.

Fixpoint read_all (fuel : nat) (sensors : list sensor) : M World unit :=
  match sensors with
  | [] => ret tt
  | s :: rest => sensor_read_temps fuel s ;; read_all fuel rest
  end.

(** Modelled from the spec: the polling loop lives in the daemon's main
    program, which is not part of drivers.cpp.  In one cycle the aggregate is
    cleared and [read_temps()] is called on every configured sensor binding,
    in the order in which the bindings were registered. *)
Definition polling_cycle (fuel : nat) (sensors : list sensor) : M World unit :=
  modify (set_temp_state []) ;; read_all fuel sensors.

(** ** Vocabulary of the statements *)

(** How the shared write primitive classifies the OS error of a failed
    write. *)
Definition classify (path : string) (level : bytes) (e : Z) : exn :=
  if e =? EPERM then SystemError (MSG_FAN_EPERM path)
  else IOerror (MSG_FAN_CTRL level path) e.

(** The world after one write attempt. *)
Definition after_write (path : string) (data : bytes) (w : World) : World :=
  match write_reply w (writes_done w) with
  | None => count_write (emit (EvWrite path data None) w)
  | Some e => set_errno e (count_write (emit (EvWrite path data (Some e)) w))
  end.

(** A world in which nothing can be read, every write attempt fails with
    OS error [e], and the clock stands at 0. *)
Definition failing_world (e : Z) : World :=
  mkWorld (fun _ => Unreadable 2) (fun _ => Some e) 0 (fun _ => 0) 0 0 0 [] [] 5.

(** A world in which the successive write attempts get the replies
    [replies] (and succeed after those), and the clock shows [now]. *)
Definition scripted_world (replies : list (option Z)) (now : Z) : World :=
  mkWorld (fun _ => Unreadable 2) (fun n => nth n replies None) 0
          (fun _ => now) 0 0 0 [] [] 5.

Definition proc_fan : string := "/proc/acpi/ibm/fan".
Definition sys_pwm : string := "/sys/class/hwmon/hwmon0/pwm1".

Definition level7 : Level := mkLevel (lit "level 7") 255.

Definition set_sleeptime (s : Z) (w : World) : World :=
  mkWorld (files w) (write_reply w) (writes_done w) (clock w) (clock_reads w)
          (errno w) (open_streams w) (trace w) (temp_state w) s.

(** A number of ticks that the clock's signed 64-bit representation
    holds. *)
Definition fits_int64 (z : Z) : Prop :=
  -9223372036854775808 <= z <= 9223372036854775807.

(** The sum that the watchdog comparison forms, as a plain integer: the
    time of the last ping, in ticks, and the watchdog timeout and the polling
    period, seconds of 10^9 ticks each. *)
Definition deadline_sum (d : FanDriver.obj) (w : World) : Z :=
  FanDriver.last_watchdog_ping_ d + FanDriver.watchdog_ d * 1000000000
  + sleeptime w * 1000000000.

(** The object [d] with another watchdog timeout and another time of the
    last ping. *)
Definition with_watchdog_state (timeout last : Z) (d : FanDriver.obj) : FanDriver.obj :=
  FanDriver.mk (FanDriver.path_ d) timeout (FanDriver.depulse_ d)
               (FanDriver.initial_state_ d) last.

(** [line1 ++ LF ++ line2 ++ LF ...] *)
Definition text_of_lines (lines : list bytes) : bytes :=
  concat (map (fun l => l ++ [LF]) lines).

Definition TAB : ascii := "009"%char.

(** /proc/acpi/ibm/fan as thinkpad_acpi prints it. *)
Definition fan_status_lines : list bytes :=
  [ lit "status:" ++ [TAB; TAB] ++ lit "enabled";
    lit "speed:" ++ [TAB; TAB] ++ lit "3000";
    lit "level:" ++ [TAB; TAB] ++ lit "auto";
    lit "commands:" ++ [TAB] ++
      lit "level <level> (<level> is 0-7, auto, disengaged, full-speed)";
    lit "commands:" ++ [TAB] ++ lit "enable, disable";
    lit "commands:" ++ [TAB] ++
      lit "watchdog <timeout> (<timeout> is 0 (off), 1-120 (seconds))" ].

(** A world in which the listed files can be read and no other; every
    write succeeds and the clock shows [now]. *)
Fixpoint lookup_file (l : list (string * bytes)) (p : string) : file :=
  match l with
  | [] => Unreadable 2
  | (q, text) :: l' => if String.eqb p q then Content text else lookup_file l' p
  end.

Definition world_with_files (l : list (string * bytes)) (now : Z) : World :=
  mkWorld (lookup_file l) (fun _ => None) 0 (fun _ => now) 0 0 0 [] [] 5.

Definition world_with_file (path : string) (text : bytes) (now : Z) : World :=
  world_with_files [(path, text)] now.

(** A world whose one file is [f] at [path], which may be a file that opens
    for reading only or one whose reads fail. *)
Definition world_with (path : string) (f : file) (now : Z) : World :=
  mkWorld (fun p => if String.eqb p path then f else Unreadable 2)
          (fun _ => None) 0 (fun _ => now) 0 0 0 [] [] 5.

(** *** The reading loops without the world *)

(** Whether an operation that left the stream [f] has met the read error
    of a file whose reads fail, see [reading]. *)
Definition meets_error (err : option Z) (f : istream) : bool :=
  match err with Some _ => eofbit f | None => false end.

(** The world after a loop on such a file has ended as [r]. *)
Definition after_reading {A : Type} (err : option Z) (r : result A) (w : World)
  : World :=
  match r, err with
  | Throw _, Some e => set_errno e w
  | _, _ => w
  end.

(** What the loop of [TpFanDriver]'s constructor finds, without the
    world. *)
Fixpoint status_scan_io (err : option Z) (fuel : nat) (f : istream)
         (line initial : bytes) (ctrl : bool) : result (bytes * bool) :=
  match fuel with
  | O => OutOfFuel
  | S fuel' =>
      let (f', line') := getline f line 255 in
      if meets_error err f' then Throw ios_base_failure
      else if failbit f' then Ok (initial, ctrl)
      else if found (rfind (lit "level:") line')
      then status_scan_io err fuel' f' line'
             (substr_after_last_of blanks line') ctrl
      else if found (rfind (lit "commands:") line')
              && found (rfind (lit "level <level>") line')
      then status_scan_io err fuel' f' line' initial true
      else status_scan_io err fuel' f' line' initial ctrl
  end.

(** The same on a file that is read without error, for rounds that
    suffice: the result alone. *)
Fixpoint status_scan (fuel : nat) (f : istream) (line initial : bytes)
         (ctrl_supported : bool) : bytes * bool :=
  match fuel with
  | O => (initial, ctrl_supported)
  | S fuel' =>
      let (f', line') := getline f line 255 in
      if failbit f' then (initial, ctrl_supported)
      else if found (rfind (lit "level:") line')
      then status_scan fuel' f' line'
             (substr_after_last_of blanks line')
             ctrl_supported
      else if found (rfind (lit "commands:") line')
              && found (rfind (lit "level <level>") line')
      then status_scan fuel' f' line' initial true
      else status_scan fuel' f' line' initial ctrl_supported
  end.

(** What the counting loop of [TpSensorDriver]'s constructor counts,
    without the world. *)
Fixpoint count_numbers_io (err : option Z) (fuel : nat) (f : istream)
         (count : nat) : result nat :=
  match fuel with
  | O => OutOfFuel
  | S fuel' =>
      if eofbit f || failbit f then Ok count
      else
        let (f', _) := extract_int f in
        if meets_error err f' then Throw ios_base_failure
        else count_numbers_io err fuel' f' (if failbit f' then count else S count)
  end.

(** The same on a file that is read without error, for rounds that
    suffice: the count alone. *)
Fixpoint count_numbers (fuel : nat) (f : istream) (count : nat) : nat :=
  match fuel with
  | O => count
  | S fuel' =>
      if eofbit f || failbit f then count
      else
        let (f', _) := extract_int f in
        count_numbers fuel' f' (if failbit f' then count else S count)
  end.

(** What the loop of [TpSensorDriver::read_temps] does, without the
    world: how it ends and which values it appends. *)
Fixpoint read_values_io (err : option Z) (fuel : nat) (correction : list Z)
         (f : istream) (tidx : nat) : result unit * list Z :=
  match fuel with
  | O => (OutOfFuel, [])
  | S fuel' =>
      if eofbit f then (Ok tt, [])
      else
        let (f', tmp) := extract_int f in
        if meets_error err f' then (Throw ios_base_failure, [])
        else if failbit f' then read_values_io err fuel' correction f' tidx
        else
          match nth_error correction tidx with
          | None => (Undefined, [])
          | Some c =>
              if in_int_range (tmp + c)
              then let (r, l) := read_values_io err fuel' correction f' (S tidx) in
                   (r, (tmp + c) :: l)
              else (Undefined, [])
          end
  end.

(** The same on a file that is read without error. *)
Fixpoint read_values (fuel : nat) (correction : list Z) (f : istream)
         (tidx : nat) : result unit * list Z :=
  match fuel with
  | O => (OutOfFuel, [])
  | S fuel' =>
      if eofbit f then (Ok tt, [])
      else
        let (f', tmp) := extract_int f in
        if failbit f' then read_values fuel' correction f' tidx
        else
          match nth_error correction tidx with
          | None => (Undefined, [])
          | Some c =>
              if in_int_range (tmp + c)
              then let (r, l) := read_values fuel' correction f' (S tidx) in
                   (r, (tmp + c) :: l)
              else (Undefined, [])
          end
  end.

Definition append_temps (l : list Z) (w : World) : World :=
  set_temp_state (temp_state w ++ l) w.

Definition proc_thermal : string := "/proc/acpi/ibm/thermal".
Definition sys_temp : string := "/sys/class/hwmon/hwmon0/temp1_input".

(** *** The text of a thermal file *)

(** A decimal number as it stands in a file: an optional minus sign and
    digits. *)
Record number : Type := mkNumber { minus : bool; digits : bytes }.

Definition number_text (t : number) : bytes :=
  (if minus t then ["-"%char] else []) ++ digits t.

Definition digits_value (ds : bytes) : Z :=
  fold_left (fun acc c => acc * 10 + digit_value c) ds 0.

Definition number_value (t : number) : Z :=
  if minus t then - digits_value (digits t) else digits_value (digits t).

Definition nonempty (s : bytes) : bool :=
  match s with [] => false | _ :: _ => true end.

(** At least one digit, digits only, and a value that fits an [int]. *)
Definition well_formed_number (t : number) : bool :=
  nonempty (digits t) && forallb isdigit (digits t) && in_int_range (number_value t).

(** A number with the white space in front of it. *)
Definition well_formed_item (it : bytes * number) : bool :=
  nonempty (fst it) && forallb isspace (fst it) && well_formed_number (snd it).

(** What follows the prefix "temperatures:": numbers, each after some
    white space, and white space up to the end of the file. *)
Definition thermal_body (items : list (bytes * number)) (trailing : bytes) : bytes :=
  concat (map (fun it => fst it ++ number_text (snd it)) items) ++ trailing.

Definition starts_with_LF (s : bytes) : bool :=
  match s with c :: _ => Ascii.eqb c LF | [] => false end.

Definition well_formed_body (items : list (bytes * number)) (trailing : bytes) : bool :=
  forallb well_formed_item items && forallb isspace trailing
  && nonempty (thermal_body items trailing)
  && negb (starts_with_LF (thermal_body items trailing)).

Definition thermal_file (items : list (bytes * number)) (trailing : bytes) : bytes :=
  TpSensorDriver.skip_prefix_ ++ thermal_body items trailing.

(** [true] when [s] is empty or begins with something else than a digit. *)
Definition no_digit_ahead (s : bytes) : bool :=
  match s with c :: _ => negb (isdigit c) | [] => true end.

Definition is_nil (s : bytes) : bool :=
  match s with [] => true | _ :: _ => false end.

(** Readings with their offsets added, position by position. *)
Fixpoint corrected (values correction : list Z) : list Z :=
  match values, correction with
  | v :: vs, c :: cs => (v + c) :: corrected vs cs
  | _, _ => []
  end.

(** *** Valid input of [read_temps] *)

Definition readings (items : list (bytes * number)) : list Z :=
  map (fun it => number_value (snd it)) items.

(** The thermal file is well formed and has one number per channel, the
    binding stands behind the prefix, its correction vector has one offset per
    channel, and every corrected reading fits an [int]. *)
Definition tp_valid_reading (d : TpSensorDriver.obj) (w : World) : Prop :=
  exists items trailing,
    files w (SensorDriver.path_ (TpSensorDriver.base d))
      = Content (thermal_file items trailing) /\
    well_formed_body items trailing = true /\
    TpSensorDriver.skip_bytes_ d = Z.of_nat (length TpSensorDriver.skip_prefix_) /\
    length items = TpSensorDriver.num_temps d /\
    length (SensorDriver.correction_ (TpSensorDriver.base d))
      = TpSensorDriver.num_temps d /\
    forallb in_int_range
      (corrected (readings items) (SensorDriver.correction_ (TpSensorDriver.base d)))
      = true.

(** The hwmon file begins with a well-formed number (after white space, if
    any), the binding has one channel and one offset, and the corrected
    reading fits an [int]. *)
Definition hwmon_valid_reading (d : SensorDriver.obj) (w : World) : Prop :=
  exists sep t rest c,
    files w (SensorDriver.path_ d) = Content (sep ++ number_text t ++ rest) /\
    forallb isspace sep = true /\
    well_formed_number t = true /\
    no_digit_ahead rest = true /\
    SensorDriver.num_temps d = 1%nat /\
    SensorDriver.correction_ d = [c] /\
    in_int_range (Z.quot (number_value t) 1000 + c) = true.

Definition valid_reading (s : sensor) (w : World) : Prop :=
  match s with
  | HwmonSensor d => hwmon_valid_reading d w
  | TpSensor d => tp_valid_reading d w
  end.

(** *** The status text of the fan *)

(** [s.rfind(p) != npos] *)
Definition has (p l : bytes) : bool := found (rfind p l).

(** A search pattern: not empty and free of NUL. *)
Definition pattern_ok (p : bytes) : bool :=
  nonempty p && forallb (fun c => negb (Ascii.eqb c NUL)) p.

(** A line that [getline(..., 255)] reads whole: at most 254 characters,
    no line feed inside. *)
Definition line_ok (l : bytes) : bool :=
  (length l <=? 254)%nat && negb (existsb (Ascii.eqb LF) l).

Definition level_colon : bytes := lit "level:".
Definition commands_colon : bytes := lit "commands:".
Definition level_token : bytes := lit "level <level>".

(** A commands line that announces direct level control. *)
Definition supports_level (l : bytes) : bool :=
  has commands_colon l && has level_token l.

(** "level:" stands at the start of the line or nowhere in it. *)
Definition level_only_at_start (l : bytes) : bool :=
  negb (has level_colon (skipn 1 l)).

(** A line that holds the token is a commands line and is not a "level:"
    line. *)
Definition token_in_commands_line (l : bytes) : bool :=
  implb (has level_token l) (has commands_colon l && negb (prefixb level_colon l)).

Definition is_blank (c : ascii) : bool := existsb (Ascii.eqb c) blanks.

(** No blank at an index greater than [n]. *)
Definition no_blank_beyond (n : nat) (l : bytes) : bool :=
  negb (existsb is_blank (skipn (S n) l)).

(** What the constructor's loop does line by line, on the lines themselves:
    [buf] is the 256-byte array as the previous lines left it. *)
Fixpoint scan_lines (lines : list bytes) (buf initial : bytes) (ctrl : bool)
  : bytes * bool :=
  match lines with
  | [] => (initial, ctrl)
  | l :: ls =>
      let buf' := l ++ NUL :: skipn (S (length l)) buf in
      if has level_colon buf'
      then scan_lines ls buf' (substr_after_last_of blanks buf') ctrl
      else if has commands_colon buf' && has level_token buf'
      then scan_lines ls buf' initial true
      else scan_lines ls buf' initial ctrl
  end.

(** What the line buffer can hold: a NUL-free pattern that occurs in it
    from index [n] on occurs from index [n] on in one of the lines read so
    far. *)
Definition buffer_from_lines (buf : bytes) (seen : list bytes) : Prop :=
  forall (p : bytes) (n : nat),
    pattern_ok p = true ->
    has p (skipn n buf) = true ->
    existsb (fun l => has p (skipn n l)) seen = true.

(** *** Further vocabulary *)

(** [k] calls of [ping_watchdog_and_depulse], one after the other, as the
    polling loop makes them while the level stays the same. *)
Fixpoint repeat_ping (k : nat) (level : Level) : M (FanDriver.obj * World) unit :=
  match k with
  | O => ret tt
  | S k' => TpFanDriver.ping_watchdog_and_depulse level ;; repeat_ping k' level
  end.

(** A character with which no number can begin: no white space, no digit,
    no sign. *)
Definition begins_no_number (c : ascii) : bool :=
  negb (isspace c) && negb (isdigit c)
  && negb (Ascii.eqb c "-") && negb (Ascii.eqb c "+").

(** A text in which [operator>>] finds no number: nothing but white space,
    or white space and then a character that begins no number. *)
Definition holds_no_number (s : bytes) : bool :=
  match skip_ws s with
  | [] => true
  | c :: _ => begins_no_number c
  end.

(** The position that [tellg] reports after the first line of a file that
    begins with the prefix, by what follows the prefix: no position at the end
    of the file, the position behind a line feed that ends the line there,
    the position behind the prefix otherwise. *)
Definition position_behind_prefix (tail : bytes) : Z :=
  match tail with
  | [] => -1
  | c :: _ => if Ascii.eqb c LF then 14 else 13
  end.

(** The stream as the constructor's counting loop finds it, behind the
    first line of a file that begins with the prefix.  At the end of the file
    [tellg] has set [failbit]. *)
Definition behind_prefix (tail : bytes) : istream :=
  let data := TpSensorDriver.skip_prefix_ ++ tail in
  match tail with
  | [] => mkIstream data [] 13 true true
  | c :: rest =>
      if Ascii.eqb c LF then mkIstream data rest 14 false false
      else mkIstream data tail 13 false false
  end.

(** The number of channels the constructor finds in such a file. *)
Definition counted (tail : bytes) : nat :=
  count_numbers (S (length (unread (behind_prefix tail))))
    (behind_prefix tail) 0.

(** The file a sensor binding reads. *)
Definition sensor_path (s : sensor) : string :=
  match s with
  | HwmonSensor d => SensorDriver.path_ d
  | TpSensor d => SensorDriver.path_ (TpSensorDriver.base d)
  end.

(** A text that begins, after white space if any, with a run of digits
    (after a minus sign, if any) whose value does not fit an [int]. *)
Definition begins_with_overflow (data : bytes) : Prop :=
  exists (sep : bytes) (t : number) (rest : bytes),
    data = sep ++ number_text t ++ rest /\
    forallb isspace sep = true /\
    nonempty (digits t) = true /\
    forallb isdigit (digits t) = true /\
    no_digit_ahead rest = true /\
    in_int_range (number_value t) = false.

(** The line buffer holds nothing that the file does not hold: every
    NUL-free pattern found in [line] is found in [data]. *)
Definition buffer_within (data line : bytes) : Prop :=
  forall p : bytes,
    pattern_ok p = true -> has p line = true -> has p data = true.

(** Calls of [set_correction], one after the other, as the configuration
    makes them; an exception ends the sequence. *)
Fixpoint set_corrections (cs : list (list Z)) : M (SensorDriver.obj * World) unit :=
  match cs with
  | [] => ret tt
  | c :: cs' => SensorDriver.set_correction c ;; set_corrections cs'
  end.

(** A file whose reads fail behind the characters they deliver. *)
Definition read_fails (f : file) : bool :=
  match f with Failing _ _ => true | _ => false end.

(** Whether a read of the binding can append values and throw after that:
    the hwmon binding extracts its one number before it appends anything; the
    thinkpad binding appends value by value, and a read of its file can fail
    between two of them. *)
Definition can_throw_late (s : sensor) (w : World) : bool :=
  match s with
  | HwmonSensor _ => false
  | TpSensor d => read_fails (files w (SensorDriver.path_ (TpSensorDriver.base d)))
  end.

(** * Properties *)

(** ** Generic facts about the monad and the world *)

Lemma Qltb_lt (x y : Q) : Qltb x y = true <-> (x < y)%Q.
Proof.
  unfold Qltb. rewrite negb_true_iff. split; intro H.
  - apply Qnot_le_lt. intro L. apply Qle_bool_iff in L. congruence.
  - destruct (Qle_bool y x) eqn:E; [|reflexivity].
    apply Qle_bool_iff in E. exfalso. exact (Qlt_not_le _ _ H E).
Qed.

Lemma Qltb_nlt (x y : Q) : Qltb x y = false <-> ~ (x < y)%Q.
Proof.
  rewrite <- Qltb_lt. destruct (Qltb x y); split; congruence.
Qed.

Lemma scoped_after_write path data w :
  set_open_streams (pred (S (open_streams w)))
    (after_write path data (set_open_streams (S (open_streams w)) w))
  = after_write path data w.
Proof.
  unfold after_write. destruct w as [fs wr n ck cr er os tr ts st]; simpl.
  destruct (wr n); reflexivity.
Qed.

(** [FanDriver::set_speed] in one equation. *)
Lemma FanDriver_set_speed_eq (level : bytes) (d : FanDriver.obj) (w : World) :
  FanDriver.set_speed level (d, w) =
  (match write_reply w (writes_done w) with
   | None => Ok tt
   | Some e => Throw (classify (FanDriver.path_ d) level e)
   end, (d, after_write (FanDriver.path_ d) level w)).
Proof.
  unfold FanDriver.set_speed, this, gets, bind, lift, scoped_stream,
    try_catch, stream_write, classify; simpl.
  rewrite <- (scoped_after_write (FanDriver.path_ d) level w).
  unfold after_write; simpl.
  destruct (write_reply w (writes_done w)) as [e|]; simpl; [|reflexivity].
  unfold bind, gets, throw; simpl.
  destruct (e =? EPERM); reflexivity.
Qed.

(** A guarded write, as the destructors and [init] do it. *)
Lemma guarded_write_eq (what : message) (path : string) (data : bytes) (w : World) :
  scoped_stream (try_catch (stream_write path data) (failure_to_IOerror what)) w =
  (match write_reply w (writes_done w) with
   | None => Ok tt
   | Some e => Throw (IOerror what e)
   end, after_write path data w).
Proof.
  unfold scoped_stream, try_catch, stream_write; simpl.
  rewrite <- (scoped_after_write path data w).
  unfold after_write; simpl.
  destruct (write_reply w (writes_done w)) as [e|]; reflexivity.
Qed.

Lemma after_write_trace path data w :
  trace (after_write path data w) =
  trace w ++ [EvWrite path data (write_reply w (writes_done w))].
Proof. unfold after_write. destruct (write_reply w (writes_done w)); reflexivity. Qed.

Lemma after_write_writes_done path data w :
  writes_done (after_write path data w) = S (writes_done w).
Proof. unfold after_write. destruct (write_reply w (writes_done w)); reflexivity. Qed.

Lemma after_write_write_reply path data w :
  write_reply (after_write path data w) = write_reply w.
Proof. unfold after_write. destruct (write_reply w (writes_done w)); reflexivity. Qed.


(** ** Ticks in 64 bits *)

Lemma to_int64_fits (z : Z) : fits_int64 z -> to_int64 z = z.
Proof.
  unfold fits_int64, to_int64. intro H.
  rewrite Z.mod_small by lia. lia.
Qed.

Lemma to_int64_add_l (a b : Z) : to_int64 (to_int64 a + b) = to_int64 (a + b).
Proof.
  unfold to_int64.
  replace ((a + 9223372036854775808) mod 18446744073709551616
           - 9223372036854775808 + b + 9223372036854775808)
    with ((a + 9223372036854775808) mod 18446744073709551616 + b) by lia.
  rewrite Zplus_mod_idemp_l. f_equal. f_equal. lia.
Qed.

(** The deadline is the sum of [deadline_sum], brought into 64 bits; it is
    that sum itself whenever the sum fits. *)
Lemma deadline_eq (d : FanDriver.obj) (w : World) :
  TpFanDriver.deadline d w = to_int64 (deadline_sum d w).
Proof. unfold TpFanDriver.deadline, deadline_sum, seconds. apply to_int64_add_l. Qed.

Lemma deadline_fits (d : FanDriver.obj) (w : World) :
  fits_int64 (deadline_sum d w) -> TpFanDriver.deadline d w = deadline_sum d w.
Proof. intro H. rewrite deadline_eq. apply to_int64_fits, H. Qed.

(** ** The bounded loops never run out of fuel *)

Lemma getline_progress (f : istream) (buf : bytes) (n : nat) :
  failbit (fst (getline f buf n)) = false ->
  (length (unread (fst (getline f buf n))) < length (unread f))%nat.
Proof.
  unfold getline. destruct (good f); [|discriminate].
  destruct (getline_chars (n - 1) (unread f)) as [[[stored rest] e] fl].
  cbn [fst failbit unread]. intro H.
  apply orb_false_iff in H as [_ H]. apply Nat.eqb_neq in H. lia.
Qed.

(** The constructor of TpFanDriver gives its loop one round more than the
    file has characters; no larger amount changes the result. *)
Lemma read_status_fuel (fuel1 : nat) :
  forall (fuel2 : nat) (f : istream) (line initial : bytes) (ctrl : bool),
    (length (unread f) < fuel1)%nat ->
    (length (unread f) < fuel2)%nat ->
    status_scan fuel1 f line initial ctrl =
    status_scan fuel2 f line initial ctrl.
Proof.
  induction fuel1 as [|fuel1 IH]; intros fuel2 f line initial ctrl H1 H2; [lia|].
  destruct fuel2 as [|fuel2]; [lia|].
  cbn [status_scan].
  pose proof (getline_progress f line 255) as P.
  destruct (getline f line 255) as [f' line']. cbn [fst] in P.
  destruct (failbit f'); [reflexivity|]. specialize (P eq_refl).
  destruct (found (rfind (lit "level:") line')); [apply IH; lia|].
  destruct (found (rfind (lit "commands:") line')
            && found (rfind (lit "level <level>") line')); apply IH; lia.
Qed.

Lemma skip_ws_length (l : bytes) : (length (skip_ws l) <= length l)%nat.
Proof.
  induction l as [|c l IH]; [reflexivity|].
  cbn [skip_ws]. destruct (isspace c); cbn [length]; lia.
Qed.

Lemma take_digits_length (l : bytes) :
  forall acc, length l = (snd (fst (take_digits acc l)) + length (snd (take_digits acc l)))%nat.
Proof.
  induction l as [|c l IH]; intro acc; [reflexivity|].
  cbn [take_digits]. destruct (isdigit c); [|reflexivity].
  specialize (IH (acc * 10 + digit_value c)).
  destruct (take_digits (acc * 10 + digit_value c) l) as [[v n] rest].
  cbn [fst snd length] in *. lia.
Qed.

Lemma extract_int_progress (f : istream) :
  eofbit (fst (extract_int f)) || failbit (fst (extract_int f)) = false ->
  (length (unread (fst (extract_int f))) < length (unread f))%nat.
Proof.
  unfold extract_int. destruct (good f).
  2:{ cbn. rewrite orb_true_r. discriminate. }
  pose proof (skip_ws_length (unread f)) as L.
  destruct (skip_ws (unread f)) as [|c l']; [discriminate|].
  destruct (Ascii.eqb c "-"); [|destruct (Ascii.eqb c "+")];
    match goal with
    | |- context [take_digits 0 ?l1] =>
        pose proof (take_digits_length l1 0) as TL;
        destruct (take_digits 0 l1) as [[v n] rest]
    end;
    cbn [fst snd eofbit failbit unread length] in *; intro H;
    apply orb_false_iff in H as [_ H]; apply orb_false_iff in H as [H _];
    apply Nat.eqb_neq in H; lia.
Qed.

(** The constructor of TpSensorDriver gives its counting loop one round
    more than there are characters left; no larger amount changes the
    count. *)
Lemma count_temps_fuel (fuel1 : nat) :
  forall (fuel2 : nat) (f : istream) (count : nat),
    (length (unread f) < fuel1)%nat ->
    (length (unread f) < fuel2)%nat ->
    count_numbers fuel1 f count =
    count_numbers fuel2 f count.
Proof.
  induction fuel1 as [|fuel1 IH]; intros fuel2 f count H1 H2; [lia|].
  destruct fuel2 as [|fuel2]; [lia|].
  cbn [count_numbers].
  destruct (eofbit f || failbit f); [reflexivity|].
  pose proof (extract_int_progress f) as P.
  destruct (extract_int f) as [f' tmp]. cbn [fst] in P.
  destruct (eofbit f' || failbit f') eqn:E.
  - destruct fuel1, fuel2; cbn [count_numbers]; rewrite ?E;
      reflexivity.
  - specialize (P eq_refl). apply IH; lia.
Qed.

(** ** The constructors' loops and their outcome without the world *)

Lemma reading_eq (A : Type) (err : option Z) (r : istream * A) (w : World) :
  reading err r w =
  if meets_error err (fst r)
  then (Throw ios_base_failure, after_reading err (@Throw (istream * A) ios_base_failure) w)
  else (Ok r, w).
Proof.
  unfold reading, meets_error, after_reading.
  destruct err as [e|]; [|reflexivity].
  destruct (eofbit (fst r)); reflexivity.
Qed.

Lemma reading_None (A : Type) (r : istream * A) : reading None r = ret r.
Proof. reflexivity. Qed.

(** The loop of TpFanDriver's constructor changes nothing in the world
    but [errno], and that only when a read fails. *)
Lemma read_status_eq (err : option Z) (fuel : nat) :
  forall (f : istream) (line initial : bytes) (ctrl : bool) (w : World),
    TpFanDriver.read_status err fuel f line initial ctrl w =
    (status_scan_io err fuel f line initial ctrl,
     after_reading err (status_scan_io err fuel f line initial ctrl) w).
Proof.
  induction fuel as [|fuel IH]; intros f line initial ctrl w;
    cbn [TpFanDriver.read_status status_scan_io].
  - destruct err; reflexivity.
  - unfold bind at 1. rewrite reading_eq.
    destruct (getline f line 255) as [f' line']. cbn [fst].
    destruct (meets_error err f').
    + reflexivity.
    + destruct (failbit f'); [destruct err; reflexivity|].
      destruct (found (rfind (lit "level:") line')); [apply IH|].
      destruct (found (rfind (lit "commands:") line')
                && found (rfind (lit "level <level>") line')); apply IH.
Qed.

(** On a file that is read without error, rounds that suffice give the
    result of [status_scan]. *)
Lemma status_scan_io_None (fuel : nat) :
  forall (f : istream) (line initial : bytes) (ctrl : bool),
    (length (unread f) < fuel)%nat ->
    status_scan_io None fuel f line initial ctrl =
    Ok (status_scan fuel f line initial ctrl).
Proof.
  induction fuel as [|fuel IH]; intros f line initial ctrl H; [lia|].
  cbn [status_scan_io status_scan meets_error].
  pose proof (getline_progress f line 255) as P.
  destruct (getline f line 255) as [f' line']. cbn [fst] in P.
  destruct (failbit f'); [reflexivity|].
  specialize (P eq_refl).
  destruct (found (rfind (lit "level:") line')); [apply IH; lia|].
  destruct (found (rfind (lit "commands:") line')
            && found (rfind (lit "level <level>") line')); apply IH; lia.
Qed.

Lemma count_temps_eq (err : option Z) (fuel : nat) :
  forall (f : istream) (count : nat) (w : World),
    TpSensorDriver.count_temps err fuel f count w =
    (count_numbers_io err fuel f count,
     after_reading err (count_numbers_io err fuel f count) w).
Proof.
  induction fuel as [|fuel IH]; intros f count w;
    cbn [TpSensorDriver.count_temps count_numbers_io].
  - destruct err; reflexivity.
  - destruct (eofbit f || failbit f); [destruct err; reflexivity|].
    unfold bind at 1. rewrite reading_eq.
    destruct (extract_int f) as [f' tmp]. cbn [fst].
    destruct (meets_error err f'); [reflexivity|apply IH].
Qed.

Lemma count_numbers_io_None (fuel : nat) :
  forall (f : istream) (count : nat),
    (S (length (unread f)) < fuel)%nat ->
    count_numbers_io None fuel f count = Ok (count_numbers fuel f count).
Proof.
  induction fuel as [|fuel IH]; intros f count H; [lia|].
  cbn [count_numbers_io count_numbers meets_error].
  destruct (eofbit f || failbit f) eqn:B; [reflexivity|].
  pose proof (extract_int_progress f) as P.
  destruct (extract_int f) as [f' tmp]. cbn [fst] in P.
  destruct (eofbit f' || failbit f') eqn:B'.
  - destruct fuel as [|fuel]; [lia|].
    cbn [count_numbers_io count_numbers]. rewrite B'. reflexivity.
  - apply IH. specialize (P eq_refl). lia.
Qed.

(** The only exception the loops raise is the stream's own. *)
Lemma status_scan_io_Throw (err : option Z) (fuel : nat) :
  forall (f : istream) (line initial : bytes) (ctrl : bool) (x : exn),
    status_scan_io err fuel f line initial ctrl = Throw x -> x = ios_base_failure.
Proof.
  induction fuel as [|fuel IH]; intros f line initial ctrl x;
    cbn [status_scan_io]; [discriminate|].
  destruct (getline f line 255) as [f' line'].
  destruct (meets_error err f'); [intro H; injection H as <-; reflexivity|].
  destruct (failbit f'); [discriminate|].
  destruct (found (rfind (lit "level:") line')); [apply IH|].
  destruct (found (rfind (lit "commands:") line')
            && found (rfind (lit "level <level>") line')); apply IH.
Qed.

Lemma count_numbers_io_Throw (err : option Z) (fuel : nat) :
  forall (f : istream) (count : nat) (x : exn),
    count_numbers_io err fuel f count = Throw x -> x = ios_base_failure.
Proof.
  induction fuel as [|fuel IH]; intros f count x;
    cbn [count_numbers_io]; [discriminate|].
  destruct (eofbit f || failbit f); [discriminate|].
  destruct (extract_int f) as [f' tmp].
  destruct (meets_error err f'); [intro H; injection H as <-; reflexivity|].
  apply IH.
Qed.

(** ** The shared write primitive (FanDriver::set_speed) *)

(** C5, the claim as written, at a concrete input: a write that fails with
    the OS error "permission denied" (EACCES) is not raised as a SystemError;
    it leaves [FanDriver::set_speed] as an IOerror with code 13. *)
Lemma set_speed_permission_denied_is_IOerror :
  write_reply (failing_world EACCES) (writes_done (failing_world EACCES)) = Some EACCES /\
  fst (FanDriver.set_speed (lit "level 7")
         (FanDriver.new proc_fan 120, failing_world EACCES))
  = Throw (IOerror (MSG_FAN_CTRL (lit "level 7") proc_fan) 13).
Proof. split; reflexivity. Qed.

(** C5, amended: a failed write whose OS error is EPERM ("operation not
    permitted") leaves [FanDriver::set_speed] as a SystemError whose message
    names the path; a failed write with any other OS error, EACCES
    ("permission denied") among them, leaves it as an IOerror that carries
    the raw OS error code. *)
Theorem set_speed_classifies_write_failure
        (level : bytes) (d : FanDriver.obj) (w : World) (e : Z) :
  write_reply w (writes_done w) = Some e ->
  fst (FanDriver.set_speed level (d, w)) =
  (if e =? EPERM
   then Throw (SystemError (MSG_FAN_EPERM (FanDriver.path_ d)))
   else Throw (IOerror (MSG_FAN_CTRL level (FanDriver.path_ d)) e)).
Proof.
  intro H. rewrite FanDriver_set_speed_eq, H. simpl.
  unfold classify. destruct (e =? EPERM); reflexivity.
Qed.

Lemma set_speed_classifies_write_failure_witness :
  fst (FanDriver.set_speed (lit "level 7")
         (FanDriver.new proc_fan 120, failing_world EPERM))
  = Throw (SystemError (MSG_FAN_EPERM proc_fan)).
Proof.
  exact (set_speed_classifies_write_failure (lit "level 7")
           (FanDriver.new proc_fan 120) (failing_world EPERM) EPERM eq_refl).
Defined.

(** ** HwmonFanDriver::set_speed *)

Lemma HwmonFanDriver_init_eq (d : FanDriver.obj) (w : World) :
  HwmonFanDriver.init (d, w) =
  (match write_reply w (writes_done w) with
   | None => Ok tt
   | Some e => Throw (IOerror (MSG_FAN_INIT (FanDriver.path_ d)) e)
   end, (d, after_write (FanDriver.path_ d ++ "_enable")%string (lit "1") w)).
Proof.
  unfold HwmonFanDriver.init, bind, this, gets, lift; simpl.
  rewrite guarded_write_eq.
  destruct (write_reply w (writes_done w)); reflexivity.
Qed.

(** [HwmonFanDriver::set_speed] in one equation: the worlds [w1], [w2]
    and [w3] are those after the first write, after init() and after the
    retried write. *)
Lemma HwmonFanDriver_set_speed_eq (level : Level) (d : FanDriver.obj) (w : World) :
  let p := FanDriver.path_ d in
  let text := to_string (num level) in
  HwmonFanDriver.set_speed level (d, w) =
  let w1 := after_write p text w in
  match write_reply w (writes_done w) with
  | None => (Ok tt, (d, w1))
  | Some e =>
      if e =? EINVAL then
        let w2 := after_write (p ++ "_enable")%string (lit "1") w1 in
        match write_reply w1 (writes_done w1) with
        | Some e2 => (Throw (IOerror (MSG_FAN_INIT p) e2), (d, w2))
        | None =>
            let w3 := after_write p text w2 in
            match write_reply w2 (writes_done w2) with
            | Some e3 => (Throw (classify p text e3), (d, w3))
            | None => (Ok tt, (d, emit (EvLog TF_DBG HwmonFanDriver.woke_up) w3))
            end
        end
      else (Throw (classify p text e), (d, w1))
  end.
Proof.
  intros p text. cbv zeta.
  unfold HwmonFanDriver.set_speed, try_catch.
  rewrite FanDriver_set_speed_eq. fold p text.
  destruct (write_reply w (writes_done w)) as [e|] eqn:H; [|reflexivity].
  destruct (e =? EINVAL) eqn:E.
  - apply Z.eqb_eq in E. subst e.
    change (classify p text EINVAL) with (IOerror (MSG_FAN_CTRL text p) EINVAL).
    cbv beta iota. change (EINVAL =? EINVAL) with true. cbv iota.
    unfold bind at 1. rewrite HwmonFanDriver_init_eq. fold p.
    destruct (write_reply (after_write p text w)
                (writes_done (after_write p text w))) as [e2|]; [reflexivity|].
    unfold bind at 1. rewrite FanDriver_set_speed_eq. fold p.
    match goal with
    | |- context [match write_reply ?a ?b with _ => _ end] =>
        destruct (write_reply a b) as [e3|]; reflexivity
    end.
  - unfold classify. destruct (e =? EPERM); [reflexivity|].
    rewrite E. reflexivity.
Qed.

(** C2, the claim as written, at a concrete input: a write that fails with
    an OS error other than "invalid argument", here EPERM, does not leave
    [HwmonFanDriver::set_speed] as an IOerror: it propagates as the
    SystemError the write primitive raised (and is not retried). *)
Lemma hwmon_set_speed_other_error_not_IOerror :
  write_reply (failing_world EPERM) (writes_done (failing_world EPERM)) = Some EPERM /\
  EPERM <> EINVAL /\
  fst (HwmonFanDriver.set_speed level7
         (FanDriver.new sys_pwm 0, failing_world EPERM))
  = Throw (SystemError (MSG_FAN_EPERM sys_pwm)) /\
  trace (snd (snd (HwmonFanDriver.set_speed level7
         (FanDriver.new sys_pwm 0, failing_world EPERM))))
  = [EvWrite sys_pwm (lit "255") (Some EPERM)].
Proof. repeat split; try reflexivity. discriminate. Qed.

(** C2, amended: when the write of level.numeric fails with EINVAL
    ("invalid argument"), [HwmonFanDriver::set_speed] calls init() exactly
    once; if init() fails, its IOerror propagates and nothing is retried; if
    it succeeds, the write is retried exactly once, a success is logged as a
    debug message, and a failure of the retry propagates, classified by the
    write primitive, with no further attempt.  A first failure with any other
    OS error propagates as the write primitive classified it (a SystemError
    for EPERM, an IOerror with the code otherwise), with no re-initialization
    and no retry. *)
Theorem hwmon_set_speed_reinit_and_retry
        (level : Level) (d : FanDriver.obj) (w : World) (e : Z) :
  write_reply w (writes_done w) = Some e ->
  let p := FanDriver.path_ d in
  let text := to_string (num level) in
  let n := writes_done w in
  let out := HwmonFanDriver.set_speed level (d, w) in
  if e =? EINVAL then
    match write_reply w (S n) with
    | Some e2 =>
        fst out = Throw (IOerror (MSG_FAN_INIT p) e2) /\
        trace (snd (snd out)) =
          trace w ++ [EvWrite p text (Some e);
                      EvWrite (p ++ "_enable")%string (lit "1") (Some e2)]
    | None =>
        match write_reply w (S (S n)) with
        | Some e3 =>
            fst out = Throw (classify p text e3) /\
            trace (snd (snd out)) =
              trace w ++ [EvWrite p text (Some e);
                          EvWrite (p ++ "_enable")%string (lit "1") None;
                          EvWrite p text (Some e3)]
        | None =>
            fst out = Ok tt /\
            trace (snd (snd out)) =
              trace w ++ [EvWrite p text (Some e);
                          EvWrite (p ++ "_enable")%string (lit "1") None;
                          EvWrite p text None;
                          EvLog TF_DBG HwmonFanDriver.woke_up]
        end
    end
  else
    fst out = Throw (classify p text e) /\
    trace (snd (snd out)) = trace w ++ [EvWrite p text (Some e)].
Proof.
  intros H p text n out. subst out.
  rewrite HwmonFanDriver_set_speed_eq. cbv zeta. fold p text. rewrite H.
  rewrite !after_write_write_reply, !after_write_writes_done. fold n.
  destruct (e =? EINVAL) eqn:E.
  - destruct (write_reply w (S n)) as [e2|] eqn:E2.
    + cbn [fst snd]. split; [reflexivity|].
      rewrite !after_write_trace, after_write_write_reply, after_write_writes_done.
      rewrite H. fold n. rewrite E2, <- app_assoc. reflexivity.
    + destruct (write_reply w (S (S n))) as [e3|] eqn:E3;
        cbn [fst snd emit trace]; (split; [reflexivity|]);
        rewrite !after_write_trace, !after_write_write_reply, !after_write_writes_done;
        rewrite H; fold n; rewrite E2, E3, <- !app_assoc; reflexivity.
  - cbn [fst snd]. split; [reflexivity|].
    rewrite after_write_trace, H. reflexivity.
Qed.

Lemma hwmon_set_speed_reinit_and_retry_witness :
  fst (HwmonFanDriver.set_speed level7
         (FanDriver.new sys_pwm 0, scripted_world [Some EINVAL] 0)) = Ok tt /\
  trace (snd (snd (HwmonFanDriver.set_speed level7
         (FanDriver.new sys_pwm 0, scripted_world [Some EINVAL] 0)))) =
  [EvWrite sys_pwm (lit "255") (Some EINVAL);
   EvWrite (sys_pwm ++ "_enable")%string (lit "1") None;
   EvWrite sys_pwm (lit "255") None;
   EvLog TF_DBG HwmonFanDriver.woke_up].
Proof.
  exact (hwmon_set_speed_reinit_and_retry level7 (FanDriver.new sys_pwm 0)
           (scripted_world [Some EINVAL] 0) EINVAL eq_refl).
Defined.

(** ** TpFanDriver *)

Lemma TpFanDriver_set_speed_eq (level : Level) (d : FanDriver.obj) (w : World) :
  TpFanDriver.set_speed level (d, w) =
  let w1 := after_write (FanDriver.path_ d) (str level) w in
  match write_reply w (writes_done w) with
  | None =>
      (Ok tt,
       (with_watchdog_state (FanDriver.watchdog_ d) (clock w1 (clock_reads w1)) d,
        count_clock w1))
  | Some e => (Throw (classify (FanDriver.path_ d) (str level) e), (d, w1))
  end.
Proof.
  unfold TpFanDriver.set_speed. unfold bind at 1.
  rewrite FanDriver_set_speed_eq.
  destruct (write_reply w (writes_done w)); reflexivity.
Qed.

Lemma TpFanDriver_ping_eq (level : Level) (d : FanDriver.obj) (w : World) :
  TpFanDriver.ping_watchdog_and_depulse level (d, w) =
  if Qltb 0 (FanDriver.depulse_ d) then
    match write_reply w (writes_done w) with
    | None =>
        TpFanDriver.set_speed level
          (d, emit (EvSleep (FanDriver.depulse_ d))
                (after_write (FanDriver.path_ d) (lit "level disengaged") w))
    | Some e =>
        (Throw (classify (FanDriver.path_ d) (lit "level disengaged") e),
         (d, after_write (FanDriver.path_ d) (lit "level disengaged") w))
    end
  else if TpFanDriver.deadline d w >=? clock w (clock_reads w)
       then TpFanDriver.set_speed level (d, count_clock w)
       else (Ok tt, (d, count_clock w)).
Proof.
  unfold TpFanDriver.ping_watchdog_and_depulse. unfold bind at 1, this, gets.
  cbn [fst snd].
  destruct (Qltb 0 (FanDriver.depulse_ d)).
  - unfold bind at 1. rewrite FanDriver_set_speed_eq.
    destruct (write_reply w (writes_done w)); reflexivity.
  - unfold bind, lift, gets, system_clock_now. cbn [fst snd].
    destruct (TpFanDriver.deadline d w >=? clock w (clock_reads w)); reflexivity.
Qed.

Lemma TpFanDriver_init_eq (d : FanDriver.obj) (w : World) :
  TpFanDriver.init (d, w) =
  (match write_reply w (writes_done w) with
   | None => Ok tt
   | Some e => Throw (IOerror (MSG_FAN_INIT (FanDriver.path_ d)) e)
   end,
   (d, after_write (FanDriver.path_ d)
         (lit "watchdog " ++ to_string (FanDriver.watchdog_ d)) w)).
Proof.
  unfold TpFanDriver.init, bind, this, gets, lift; simpl.
  rewrite guarded_write_eq.
  destruct (write_reply w (writes_done w)); reflexivity.
Qed.

Lemma TpFanDriver_destroy_eq (d : FanDriver.obj) (w : World) :
  TpFanDriver.destroy (d, w) =
  (match write_reply w (writes_done w) with
   | None => Ok tt
   | Some e => Throw (IOerror (MSG_FAN_RESET (FanDriver.path_ d)) e)
   end,
   (d, after_write (FanDriver.path_ d)
         (lit "level " ++ FanDriver.initial_state_ d) w)).
Proof.
  unfold TpFanDriver.destroy, bind, this, gets, lift; simpl.
  rewrite guarded_write_eq.
  destruct (write_reply w (writes_done w)); reflexivity.
Qed.

(** Neither [set_speed] nor [ping_watchdog_and_depulse] touches the path or
    the remembered initial state, whether they succeed or fail. *)
Lemma TpFanDriver_set_speed_keeps (level : Level) (d : FanDriver.obj) (w : World) :
  let d' := fst (snd (TpFanDriver.set_speed level (d, w))) in
  FanDriver.path_ d' = FanDriver.path_ d /\
  FanDriver.initial_state_ d' = FanDriver.initial_state_ d /\
  FanDriver.watchdog_ d' = FanDriver.watchdog_ d /\
  FanDriver.depulse_ d' = FanDriver.depulse_ d.
Proof.
  cbv zeta. rewrite TpFanDriver_set_speed_eq. cbv zeta.
  destruct (write_reply w (writes_done w)); repeat split.
Qed.

Lemma TpFanDriver_ping_keeps (level : Level) (d : FanDriver.obj) (w : World) :
  let d' := fst (snd (TpFanDriver.ping_watchdog_and_depulse level (d, w))) in
  FanDriver.path_ d' = FanDriver.path_ d /\
  FanDriver.initial_state_ d' = FanDriver.initial_state_ d /\
  FanDriver.watchdog_ d' = FanDriver.watchdog_ d /\
  FanDriver.depulse_ d' = FanDriver.depulse_ d.
Proof.
  cbv zeta. rewrite TpFanDriver_ping_eq.
  destruct (Qltb 0 (FanDriver.depulse_ d)).
  - destruct (write_reply w (writes_done w)); [repeat split|].
    apply TpFanDriver_set_speed_keeps.
  - destruct (TpFanDriver.deadline d w >=? clock w (clock_reads w));
      [apply TpFanDriver_set_speed_keeps | repeat split].
Qed.

(** X21: whatever state the object and the world are in, the destructor of
    the vendor-ACPI fan binding makes exactly one write attempt, of "level "
    followed by the bytes of [initial_state_], to the control path; it ends
    normally when that write succeeds and raises an IOerror with the OS error
    code when it fails.  The same holds right after a [set_speed] or a
    [ping_watchdog_and_depulse] call, failed or not: neither changes the path
    or [initial_state_].  Which bytes the constructor put into
    [initial_state_] is not said here. *)
Theorem tp_destructor_restores_initial_level
        (d : FanDriver.obj) (w : World) (level : Level) :
  let restore := fun (w1 : World) =>
    EvWrite (FanDriver.path_ d) (lit "level " ++ FanDriver.initial_state_ d)
            (write_reply w1 (writes_done w1)) in
  let verdict := fun (w1 : World) =>
    match write_reply w1 (writes_done w1) with
    | None => Ok tt
    | Some e => Throw (IOerror (MSG_FAN_RESET (FanDriver.path_ d)) e)
    end in
  let after_set := snd (TpFanDriver.set_speed level (d, w)) in
  let after_ping := snd (TpFanDriver.ping_watchdog_and_depulse level (d, w)) in
  (trace (snd (snd (TpFanDriver.destroy (d, w)))) = trace w ++ [restore w] /\
   writes_done (snd (snd (TpFanDriver.destroy (d, w)))) = S (writes_done w) /\
   fst (TpFanDriver.destroy (d, w)) = verdict w) /\
  (trace (snd (snd (TpFanDriver.destroy after_set)))
     = trace (snd after_set) ++ [restore (snd after_set)] /\
   writes_done (snd (snd (TpFanDriver.destroy after_set)))
     = S (writes_done (snd after_set)) /\
   fst (TpFanDriver.destroy after_set) = verdict (snd after_set)) /\
  (trace (snd (snd (TpFanDriver.destroy after_ping)))
     = trace (snd after_ping) ++ [restore (snd after_ping)] /\
   writes_done (snd (snd (TpFanDriver.destroy after_ping)))
     = S (writes_done (snd after_ping)) /\
   fst (TpFanDriver.destroy after_ping) = verdict (snd after_ping)).
Proof.
  assert (G : forall d1 w1,
             FanDriver.path_ d1 = FanDriver.path_ d ->
             FanDriver.initial_state_ d1 = FanDriver.initial_state_ d ->
             trace (snd (snd (TpFanDriver.destroy (d1, w1)))) =
               trace w1 ++ [EvWrite (FanDriver.path_ d)
                              (lit "level " ++ FanDriver.initial_state_ d)
                              (write_reply w1 (writes_done w1))] /\
             writes_done (snd (snd (TpFanDriver.destroy (d1, w1)))) = S (writes_done w1) /\
             fst (TpFanDriver.destroy (d1, w1)) =
               match write_reply w1 (writes_done w1) with
               | None => Ok tt
               | Some e => Throw (IOerror (MSG_FAN_RESET (FanDriver.path_ d)) e)
               end).
  { intros d1 w1 Hp Hi. rewrite TpFanDriver_destroy_eq. cbn [fst snd].
    rewrite after_write_trace, after_write_writes_done, Hp, Hi. auto. }
  cbv zeta. split; [|split].
  - apply G; reflexivity.
  - destruct (TpFanDriver_set_speed_keeps level d w) as (Hp & Hi & _).
    destruct (TpFanDriver.set_speed level (d, w)) as [r [d1 w1]].
    apply G; assumption.
  - destruct (TpFanDriver_ping_keeps level d w) as (Hp & Hi & _).
    destruct (TpFanDriver.ping_watchdog_and_depulse level (d, w)) as [r [d1 w1]].
    apply G; assumption.
Qed.

(** The events of the watchdog path. *)
Lemma TpFanDriver_ping_trace_watchdog (level : Level) (d : FanDriver.obj) (w : World) :
  Qltb 0 (FanDriver.depulse_ d) = false ->
  trace (snd (snd (TpFanDriver.ping_watchdog_and_depulse level (d, w)))) =
  trace w ++
  (if TpFanDriver.deadline d w >=? clock w (clock_reads w)
   then [EvWrite (FanDriver.path_ d) (str level) (write_reply w (writes_done w))]
   else []).
Proof.
  intro H. rewrite TpFanDriver_ping_eq, H.
  destruct (TpFanDriver.deadline d w >=? clock w (clock_reads w)).
  - rewrite TpFanDriver_set_speed_eq. cbv zeta.
    destruct w as [fs wr k ck cr er os tr ts st]. unfold after_write. cbn.
    destruct (wr k); reflexivity.
  - cbn. rewrite app_nil_r. reflexivity.
Qed.

(** C3, the claim as written, at a concrete input: with no depulse
    interval, a last write at tick 0, the default 120 s timeout and a 5 s
    polling period, the deadline is tick 125e9.  When the clock shows exactly
    that tick the deadline is not in the future any more, and
    [ping_watchdog_and_depulse] still re-issues the level. *)
Lemma ping_at_the_deadline_still_writes :
  let d := FanDriver.new proc_fan 120 in
  let w := scripted_world [] 125000000000 in
  (FanDriver.depulse_ d == 0)%Q /\
  TpFanDriver.deadline d w = 125000000000 /\
  ~ (TpFanDriver.deadline d w > clock w (clock_reads w)) /\
  trace (snd (snd (TpFanDriver.ping_watchdog_and_depulse level7 (d, w))))
  = [EvWrite proc_fan (lit "level 7") None].
Proof.
  cbv zeta. split; [reflexivity|]. split; [reflexivity|].
  split; [|reflexivity]. vm_compute. intro H. discriminate H.
Qed.

(** C3, amended: every call of [ping_watchdog_and_depulse] takes one of two
    paths.  With a depulse interval greater than zero it writes "level
    disengaged"; if that write fails the call ends with its error; otherwise
    it blocks for the depulse duration and performs a normal set_speed(level).
    Nothing this path does depends on the watchdog timeout, the time of the
    last write or the polling period.  With a depulse interval that is not
    greater than zero, and as long as the last successful write plus the
    watchdog timeout plus one polling period, in nanosecond ticks, stays
    within the clock's signed 64-bit count at every step of the sum, "level
    disengaged" is not written, and set_speed(level) is re-issued if and only
    if that sum is not earlier than the clock reading (later than it, or equal
    to it); otherwise nothing is written.  Sums that leave the 64 bits are
    not covered. *)
Theorem ping_watchdog_and_depulse_paths
        (level : Level) (d : FanDriver.obj) (w : World) :
  let p := FanDriver.path_ d in
  let n := writes_done w in
  let out := TpFanDriver.ping_watchdog_and_depulse level (d, w) in
  ((0 < FanDriver.depulse_ d)%Q ->
     trace (snd (snd out)) =
       trace w ++
       EvWrite p (lit "level disengaged") (write_reply w n) ::
       match write_reply w n with
       | None => [EvSleep (FanDriver.depulse_ d);
                  EvWrite p (str level) (write_reply w (S n))]
       | Some _ => []
       end /\
     out =
       match write_reply w n with
       | None =>
           TpFanDriver.set_speed level
             (d, emit (EvSleep (FanDriver.depulse_ d))
                   (after_write p (lit "level disengaged") w))
       | Some e =>
           (Throw (classify p (lit "level disengaged") e),
            (d, after_write p (lit "level disengaged") w))
       end /\
     forall timeout last period : Z,
       let out' := TpFanDriver.ping_watchdog_and_depulse level
                     (with_watchdog_state timeout last d, set_sleeptime period w) in
       fst out' = fst out /\
       trace (snd (snd out')) = trace (snd (snd out)) /\
       clock_reads (snd (snd out')) = clock_reads (snd (snd out))) /\
  (~ (0 < FanDriver.depulse_ d)%Q ->
   forall due period : Z,
     due = FanDriver.last_watchdog_ping_ d + FanDriver.watchdog_ d * 1000000000 ->
     period = sleeptime w * 1000000000 ->
     -9223372036854775808 <= due <= 9223372036854775807 ->
     -9223372036854775808 <= period <= 9223372036854775807 ->
     -9223372036854775808 <= due + period <= 9223372036854775807 ->
     out =
       (if due + period >=? clock w (clock_reads w)
        then TpFanDriver.set_speed level (d, count_clock w)
        else (Ok tt, (d, count_clock w))) /\
     trace (snd (snd out)) =
       trace w ++
       (if due + period >=? clock w (clock_reads w)
        then [EvWrite p (str level) (write_reply w n)]
        else [])).
Proof.
  intros p n out. subst out. split; intro H.
  - apply Qltb_lt in H. split; [|split].
    + rewrite TpFanDriver_ping_eq, H. fold p n.
      destruct (write_reply w n) as [e|] eqn:E.
      * cbn [fst snd]. rewrite after_write_trace. fold n. rewrite E. reflexivity.
      * rewrite TpFanDriver_set_speed_eq. cbv zeta.
        destruct w as [fs wr k ck cr er os tr ts st].
        unfold after_write in *. cbn in *. subst n. rewrite E. cbn.
        destruct (wr (S k)); cbn; rewrite <- !app_assoc; reflexivity.
    + rewrite TpFanDriver_ping_eq, H. reflexivity.
    + intros timeout last period. cbv zeta.
      rewrite !TpFanDriver_ping_eq.
      change (FanDriver.depulse_ (with_watchdog_state timeout last d))
        with (FanDriver.depulse_ d).
      rewrite H.
      destruct w as [fs wr k ck cr er os tr ts st].
      destruct d as [pa wd dp ini lp].
      unfold set_sleeptime, with_watchdog_state, after_write. cbn.
      destruct (wr k) as [e|]; cbn; [repeat split|].
      rewrite !TpFanDriver_set_speed_eq. unfold after_write. cbn.
      destruct (wr (S k)); cbn; repeat split.
  - intros due period Ed Ep Fd Fp Fs. apply Qltb_nlt in H.
    assert (E : TpFanDriver.deadline d w = due + period).
    { rewrite deadline_fits; unfold deadline_sum, fits_int64; lia. }
    rewrite <- E. split.
    + rewrite TpFanDriver_ping_eq, H. reflexivity.
    + apply TpFanDriver_ping_trace_watchdog. exact H.
Qed.

Lemma ping_watchdog_and_depulse_paths_witness :
  trace (snd (snd (TpFanDriver.ping_watchdog_and_depulse level7
     (FanDriver.mk proc_fan 120 (1 # 2) (lit "auto") 0, scripted_world [] 7))))
  = [EvWrite proc_fan (lit "level disengaged") None;
     EvSleep (1 # 2);
     EvWrite proc_fan (lit "level 7") None] /\
  trace (snd (snd (TpFanDriver.ping_watchdog_and_depulse level7
     (FanDriver.mk proc_fan 120 0 (lit "auto") 0, scripted_world [] 7))))
  = [EvWrite proc_fan (lit "level 7") None].
Proof.
  split.
  - refine (proj1 (proj1 (ping_watchdog_and_depulse_paths level7
       (FanDriver.mk proc_fan 120 (1 # 2) (lit "auto") 0)
       (scripted_world [] 7)) _)).
    reflexivity.
  - refine (proj2 (proj2 (ping_watchdog_and_depulse_paths level7
       (FanDriver.mk proc_fan 120 0 (lit "auto") 0)
       (scripted_world [] 7)) _ 120000000000 5000000000
       eq_refl eq_refl _ _ _)).
    + intro H. discriminate H.
    + lia.
    + lia.
    + lia.
Defined.

(** The constructors in one equation each. *)
Lemma TpFanDriver_new_eq (path : string) (w : World) :
  TpFanDriver.new path w =
  match files w path with
  | Unreadable e | ReadOnly e _ =>
      (Throw (IOerror (MSG_FAN_INIT path) e), set_errno e w)
  | Content data =>
      let r := status_scan (S (length data))
                 (mkIstream data data 0 false false) (repeat NUL 256) [] false in
      if snd r
      then (Ok (FanDriver.mk path 120 0 (fst r) 0), w)
      else (Throw (SystemError MSG_FAN_MODOPTS), w)
  | Failing data e =>
      match status_scan_io (Some e) (S (length data))
              (mkIstream data data 0 false false) (repeat NUL 256) [] false with
      | Ok r =>
          if snd r
          then (Ok (FanDriver.mk path 120 0 (fst r) 0), w)
          else (Throw (SystemError MSG_FAN_MODOPTS), w)
      | Throw _ => (Throw (IOerror (MSG_FAN_INIT path) e), set_errno e w)
      | Undefined => (Undefined, w)
      | OutOfFuel => (OutOfFuel, w)
      end
  end.
Proof.
  unfold TpFanDriver.new, scoped_stream.
  destruct w as [fs wr k ck cr er os tr ts st].
  unfold bind at 1, open_read_write. cbn [files set_open_streams open_streams].
  destruct (fs path) as [e|data|e data|data e]; try reflexivity.
  - unfold try_catch, exceptions_failbit. cbn [failbit unread].
    unfold bind at 1 2. cbn [ret]. rewrite read_status_eq.
    rewrite status_scan_io_None by (cbn [unread]; lia).
    cbn [after_reading]. cbv zeta.
    destruct (snd _); reflexivity.
  - unfold try_catch, exceptions_failbit. cbn [failbit unread].
    unfold bind at 1 2. cbn [ret]. rewrite read_status_eq.
    destruct (status_scan_io (Some e) _ _ _ _ _) as [r|x| |] eqn:S;
      cbn [after_reading]; try reflexivity.
    + destruct (snd r); reflexivity.
    + apply status_scan_io_Throw in S. subst x. reflexivity.
Qed.

Lemma HwmonFanDriver_new_eq (path : string) (w : World) :
  HwmonFanDriver.new path w =
  match files w (path ++ "_enable")%string with
  | Unreadable e => (Throw (IOerror (MSG_FAN_INIT path) e), set_errno e w)
  | Content data | ReadOnly _ data =>
      let r := getline (mkIstream data data 0 false false) (repeat NUL 64) 63 in
      if failbit (fst r)
      then (Throw (IOerror (MSG_FAN_INIT path) (errno w)), w)
      else (Ok (FanDriver.mk path 0 0 (snd r) 0), w)
  | Failing data e =>
      let r := getline (mkIstream data data 0 false false) (repeat NUL 64) 63 in
      if eofbit (fst r)
      then (Throw (IOerror (MSG_FAN_INIT path) e), set_errno e w)
      else if failbit (fst r)
      then (Throw (IOerror (MSG_FAN_INIT path) (errno w)), w)
      else (Ok (FanDriver.mk path 0 0 (snd r) 0), w)
  end.
Proof.
  unfold HwmonFanDriver.new, scoped_stream.
  destruct w as [fs wr k ck cr er os tr ts st].
  unfold bind at 1, open_read. cbn [files set_open_streams open_streams].
  destruct (fs (path ++ "_enable")%string) as [e|data|e data|data e];
    try reflexivity; cbv zeta;
    unfold try_catch, exceptions_failbit; cbn [failbit];
    unfold bind at 1 2; cbn [ret]; rewrite reading_eq;
    destruct (getline _ _ _) as [f' line]; cbn [fst snd meets_error].
  - destruct (failbit f'); reflexivity.
  - destruct (failbit f'); reflexivity.
  - destruct (eofbit f'); [reflexivity|].
    destruct (failbit f'); reflexivity.
Qed.

(** C10: a vendor-ACPI fan binding comes out of its constructor with a
    watchdog timeout of 120 seconds.  On that object init() writes "watchdog
    120" to the control path, and the 120 seconds enter the deadline that
    decides about a watchdog ping as 120 000 000 000 nanosecond ticks: as
    long as no step of the sum leaves the clock's signed 64-bit count, the
    deadline is the time of the last write plus 120 000 000 000 ticks plus the
    polling period (10^9 ticks a second), and the ping re-issues the level
    exactly when that sum is not earlier than the clock reading.  [set_speed]
    and [ping_watchdog_and_depulse] leave the timeout as it is.  A sysfs-hwmon
    fan binding comes out of its constructor with a watchdog timeout of 0. *)
Theorem default_watchdog_timeouts (path : string) (w : World) :
  (forall d w', TpFanDriver.new path w = (Ok d, w') ->
     FanDriver.watchdog_ d = 120 /\
     FanDriver.last_watchdog_ping_ d = 0 /\
     (forall w1,
        trace (snd (snd (TpFanDriver.init (d, w1)))) =
        trace w1 ++ [EvWrite path (lit "watchdog 120")
                       (write_reply w1 (writes_done w1))]) /\
     (forall (level : Level) (last : Z) (w1 : World),
        let d1 := with_watchdog_state (FanDriver.watchdog_ d) last d in
        let period := sleeptime w1 * 1000000000 in
        -9223372036854775808 <= last + 120000000000 <= 9223372036854775807 ->
        -9223372036854775808 <= period <= 9223372036854775807 ->
        -9223372036854775808 <= last + 120000000000 + period
                             <= 9223372036854775807 ->
        TpFanDriver.deadline d1 w1 = last + 120000000000 + period /\
        trace (snd (snd (TpFanDriver.ping_watchdog_and_depulse level (d1, w1)))) =
        trace w1 ++
        (if last + 120000000000 + period >=? clock w1 (clock_reads w1)
         then [EvWrite path (str level) (write_reply w1 (writes_done w1))]
         else [])) /\
     (forall level w1,
        FanDriver.watchdog_ (fst (snd (TpFanDriver.set_speed level (d, w1)))) = 120 /\
        FanDriver.watchdog_
          (fst (snd (TpFanDriver.ping_watchdog_and_depulse level (d, w1)))) = 120)) /\
  (forall d w', HwmonFanDriver.new path w = (Ok d, w') ->
     FanDriver.watchdog_ d = 0).
Proof.
  assert (K : forall (ini : bytes),
             FanDriver.watchdog_ (FanDriver.mk path 120 0 ini 0) = 120 /\
             FanDriver.last_watchdog_ping_ (FanDriver.mk path 120 0 ini 0) = 0 /\
             (forall w1,
                trace (snd (snd (TpFanDriver.init (FanDriver.mk path 120 0 ini 0, w1)))) =
                trace w1 ++ [EvWrite path (lit "watchdog 120")
                               (write_reply w1 (writes_done w1))]) /\
             (forall (level : Level) (last : Z) (w1 : World),
                let d1 := with_watchdog_state 120 last (FanDriver.mk path 120 0 ini 0) in
                let period := sleeptime w1 * 1000000000 in
                -9223372036854775808 <= last + 120000000000
                                     <= 9223372036854775807 ->
                -9223372036854775808 <= period <= 9223372036854775807 ->
                -9223372036854775808 <= last + 120000000000 + period
                                     <= 9223372036854775807 ->
                TpFanDriver.deadline d1 w1 = last + 120000000000 + period /\
                trace (snd (snd (TpFanDriver.ping_watchdog_and_depulse level (d1, w1)))) =
                trace w1 ++
                (if last + 120000000000 + period >=? clock w1 (clock_reads w1)
                 then [EvWrite path (str level) (write_reply w1 (writes_done w1))]
                 else [])) /\
             (forall level w1,
                FanDriver.watchdog_
                  (fst (snd (TpFanDriver.set_speed level
                               (FanDriver.mk path 120 0 ini 0, w1)))) = 120 /\
                FanDriver.watchdog_
                  (fst (snd (TpFanDriver.ping_watchdog_and_depulse level
                               (FanDriver.mk path 120 0 ini 0, w1)))) = 120)).
  { intro ini. split; [reflexivity|]. split; [reflexivity|].
    split; [|split].
    - intro w1. rewrite TpFanDriver_init_eq. cbn [fst snd].
      rewrite after_write_trace. reflexivity.
    - intros level last w1 d1 period F1 F2 F3.
      assert (E : deadline_sum d1 w1 = last + 120000000000 + period)
        by reflexivity.
      assert (F : TpFanDriver.deadline d1 w1 = last + 120000000000 + period).
      { rewrite deadline_fits; [exact E|]. rewrite E. exact F3. }
      rewrite TpFanDriver_ping_trace_watchdog by reflexivity.
      rewrite F. split; reflexivity.
    - intros level w1. split.
      + apply (proj1 (proj2 (proj2 (TpFanDriver_set_speed_keeps level
                 (FanDriver.mk path 120 0 ini 0) w1)))).
      + apply (proj1 (proj2 (proj2 (TpFanDriver_ping_keeps level
                 (FanDriver.mk path 120 0 ini 0) w1)))). }
  split; intros d w' H.
  - rewrite TpFanDriver_new_eq in H.
    destruct (files w path) as [e|data|e data|data e]; try discriminate H.
    + cbv zeta in H. destruct (snd _); [|discriminate H].
      injection H as Hd Hw. subst d. apply K.
    + destruct (status_scan_io _ _ _ _ _ _) as [r|x| |]; try discriminate H.
      destruct (snd r); [|discriminate H].
      injection H as Hd Hw. subst d. apply K.
  - rewrite HwmonFanDriver_new_eq in H.
    destruct (files w _) as [e|data|e data|data e]; try discriminate H;
      cbv zeta in H.
    + destruct (failbit _); [discriminate|].
      injection H as Hd Hw. subst d. reflexivity.
    + destruct (failbit _); [discriminate|].
      injection H as Hd Hw. subst d. reflexivity.
    + destruct (eofbit _); [discriminate|].
      destruct (failbit _); [discriminate|].
      injection H as Hd Hw. subst d. reflexivity.
Qed.

Lemma default_watchdog_timeouts_witness :
  (exists d w',
     TpFanDriver.new proc_fan
       (world_with_file proc_fan (text_of_lines fan_status_lines) 0) = (Ok d, w') /\
     FanDriver.watchdog_ d = 120 /\
     TpFanDriver.deadline (with_watchdog_state (FanDriver.watchdog_ d) 7 d) w'
       = 125000000007) /\
  (exists d w',
     HwmonFanDriver.new sys_pwm
       (world_with_file (sys_pwm ++ "_enable") (lit "2" ++ [LF]) 0) = (Ok d, w') /\
     FanDriver.watchdog_ d = 0).
Proof.
  split.
  - destruct (TpFanDriver.new proc_fan
       (world_with_file proc_fan (text_of_lines fan_status_lines) 0))
      as [[d| | |] w'] eqn:E; try (vm_compute in E; discriminate E).
    exists d, w'. split; [reflexivity|].
    pose proof (proj1 (default_watchdog_timeouts proc_fan _) d w' E)
      as (W & _ & _ & D & _).
    split; [exact W|].
    assert (S5 : sleeptime w' = 5).
    { vm_compute in E. injection E as _ <-. reflexivity. }
    pose proof (D level7 7 w') as D2. cbv zeta in D2. rewrite S5 in D2.
    destruct D2 as [D2 _]; [lia|lia|lia|]. exact D2.
  - destruct (HwmonFanDriver.new sys_pwm
       (world_with_file (sys_pwm ++ "_enable") (lit "2" ++ [LF]) 0))
      as [[d| | |] w'] eqn:E; try (vm_compute in E; discriminate E).
    exists d, w'. split; [reflexivity|].
    exact (proj2 (default_watchdog_timeouts sys_pwm _) d w' E).
Defined.

(** ** SensorDriver::set_correction *)

Lemma SensorDriver_set_correction_eq (c : list Z) (d : SensorDriver.obj) (w : World) :
  SensorDriver.set_correction c (d, w) =
  let what := MSG_CONF_CORRECTION_LEN (SensorDriver.path_ d) (length c)
                (SensorDriver.num_temps_ d) in
  if (SensorDriver.num_temps d <? length c)%nat
  then (Throw (ConfigError what), (d, w))
  else (Ok tt,
        (SensorDriver.mk (SensorDriver.path_ d) (SensorDriver.num_temps_ d) c,
         if (length c <? SensorDriver.num_temps d)%nat
         then emit (EvLog TF_WRN what) w else w)).
Proof.
  unfold SensorDriver.set_correction, bind, this, gets, set_this, modify, throw.
  cbn [fst snd].
  destruct (SensorDriver.num_temps d <? length c)%nat; [reflexivity|].
  destruct (length c <? SensorDriver.num_temps d)%nat; reflexivity.
Qed.

(** C7: on every sensor binding, [set_correction] with a correction vector
    longer than num_temps() raises a ConfigError and leaves the object (its
    correction vector included) and the world (the temperature aggregate
    included) exactly as they were; with a vector shorter than num_temps() it
    ends normally, stores the vector and does nothing else but log one
    warning. *)
Theorem set_correction_checks_length
        (c : list Z) (d : SensorDriver.obj) (t : TpSensorDriver.obj) (w : World) :
  ((SensorDriver.num_temps d < length c)%nat ->
     SensorDriver.set_correction c (d, w) =
     (Throw (ConfigError (MSG_CONF_CORRECTION_LEN (SensorDriver.path_ d)
                            (length c) (SensorDriver.num_temps_ d))),
      (d, w))) /\
  ((length c < SensorDriver.num_temps d)%nat ->
     SensorDriver.set_correction c (d, w) =
     (Ok tt,
      (SensorDriver.mk (SensorDriver.path_ d) (SensorDriver.num_temps_ d) c,
       emit (EvLog TF_WRN (MSG_CONF_CORRECTION_LEN (SensorDriver.path_ d)
                             (length c) (SensorDriver.num_temps_ d))) w))) /\
  ((TpSensorDriver.num_temps t < length c)%nat ->
     TpSensorDriver.set_correction c (t, w) =
     (Throw (ConfigError (MSG_CONF_CORRECTION_LEN
                            (SensorDriver.path_ (TpSensorDriver.base t))
                            (length c) (TpSensorDriver.num_temps t))),
      (t, w))) /\
  ((length c < TpSensorDriver.num_temps t)%nat ->
     TpSensorDriver.set_correction c (t, w) =
     (Ok tt,
      (TpSensorDriver.mk
         (SensorDriver.mk (SensorDriver.path_ (TpSensorDriver.base t))
                          (TpSensorDriver.num_temps t) c)
         (TpSensorDriver.skip_bytes_ t),
       emit (EvLog TF_WRN (MSG_CONF_CORRECTION_LEN
                             (SensorDriver.path_ (TpSensorDriver.base t))
                             (length c) (TpSensorDriver.num_temps t))) w))).
Proof.
  repeat split; intro H.
  - rewrite SensorDriver_set_correction_eq. cbv zeta.
    apply Nat.ltb_lt in H. rewrite H. reflexivity.
  - rewrite SensorDriver_set_correction_eq. cbv zeta.
    assert (H' : (SensorDriver.num_temps d <? length c)%nat = false)
      by (apply Nat.ltb_ge; lia).
    apply Nat.ltb_lt in H. rewrite H', H. reflexivity.
  - unfold TpSensorDriver.set_correction, inherited. cbn [fst snd].
    rewrite SensorDriver_set_correction_eq. cbv zeta.
    unfold TpSensorDriver.num_temps in H.
    apply Nat.ltb_lt in H. rewrite H. destruct t; reflexivity.
  - unfold TpSensorDriver.set_correction, inherited. cbn [fst snd].
    rewrite SensorDriver_set_correction_eq. cbv zeta.
    unfold TpSensorDriver.num_temps in *.
    assert (H' : (SensorDriver.num_temps (TpSensorDriver.base t) <? length c)%nat = false)
      by (apply Nat.ltb_ge; lia).
    apply Nat.ltb_lt in H. rewrite H', H. reflexivity.
Qed.

Lemma set_correction_checks_length_witness :
  SensorDriver.set_correction [1; 2] (SensorDriver.mk sys_temp 1 [0], failing_world 0) =
  (Throw (ConfigError (MSG_CONF_CORRECTION_LEN sys_temp 2 1)),
   (SensorDriver.mk sys_temp 1 [0], failing_world 0)) /\
  SensorDriver.set_correction [] (SensorDriver.mk sys_temp 1 [0], failing_world 0) =
  (Ok tt,
   (SensorDriver.mk sys_temp 1 [],
    emit (EvLog TF_WRN (MSG_CONF_CORRECTION_LEN sys_temp 0 1)) (failing_world 0))) /\
  TpSensorDriver.set_correction [1; 2; 3; 4]
    (TpSensorDriver.mk (SensorDriver.mk proc_thermal 3 [0; 0; 0]) 13, failing_world 0) =
  (Throw (ConfigError (MSG_CONF_CORRECTION_LEN proc_thermal 4 3)),
   (TpSensorDriver.mk (SensorDriver.mk proc_thermal 3 [0; 0; 0]) 13, failing_world 0)) /\
  TpSensorDriver.set_correction [1]
    (TpSensorDriver.mk (SensorDriver.mk proc_thermal 3 [0; 0; 0]) 13, failing_world 0) =
  (Ok tt,
   (TpSensorDriver.mk (SensorDriver.mk proc_thermal 3 [1]) 13,
    emit (EvLog TF_WRN (MSG_CONF_CORRECTION_LEN proc_thermal 1 3)) (failing_world 0))).
Proof.
  pose (d := SensorDriver.mk sys_temp 1 [0]).
  pose (t := TpSensorDriver.mk (SensorDriver.mk proc_thermal 3 [0; 0; 0]) 13).
  split; [|split; [|split]].
  - apply (proj1 (set_correction_checks_length [1; 2] d t (failing_world 0))).
    vm_compute. lia.
  - apply (proj1 (proj2 (set_correction_checks_length [] d t (failing_world 0)))).
    vm_compute. lia.
  - apply (proj1 (proj2 (proj2
      (set_correction_checks_length [1; 2; 3; 4] d t (failing_world 0))))).
    vm_compute. lia.
  - apply (proj2 (proj2 (proj2
      (set_correction_checks_length [1] d t (failing_world 0))))).
    vm_compute. lia.
Defined.

(** ** The reading loop of TpSensorDriver *)

Lemma append_temps_nil (w : World) : append_temps [] w = w.
Proof. destruct w. unfold append_temps, set_temp_state. cbn. rewrite app_nil_r. reflexivity. Qed.

Lemma append_temps_app (l1 l2 : list Z) (w : World) :
  append_temps l2 (append_temps l1 w) = append_temps (l1 ++ l2) w.
Proof.
  destruct w. unfold append_temps, set_temp_state. cbn.
  rewrite app_assoc. reflexivity.
Qed.

Lemma read_values_no_throw (fuel : nat) (corr : list Z) :
  forall (f : istream) (tidx : nat) (e : exn),
    fst (read_values fuel corr f tidx) <> Throw e.
Proof.
  induction fuel as [|fuel IH]; intros f tidx e; cbn [read_values].
  - discriminate.
  - destruct (eofbit f); [discriminate|].
    destruct (extract_int f) as [f' tmp].
    destruct (failbit f'); [apply IH|].
    destruct (nth_error corr tidx) as [c|]; [|discriminate].
    destruct (in_int_range (tmp + c)); [|discriminate].
    specialize (IH f' (S tidx) e).
    destruct (read_values fuel corr f' (S tidx)). exact IH.
Qed.

Lemma read_values_io_None (fuel : nat) (corr : list Z) :
  forall (f : istream) (tidx : nat),
    read_values_io None fuel corr f tidx = read_values fuel corr f tidx.
Proof.
  induction fuel as [|fuel IH]; intros f tidx; cbn [read_values_io read_values];
    [reflexivity|].
  destruct (eofbit f); [reflexivity|].
  destruct (extract_int f) as [f' tmp]. cbn [meets_error].
  destruct (failbit f'); [apply IH|].
  destruct (nth_error corr tidx) as [c|]; [|reflexivity].
  destruct (in_int_range (tmp + c)); [|reflexivity].
  rewrite IH. reflexivity.
Qed.

Lemma read_values_io_Throw (err : option Z) (fuel : nat) (corr : list Z) :
  forall (f : istream) (tidx : nat) (x : exn),
    fst (read_values_io err fuel corr f tidx) = Throw x ->
    x = ios_base_failure /\ exists e, err = Some e.
Proof.
  induction fuel as [|fuel IH]; intros f tidx x; cbn [read_values_io].
  - discriminate.
  - destruct (eofbit f); [discriminate|].
    destruct (extract_int f) as [f' tmp].
    destruct (meets_error err f') eqn:M.
    { cbn [fst]. intro H. injection H as <-. split; [reflexivity|].
      destruct err as [e|]; [exists e; reflexivity|discriminate M]. }
    destruct (failbit f'); [apply IH|].
    destruct (nth_error corr tidx) as [c|]; [|discriminate].
    destruct (in_int_range (tmp + c)); [|discriminate].
    specialize (IH f' (S tidx) x).
    destruct (read_values_io err fuel corr f' (S tidx)). exact IH.
Qed.

Lemma after_reading_set_errno (A : Type) (e : Z) (x : exn) (w : World) :
  after_reading (Some e) (@Throw A x) w = set_errno e w.
Proof. reflexivity. Qed.

(** The loop of [read_temps] appends the values of [read_values_io], in
    order; it touches nothing else but [errno], and that only when a read
    fails. *)
Lemma read_loop_values (err : option Z) (fuel : nat) (corr : list Z) :
  forall (f : istream) (tidx : nat) (w : World),
    TpSensorDriver.read_loop err fuel corr f tidx w =
    (fst (read_values_io err fuel corr f tidx),
     after_reading err (fst (read_values_io err fuel corr f tidx))
       (append_temps (snd (read_values_io err fuel corr f tidx)) w)).
Proof.
  induction fuel as [|fuel IH]; intros f tidx w;
    cbn [TpSensorDriver.read_loop read_values_io].
  - cbn. rewrite append_temps_nil. destruct err; reflexivity.
  - destruct (eofbit f).
    { cbn. rewrite append_temps_nil. destruct err; reflexivity. }
    unfold bind at 1. rewrite reading_eq.
    destruct (extract_int f) as [f' tmp]. cbn [fst].
    destruct (meets_error err f').
    { cbn [fst snd]. rewrite append_temps_nil. reflexivity. }
    destruct (failbit f'); [apply IH|].
    unfold bind at 1, index.
    destruct (nth_error corr tidx) as [c|].
    2:{ cbn. rewrite append_temps_nil. destruct err; reflexivity. }
    cbn [ret]. unfold bind at 1, int_add.
    destruct (in_int_range (tmp + c)).
    2:{ cbn. rewrite append_temps_nil. destruct err; reflexivity. }
    cbn [ret]. unfold bind at 1, add_temp, modify.
    rewrite IH.
    destruct (read_values_io err fuel corr f' (S tidx)) as [r l]. cbn [fst snd].
    change (set_temp_state (temp_state w ++ [tmp + c]) w)
      with (append_temps [tmp + c] w).
    rewrite append_temps_app. reflexivity.
Qed.

(** [TpSensorDriver::read_temps] in one equation. *)
Lemma TpSensorDriver_read_temps_eq (fuel : nat) (d : TpSensorDriver.obj) (w : World) :
  TpSensorDriver.read_temps fuel (d, w) =
  let path := SensorDriver.path_ (TpSensorDriver.base d) in
  match files w path with
  | Unreadable e => (Throw (IOerror (MSG_T_GET path) e), (d, set_errno e w))
  | Content data | ReadOnly _ data =>
      if TpSensorDriver.skip_bytes_ d <? 0
      then (Throw (IOerror (MSG_T_GET path) EINVAL), (d, set_errno EINVAL w))
      else
        let start := Z.to_nat (TpSensorDriver.skip_bytes_ d) in
        let rv := read_values fuel (SensorDriver.correction_ (TpSensorDriver.base d))
                    (mkIstream data (skipn start data) start false false) 0 in
        (fst rv, (d, append_temps (snd rv) w))
  | Failing data e =>
      if TpSensorDriver.skip_bytes_ d <? 0
      then (Throw (IOerror (MSG_T_GET path) EINVAL), (d, set_errno EINVAL w))
      else
        let start := Z.to_nat (TpSensorDriver.skip_bytes_ d) in
        let rv := read_values_io (Some e) fuel
                    (SensorDriver.correction_ (TpSensorDriver.base d))
                    (mkIstream data (skipn start data) start false false) 0 in
        match fst rv with
        | Throw _ =>
            (Throw (IOerror (MSG_T_GET path) e),
             (d, set_errno e (append_temps (snd rv) w)))
        | r => (r, (d, append_temps (snd rv) w))
        end
  end.
Proof.
  cbv zeta.
  unfold TpSensorDriver.read_temps, bind at 1, this, gets, lift, scoped_stream.
  cbn [fst snd].
  unfold bind at 1, open_read.
  change (files (set_open_streams (S (open_streams w)) w)) with (files w).
  destruct (files w (SensorDriver.path_ (TpSensorDriver.base d)))
    as [e|data|e' data|data e].
  - destruct w; reflexivity.
  - unfold try_catch, exceptions_failbit. cbn [failbit].
    unfold bind at 1. cbn [ret]. unfold bind at 1, seekg. cbn [failbit].
    destruct (TpSensorDriver.skip_bytes_ d <? 0).
    + destruct w; reflexivity.
    + cbn [ret contents]. unfold bind at 1. cbn [failbit ret].
      rewrite read_loop_values, read_values_io_None.
      pose proof (read_values_no_throw fuel
                    (SensorDriver.correction_ (TpSensorDriver.base d))
                    (mkIstream data
                       (skipn (Z.to_nat (TpSensorDriver.skip_bytes_ d)) data)
                       (Z.to_nat (TpSensorDriver.skip_bytes_ d)) false false) 0) as NT.
      destruct (read_values _ _ _ _) as [r l]. cbn [fst snd] in *.
      destruct r as [[]|x| |]; try (destruct w; reflexivity).
      exfalso. exact (NT x eq_refl).
  - unfold try_catch, exceptions_failbit. cbn [failbit].
    unfold bind at 1. cbn [ret]. unfold bind at 1, seekg. cbn [failbit].
    destruct (TpSensorDriver.skip_bytes_ d <? 0).
    + destruct w; reflexivity.
    + cbn [ret contents]. unfold bind at 1. cbn [failbit ret].
      rewrite read_loop_values, read_values_io_None.
      pose proof (read_values_no_throw fuel
                    (SensorDriver.correction_ (TpSensorDriver.base d))
                    (mkIstream data
                       (skipn (Z.to_nat (TpSensorDriver.skip_bytes_ d)) data)
                       (Z.to_nat (TpSensorDriver.skip_bytes_ d)) false false) 0) as NT.
      destruct (read_values _ _ _ _) as [r l]. cbn [fst snd] in *.
      destruct r as [[]|x| |]; try (destruct w; reflexivity).
      exfalso. exact (NT x eq_refl).
  - unfold try_catch, exceptions_failbit. cbn [failbit].
    unfold bind at 1. cbn [ret]. unfold bind at 1, seekg. cbn [failbit].
    destruct (TpSensorDriver.skip_bytes_ d <? 0).
    + destruct w; reflexivity.
    + cbn [ret contents]. unfold bind at 1. cbn [failbit ret].
      rewrite read_loop_values.
      pose proof (read_values_io_Throw (Some e) fuel
                    (SensorDriver.correction_ (TpSensorDriver.base d))
                    (mkIstream data
                       (skipn (Z.to_nat (TpSensorDriver.skip_bytes_ d)) data)
                       (Z.to_nat (TpSensorDriver.skip_bytes_ d)) false false) 0) as NT.
      destruct (read_values_io _ _ _ _ _) as [r l]. cbn [fst snd] in *.
      destruct r as [[]|x| |]; try (destruct w; reflexivity).
      destruct (NT x eq_refl) as [-> _]. destruct w; reflexivity.
Qed.

(** [SensorDriver::SensorDriver] in one equation. *)
Lemma SensorDriver_new_eq (path : string) (w : World) :
  SensorDriver.new path w =
  match files w path with
  | Unreadable e => (Throw (IOerror (MSG_FAN_INIT path) e), set_errno e w)
  | Content _ | ReadOnly _ _ | Failing _ _ => (Ok (SensorDriver.mk path 0 []), w)
  end.
Proof.
  unfold SensorDriver.new, scoped_stream, open_read, exceptions_failbit,
    try_catch, bind.
  destruct w as [fs wr k ck cr er os tr ts st].
  cbn [files set_open_streams open_streams].
  destruct (fs path); reflexivity.
Qed.

(** The counting loop of the constructor, given two rounds more than the
    stream has characters, counts what [count_numbers] counts in one round
    more. *)
Lemma count_numbers_io_counted (f : istream) :
  count_numbers_io None (S (S (length (unread f)))) f 0 =
  Ok (count_numbers (S (length (unread f))) f 0).
Proof.
  rewrite count_numbers_io_None by lia.
  f_equal. apply count_temps_fuel; lia.
Qed.

(** [TpSensorDriver::TpSensorDriver] in one equation. *)
Lemma TpSensorDriver_new_eq (path : string) (w : World) :
  TpSensorDriver.new path w =
  match files w path with
  | Unreadable e => (Throw (IOerror (MSG_FAN_INIT path) e), set_errno e w)
  | Content data | ReadOnly _ data =>
      let gl := getline (mkIstream data data 0 false false)
                        (repeat NUL (length TpSensorDriver.skip_prefix_))
                        (length TpSensorDriver.skip_prefix_ + 1) in
      if list_eq_dec ascii_dec (snd gl) TpSensorDriver.skip_prefix_
      then
        let tg := tellg (clear_failbit (fst gl)) in
        (Ok (TpSensorDriver.mk
               (SensorDriver.set_num_temps
                  (count_numbers (S (length (unread (fst tg)))) (fst tg) 0)
                  (SensorDriver.mk path 0 []))
               (snd tg)), w)
      else (Throw (SystemError (Text (path ++ ": Unknown file format."))), w)
  | Failing data e =>
      let gl := getline (mkIstream data data 0 false false)
                        (repeat NUL (length TpSensorDriver.skip_prefix_))
                        (length TpSensorDriver.skip_prefix_ + 1) in
      if eofbit (fst gl)
      then (Throw (IOerror (MSG_SENSOR_INIT path) e), set_errno e w)
      else if list_eq_dec ascii_dec (snd gl) TpSensorDriver.skip_prefix_
      then
        let tg := tellg (clear_failbit (fst gl)) in
        match count_numbers_io (Some e) (S (S (length (unread (fst tg))))) (fst tg) 0
        with
        | Ok count =>
            (Ok (TpSensorDriver.mk
                   (SensorDriver.set_num_temps count (SensorDriver.mk path 0 []))
                   (snd tg)), w)
        | Throw _ => (Throw (IOerror (MSG_SENSOR_INIT path) e), set_errno e w)
        | Undefined => (Undefined, w)
        | OutOfFuel => (OutOfFuel, w)
        end
      else (Throw (SystemError (Text (path ++ ": Unknown file format."))), w)
  end.
Proof.
  unfold TpSensorDriver.new. unfold bind at 1.
  rewrite SensorDriver_new_eq.
  destruct (files w path) as [e|data|e' data|data e] eqn:F; [reflexivity| | |];
    destruct w as [fs wr k ck cr er os tr ts st]; cbn [files] in F;
    unfold scoped_stream, open_read;
    unfold bind at 1; cbn [files set_open_streams open_streams]; rewrite F;
    unfold try_catch, exceptions_failbit; cbn [failbit];
    unfold bind at 1 2; cbn [ret]; rewrite reading_eq;
    destruct (getline _ _ _) as [f1 skip']; cbn [fst snd meets_error].
  - destruct (list_eq_dec ascii_dec skip' TpSensorDriver.skip_prefix_);
      [|reflexivity].
    destruct (tellg (clear_failbit f1)) as [f3 pos]. cbn [fst snd].
    unfold bind at 1. rewrite count_temps_eq, count_numbers_io_counted.
    reflexivity.
  - destruct (list_eq_dec ascii_dec skip' TpSensorDriver.skip_prefix_);
      [|reflexivity].
    destruct (tellg (clear_failbit f1)) as [f3 pos]. cbn [fst snd].
    unfold bind at 1. rewrite count_temps_eq, count_numbers_io_counted.
    reflexivity.
  - destruct (eofbit f1); [reflexivity|].
    destruct (list_eq_dec ascii_dec skip' TpSensorDriver.skip_prefix_);
      [|reflexivity].
    destruct (tellg (clear_failbit f1)) as [f3 pos]. cbn [fst snd].
    unfold bind at 1. rewrite count_temps_eq.
    destruct (count_numbers_io (Some e) _ f3 0) as [c|x| |] eqn:C;
      try reflexivity.
    apply count_numbers_io_Throw in C. subst x. reflexivity.
Qed.

(** ** Formatted extraction on well-formed text *)

Lemma isspace_not_digit (c : ascii) : isspace c = true -> isdigit c = false.
Proof.
  destruct c as [[] [] [] [] [] [] [] []]; cbn; intro H;
    try reflexivity; discriminate H.
Qed.

Lemma isdigit_not_space (c : ascii) : isdigit c = true -> isspace c = false.
Proof.
  destruct c as [[] [] [] [] [] [] [] []]; cbn; intro H;
    try reflexivity; discriminate H.
Qed.

Lemma isdigit_not_sign (c : ascii) :
  isdigit c = true -> Ascii.eqb c "-" = false /\ Ascii.eqb c "+" = false.
Proof.
  destruct c as [[] [] [] [] [] [] [] []]; cbn; intro H;
    try (split; reflexivity); discriminate H.
Qed.

Lemma skip_ws_app (sep l : bytes) :
  forallb isspace sep = true -> skip_ws (sep ++ l) = skip_ws l.
Proof.
  induction sep as [|c sep IH]; cbn; [reflexivity|].
  intro H. apply andb_true_iff in H as [Hc Hs]. rewrite Hc. apply IH, Hs.
Qed.

Lemma skip_ws_white (s : bytes) : forallb isspace s = true -> skip_ws s = [].
Proof.
  intro H. rewrite <- (app_nil_r s), (skip_ws_app s [] H). reflexivity.
Qed.

Lemma take_digits_app (ds : bytes) :
  forall (acc : Z) (rest : bytes),
    forallb isdigit ds = true -> no_digit_ahead rest = true ->
    take_digits acc (ds ++ rest) =
    (fold_left (fun a c => a * 10 + digit_value c) ds acc, length ds, rest).
Proof.
  induction ds as [|c ds IH]; intros acc rest Hd Hr.
  - cbn. destruct rest as [|c r]; [reflexivity|].
    cbn in Hr. cbn. apply negb_true_iff in Hr. rewrite Hr. reflexivity.
  - cbn in Hd. apply andb_true_iff in Hd as [Hc Hd].
    cbn. rewrite Hc, (IH _ rest Hd Hr). reflexivity.
Qed.

Lemma well_formed_number_inv (t : number) :
  well_formed_number t = true ->
  digits t <> [] /\ forallb isdigit (digits t) = true /\
  in_int_range (number_value t) = true.
Proof.
  unfold well_formed_number. rewrite !andb_true_iff.
  intros [[H1 H2] H3]. repeat split; try assumption.
  intro E. rewrite E in H1. discriminate H1.
Qed.

(** A stream that is good and stands before white space, a well-formed
    number and something that is not a digit yields the number's value, stands
    behind the number, and has [eofbit] set exactly when the file ends there. *)
Lemma extract_int_number (f : istream) (sep : bytes) (t : number) (rest : bytes) :
  good f = true ->
  forallb isspace sep = true ->
  well_formed_number t = true ->
  no_digit_ahead rest = true ->
  unread f = sep ++ number_text t ++ rest ->
  extract_int f =
  (mkIstream (contents f) rest (offset f + (length (unread f) - length rest))
             (is_nil rest) false,
   number_value t).
Proof.
  intros G Hs Ht Hr U.
  apply well_formed_number_inv in Ht as (Hne & Hd & Hv).
  unfold extract_int. rewrite G, U, skip_ws_app by assumption.
  unfold number_text, number_value in *.
  destruct t as [[|] ds]; cbn [minus digits] in *.
  - cbn [app skip_ws]. change (isspace "-") with false. cbv iota.
    change (Ascii.eqb "-" "-") with true. cbv iota.
    rewrite (take_digits_app ds 0 rest Hd Hr).
    fold (digits_value ds). rewrite Hv.
    destruct ds as [|c ds]; [congruence|]. cbn [length Nat.eqb orb negb].
    destruct rest; reflexivity.
  - destruct ds as [|c ds]; [congruence|].
    cbn [forallb] in Hd. apply andb_true_iff in Hd as [Hc Hd].
    cbn [app skip_ws]. rewrite (isdigit_not_space c Hc).
    destruct (isdigit_not_sign c Hc) as [E1 E2]. rewrite E1, E2.
    change (c :: ds ++ rest) with ((c :: ds) ++ rest).
    rewrite (take_digits_app (c :: ds) 0 rest).
    2:{ cbn [forallb]. rewrite Hc, Hd. reflexivity. }
    2:{ exact Hr. }
    fold (digits_value (c :: ds)). rewrite Hv.
    cbn [length Nat.eqb orb negb].
    destruct rest; reflexivity.
Qed.

(** On a good stream with nothing but white space left, the extraction
    fails and reaches the end of the file. *)
Lemma extract_int_white (f : istream) :
  good f = true ->
  forallb isspace (unread f) = true ->
  extract_int f =
  (mkIstream (contents f) [] (offset f + length (unread f)) true true, 0).
Proof.
  intros G H. unfold extract_int. rewrite G, (skip_ws_white _ H). reflexivity.
Qed.

(** ** The two loops on a well-formed thermal file *)

Lemma thermal_body_cons (sep : bytes) (t : number)
      (items : list (bytes * number)) (trailing : bytes) :
  thermal_body ((sep, t) :: items) trailing =
  sep ++ number_text t ++ thermal_body items trailing.
Proof. unfold thermal_body. cbn. rewrite <- !app_assoc. reflexivity. Qed.

Lemma well_formed_item_inv (sep : bytes) (t : number) :
  well_formed_item (sep, t) = true ->
  sep <> [] /\ forallb isspace sep = true /\ well_formed_number t = true.
Proof.
  unfold well_formed_item. cbn [fst snd]. rewrite !andb_true_iff.
  intros [[H1 H2] H3]. repeat split; try assumption.
  intro E. rewrite E in H1. discriminate H1.
Qed.

Lemma white_no_digit_ahead (s : bytes) :
  forallb isspace s = true -> no_digit_ahead s = true.
Proof.
  destruct s as [|c s]; [reflexivity|]. cbn.
  intro H. apply andb_true_iff in H as [Hc _].
  rewrite (isspace_not_digit c Hc). reflexivity.
Qed.

Lemma thermal_body_no_digit_ahead (items : list (bytes * number)) (trailing : bytes) :
  forallb well_formed_item items = true ->
  forallb isspace trailing = true ->
  no_digit_ahead (thermal_body items trailing) = true.
Proof.
  destruct items as [|[sep t] items]; intros Hi Ht.
  - apply white_no_digit_ahead, Ht.
  - cbn [forallb] in Hi. apply andb_true_iff in Hi as [Hi _].
    apply well_formed_item_inv in Hi as (Hne & Hs & _).
    rewrite thermal_body_cons.
    destruct sep as [|c sep]; [congruence|].
    cbn in Hs. apply andb_true_iff in Hs as [Hc _].
    cbn. rewrite (isspace_not_digit c Hc). reflexivity.
Qed.

Lemma thermal_body_nil_inv (items : list (bytes * number)) (trailing : bytes) :
  forallb well_formed_item items = true ->
  thermal_body items trailing = [] -> items = [].
Proof.
  destruct items as [|[sep t] items]; intros Hi E; [reflexivity|].
  cbn [forallb] in Hi. apply andb_true_iff in Hi as [Hi _].
  apply well_formed_item_inv in Hi as (Hne & _).
  rewrite thermal_body_cons in E. destruct sep; [congruence|discriminate E].
Qed.

Lemma body_nil_or_not (s : bytes) : is_nil s = true \/ is_nil s = false.
Proof. destruct s; [left|right]; reflexivity. Qed.

Lemma is_nil_inv (s : bytes) : is_nil s = true -> s = [].
Proof. destruct s; [reflexivity|discriminate]. Qed.

Lemma count_temps_halted (fuel : nat) (f : istream) (count : nat) :
  eofbit f || failbit f = true -> count_numbers fuel f count = count.
Proof. intro H. destruct fuel; cbn; [|rewrite H]; reflexivity. Qed.

Lemma good_bits (f : istream) :
  good f = true -> eofbit f = false /\ failbit f = false.
Proof.
  unfold good. rewrite andb_true_iff, !negb_true_iff. tauto.
Qed.

(** The counting loop of the constructor counts the numbers. *)
Lemma count_temps_body (items : list (bytes * number)) (trailing : bytes) :
  forall (fuel : nat) (f : istream) (count : nat),
    forallb well_formed_item items = true ->
    forallb isspace trailing = true ->
    good f = true ->
    unread f = thermal_body items trailing ->
    (length items < fuel)%nat ->
    count_numbers fuel f count = (count + length items)%nat.
Proof.
  induction items as [|[sep t] items IH]; intros fuel f count Hi Ht G U Hf.
  - destruct fuel as [|fuel]; [cbn in Hf; lia|].
    destruct (good_bits f G) as [Ge Gf].
    cbn [count_numbers]. rewrite Ge, Gf. cbn [orb].
    rewrite extract_int_white; [|exact G|rewrite U; exact Ht].
    cbn [failbit]. rewrite count_temps_halted by reflexivity.
    cbn. lia.
  - destruct fuel as [|fuel]; [cbn in Hf; lia|].
    destruct (good_bits f G) as [Ge Gf].
    cbn [forallb] in Hi. apply andb_true_iff in Hi as [Hit Hi].
    apply well_formed_item_inv in Hit as (Hne & Hs & Hn).
    rewrite thermal_body_cons in U.
    cbn [count_numbers]. rewrite Ge, Gf. cbn [orb].
    rewrite (extract_int_number f sep t (thermal_body items trailing) G Hs Hn
               (thermal_body_no_digit_ahead items trailing Hi Ht) U).
    cbn [failbit].
    destruct (body_nil_or_not (thermal_body items trailing)) as [B|B].
    + rewrite count_temps_halted by (cbn [eofbit failbit]; rewrite B; reflexivity).
      rewrite (thermal_body_nil_inv items trailing Hi (is_nil_inv _ B)). cbn. lia.
    + rewrite (IH fuel _ (S count) Hi Ht); cbn [length] in *; try lia.
      * unfold good. cbn [eofbit failbit]. rewrite B. reflexivity.
      * reflexivity.
Qed.

Lemma skipn_nth_error (A : Type) (l : list A) (n : nat) (c : A) (cs : list A) :
  skipn n l = c :: cs -> nth_error l n = Some c /\ skipn (S n) l = cs.
Proof.
  revert l. induction n as [|n IH]; intros l H.
  - cbn in H. subst l. split; reflexivity.
  - destruct l as [|a l]; [discriminate H|]. apply (IH l H).
Qed.

Lemma read_values_halted (fuel : nat) (corr : list Z) (f : istream) (tidx : nat) :
  eofbit f = true -> read_values (S fuel) corr f tidx = (Ok tt, []).
Proof. intro H. cbn. rewrite H. reflexivity. Qed.

(** The loop of [read_temps] ends normally and yields every number with
    its offset added, when the correction vector reaches that far, the sums
    fit an [int] and the fuel covers one round per number and two more. *)
Lemma read_values_body (corr : list Z) (items : list (bytes * number)) (trailing : bytes) :
  forall (fuel : nat) (f : istream) (tidx : nat) (cs : list Z),
    forallb well_formed_item items = true ->
    forallb isspace trailing = true ->
    good f = true ->
    unread f = thermal_body items trailing ->
    skipn tidx corr = cs ->
    (length items <= length cs)%nat ->
    forallb in_int_range (corrected (map (fun it => number_value (snd it)) items) cs) = true ->
    (length items + 2 <= fuel)%nat ->
    read_values fuel corr f tidx =
    (Ok tt, corrected (map (fun it => number_value (snd it)) items) cs).
Proof.
  induction items as [|[sep t] items IH];
    intros fuel f tidx cs Hi Ht G U Hc Hl Hr Hf.
  - destruct fuel as [|[|fuel]]; cbn in Hf; try lia.
    destruct (good_bits f G) as [Ge Gf].
    cbn [read_values]. rewrite Ge.
    rewrite extract_int_white; [|exact G|rewrite U; exact Ht].
    cbn [failbit eofbit]. reflexivity.
  - destruct fuel as [|fuel]; [cbn in Hf; lia|].
    destruct (good_bits f G) as [Ge Gf].
    cbn [forallb] in Hi. apply andb_true_iff in Hi as [Hit Hi].
    apply well_formed_item_inv in Hit as (Hne & Hs & Hn).
    rewrite thermal_body_cons in U.
    destruct cs as [|c cs]; [cbn in Hl; lia|].
    destruct (skipn_nth_error _ corr tidx c cs Hc) as [Hnth Hskip].
    cbn [map corrected snd forallb] in Hr |- *.
    apply andb_true_iff in Hr as [Hr1 Hr].
    replace (read_values (S fuel) corr f tidx) with
      (let (f', tmp) := extract_int f in
       if failbit f' then read_values fuel corr f' tidx
       else match nth_error corr tidx with
            | None => (Undefined, [])
            | Some c0 =>
                if in_int_range (tmp + c0)
                then let (r, l) := read_values fuel corr f' (S tidx) in
                     (r, (tmp + c0) :: l)
                else (Undefined, [])
            end)
      by (cbn [read_values]; rewrite Ge; reflexivity).
    rewrite (extract_int_number f sep t (thermal_body items trailing) G Hs Hn
               (thermal_body_no_digit_ahead items trailing Hi Ht) U).
    cbn [failbit]. rewrite Hnth, Hr1.
    destruct (body_nil_or_not (thermal_body items trailing)) as [B|B].
    + pose proof (thermal_body_nil_inv items trailing Hi (is_nil_inv _ B)) as E.
      subst items.
      destruct fuel as [|fuel]; [cbn in Hf; lia|].
      rewrite read_values_halted by (cbn [eofbit]; exact B). reflexivity.
    + rewrite (IH fuel _ (S tidx) cs Hi Ht); cbn [length] in *; try lia;
        try assumption; try reflexivity.
      unfold good. cbn [eofbit failbit]. rewrite B. reflexivity.
Qed.

(** ** Sensor bindings on well-formed files *)

Lemma thermal_body_length (items : list (bytes * number)) (trailing : bytes) :
  forallb well_formed_item items = true ->
  (length items <= length (thermal_body items trailing))%nat.
Proof.
  induction items as [|[sep t] items IH]; intro H; [cbn; lia|].
  cbn [forallb] in H. apply andb_true_iff in H as [Hit H].
  apply well_formed_item_inv in Hit as (Hne & _).
  rewrite thermal_body_cons, !length_app. specialize (IH H).
  destruct sep; [congruence|]. cbn [length]. lia.
Qed.

Lemma well_formed_body_inv (items : list (bytes * number)) (trailing : bytes) :
  well_formed_body items trailing = true ->
  forallb well_formed_item items = true /\
  forallb isspace trailing = true /\
  exists c rest, thermal_body items trailing = c :: rest /\ Ascii.eqb c LF = false.
Proof.
  unfold well_formed_body. rewrite !andb_true_iff, negb_true_iff.
  intros [[[H1 H2] H3] H4]. repeat split; try assumption.
  destruct (thermal_body items trailing) as [|c rest]; [discriminate H3|].
  exists c, rest. split; [reflexivity|exact H4].
Qed.

(** Reading the prefix with [getline]: the thirteen characters fill the
    array, the next character is no line feed, so [failbit] is set and the
    stream stands behind the prefix. *)
Lemma getline_skip_prefix (c : ascii) (rest : bytes) :
  Ascii.eqb c LF = false ->
  let data := TpSensorDriver.skip_prefix_ ++ c :: rest in
  getline (mkIstream data data 0 false false)
          (repeat NUL (length TpSensorDriver.skip_prefix_))
          (length TpSensorDriver.skip_prefix_ + 1) =
  (mkIstream data (c :: rest) 13 false true, TpSensorDriver.skip_prefix_).
Proof.
  intros H data.
  assert (GC : getline_chars 13 data =
               (TpSensorDriver.skip_prefix_, c :: rest, false, true)).
  { subst data. cbn. rewrite H. reflexivity. }
  assert (L : (length data - length (c :: rest) = 13)%nat).
  { subst data. rewrite length_app. cbn [length TpSensorDriver.skip_prefix_ lit
      list_ascii_of_string]. lia. }
  unfold getline. cbn [good eofbit failbit negb andb unread contents offset].
  change (length TpSensorDriver.skip_prefix_ + 1 - 1)%nat with 13%nat.
  rewrite GC, L. reflexivity.
Qed.

(** The constructor on a well-formed thermal file: one channel per number,
    an offset of zero for each, and the position behind the prefix. *)
Lemma TpSensorDriver_new_well_formed
      (path : string) (w : World) (items : list (bytes * number)) (trailing : bytes) :
  files w path = Content (thermal_file items trailing) ->
  well_formed_body items trailing = true ->
  TpSensorDriver.new path w =
  (Ok (TpSensorDriver.mk
         (SensorDriver.mk path (length items) (repeat 0 (length items))) 13), w).
Proof.
  intros F WF.
  apply well_formed_body_inv in WF as (Hi & Ht & c & rest & B & Hc).
  rewrite TpSensorDriver_new_eq, F. unfold thermal_file. rewrite B.
  cbv zeta. rewrite (getline_skip_prefix c rest Hc). cbn [fst snd].
  destruct (list_eq_dec ascii_dec TpSensorDriver.skip_prefix_
              TpSensorDriver.skip_prefix_) as [_|N]; [|congruence].
  unfold tellg, clear_failbit, good. cbn [eofbit failbit negb andb fst snd unread offset].
  rewrite <- B.
  rewrite (count_temps_body items trailing _ _ 0 Hi Ht); try reflexivity.
  - unfold SensorDriver.set_num_temps, resize. cbn [SensorDriver.path_ SensorDriver.correction_ length].
    rewrite firstn_nil, Nat.sub_0_r. reflexivity.
  - pose proof (thermal_body_length items trailing Hi). lia.
Qed.

Lemma HwmonSensorDriver_new_eq (path : string) (w : World) :
  HwmonSensorDriver.new path w =
  match files w path with
  | Unreadable e => (Throw (IOerror (MSG_FAN_INIT path) e), set_errno e w)
  | Content _ | ReadOnly _ _ | Failing _ _ => (Ok (SensorDriver.mk path 1 [0]), w)
  end.
Proof.
  unfold HwmonSensorDriver.new, bind. rewrite SensorDriver_new_eq.
  destruct (files w path); reflexivity.
Qed.

(** [HwmonSensorDriver::read_temps] in one equation. *)
Lemma HwmonSensorDriver_read_temps_eq (d : SensorDriver.obj) (w : World) :
  HwmonSensorDriver.read_temps (d, w) =
  let path := SensorDriver.path_ d in
  match files w path with
  | Unreadable e => (Throw (IOerror (MSG_T_GET path) e), (d, set_errno e w))
  | Content data | ReadOnly _ data =>
      let ex := extract_int (mkIstream data data 0 false false) in
      if failbit (fst ex)
      then (Throw (IOerror (MSG_T_GET path) (errno w)), (d, w))
      else match nth_error (SensorDriver.correction_ d) 0 with
           | None => (Undefined, (d, w))
           | Some c =>
               if in_int_range (Z.quot (snd ex) 1000 + c)
               then (Ok tt, (d, append_temps [Z.quot (snd ex) 1000 + c] w))
               else (Undefined, (d, w))
           end
  | Failing data e =>
      let ex := extract_int (mkIstream data data 0 false false) in
      if eofbit (fst ex)
      then (Throw (IOerror (MSG_T_GET path) e), (d, set_errno e w))
      else if failbit (fst ex)
      then (Throw (IOerror (MSG_T_GET path) (errno w)), (d, w))
      else match nth_error (SensorDriver.correction_ d) 0 with
           | None => (Undefined, (d, w))
           | Some c =>
               if in_int_range (Z.quot (snd ex) 1000 + c)
               then (Ok tt, (d, append_temps [Z.quot (snd ex) 1000 + c] w))
               else (Undefined, (d, w))
           end
  end.
Proof.
  cbv zeta.
  unfold HwmonSensorDriver.read_temps, this, gets, lift, scoped_stream,
    open_read, exceptions_failbit, try_catch, index, int_add, add_temp, modify.
  unfold bind at 1. cbn [fst snd].
  destruct w as [fs wr k ck cr er os tr ts st].
  unfold bind at 1. cbn [files set_open_streams open_streams].
  destruct (fs (SensorDriver.path_ d)) as [e|data|e' data|data e];
    [reflexivity| | |];
    cbn [failbit]; unfold bind at 1 2; cbn [ret]; rewrite reading_eq;
    destruct (extract_int _) as [f' tmp]; cbn [fst snd meets_error].
  - destruct (failbit f'); [reflexivity|].
    unfold bind at 1. cbn [ret]. unfold bind at 1.
    destruct (nth_error (SensorDriver.correction_ d) 0) as [c|]; [|reflexivity].
    cbn [ret]. unfold bind at 1.
    destruct (in_int_range (Z.quot tmp 1000 + c)); reflexivity.
  - destruct (failbit f'); [reflexivity|].
    unfold bind at 1. cbn [ret]. unfold bind at 1.
    destruct (nth_error (SensorDriver.correction_ d) 0) as [c|]; [|reflexivity].
    cbn [ret]. unfold bind at 1.
    destruct (in_int_range (Z.quot tmp 1000 + c)); reflexivity.
  - destruct (eofbit f'); [reflexivity|].
    destruct (failbit f'); [reflexivity|].
    unfold bind at 1. cbn [ret]. unfold bind at 1.
    destruct (nth_error (SensorDriver.correction_ d) 0) as [c|]; [|reflexivity].
    cbn [ret]. unfold bind at 1.
    destruct (in_int_range (Z.quot tmp 1000 + c)); reflexivity.
Qed.

(** One reading of a vendor-ACPI binding on valid input. *)
Lemma tp_read_temps_valid
      (d : TpSensorDriver.obj) (w : World)
      (items : list (bytes * number)) (trailing : bytes) (fuel : nat) :
  files w (SensorDriver.path_ (TpSensorDriver.base d))
    = Content (thermal_file items trailing) ->
  well_formed_body items trailing = true ->
  TpSensorDriver.skip_bytes_ d = 13 ->
  (length items <= length (SensorDriver.correction_ (TpSensorDriver.base d)))%nat ->
  forallb in_int_range
    (corrected (readings items) (SensorDriver.correction_ (TpSensorDriver.base d)))
    = true ->
  (length items + 2 <= fuel)%nat ->
  TpSensorDriver.read_temps fuel (d, w) =
  (Ok tt,
   (d, append_temps
         (corrected (readings items)
            (SensorDriver.correction_ (TpSensorDriver.base d))) w)).
Proof.
  intros F WF Hs Hl Hr Hf.
  apply well_formed_body_inv in WF as (Hi & Ht & c & rest & B & Hc).
  rewrite TpSensorDriver_read_temps_eq. cbv zeta. rewrite F, Hs.
  change (13 <? 0) with false. cbv iota.
  unfold thermal_file.
  change (skipn (Z.to_nat 13)
            (TpSensorDriver.skip_prefix_ ++ thermal_body items trailing))
    with (thermal_body items trailing).
  rewrite (read_values_body _ items trailing fuel _ 0
             (SensorDriver.correction_ (TpSensorDriver.base d)) Hi Ht);
    try reflexivity; try assumption.
Qed.

(** One reading of a sysfs-hwmon binding on valid input. *)
Lemma hwmon_read_temps_valid
      (d : SensorDriver.obj) (w : World) (sep : bytes) (t : number)
      (rest : bytes) (c : Z) (cs : list Z) :
  files w (SensorDriver.path_ d) = Content (sep ++ number_text t ++ rest) ->
  forallb isspace sep = true ->
  well_formed_number t = true ->
  no_digit_ahead rest = true ->
  SensorDriver.correction_ d = c :: cs ->
  in_int_range (Z.quot (number_value t) 1000 + c) = true ->
  HwmonSensorDriver.read_temps (d, w) =
  (Ok tt, (d, append_temps [Z.quot (number_value t) 1000 + c] w)).
Proof.
  intros F Hs Ht Hr Hc Hv.
  rewrite HwmonSensorDriver_read_temps_eq. cbv zeta. rewrite F.
  rewrite (extract_int_number _ sep t rest); try assumption; try reflexivity.
  cbn [fst snd failbit]. rewrite Hc. cbn [nth_error]. rewrite Hv. reflexivity.
Qed.

Lemma TpSensorDriver_set_correction_eq (c : list Z) (d : TpSensorDriver.obj) (w : World) :
  TpSensorDriver.set_correction c (d, w) =
  let what := MSG_CONF_CORRECTION_LEN (SensorDriver.path_ (TpSensorDriver.base d))
                (length c) (TpSensorDriver.num_temps d) in
  if (TpSensorDriver.num_temps d <? length c)%nat
  then (Throw (ConfigError what), (d, w))
  else (Ok tt,
        (TpSensorDriver.mk
           (SensorDriver.mk (SensorDriver.path_ (TpSensorDriver.base d))
                            (TpSensorDriver.num_temps d) c)
           (TpSensorDriver.skip_bytes_ d),
         if (length c <? TpSensorDriver.num_temps d)%nat
         then emit (EvLog TF_WRN what) w else w)).
Proof.
  unfold TpSensorDriver.set_correction, inherited. cbn [fst snd].
  rewrite SensorDriver_set_correction_eq. cbv zeta.
  unfold TpSensorDriver.num_temps.
  destruct (SensorDriver.num_temps (TpSensorDriver.base d) <? length c)%nat;
    [destruct d; reflexivity|reflexivity].
Qed.

(** C9: a vendor-ACPI sensor binding constructed on a file that reads
    "temperatures: 45 50 0" and a line feed has num_temps() = 3; after
    set_correction([1, 0, -5]) one read_temps() on that file (given fuel for
    its five rounds) ends normally and appends exactly 46, 50, -5 to the
    aggregate, in that order. *)
Theorem thermal_example (path : string) (w0 w1 : World) (fuel : nat) :
  files w0 path = Content (lit "temperatures: 45 50 0" ++ [LF]) ->
  files w1 path = Content (lit "temperatures: 45 50 0" ++ [LF]) ->
  (5 <= fuel)%nat ->
  exists d d',
    TpSensorDriver.new path w0 = (Ok d, w0) /\
    TpSensorDriver.num_temps d = 3%nat /\
    TpSensorDriver.set_correction [1; 0; -5] (d, w0) = (Ok tt, (d', w0)) /\
    TpSensorDriver.read_temps fuel (d', w1) =
      (Ok tt, (d', set_temp_state (temp_state w1 ++ [46; 50; -5]) w1)).
Proof.
  intros F0 F1 Hf.
  pose (items := [(lit " ", mkNumber false (lit "45"));
                  (lit " ", mkNumber false (lit "50"));
                  (lit " ", mkNumber false (lit "0"))]).
  exists (TpSensorDriver.mk (SensorDriver.mk path 3 [0; 0; 0]) 13),
         (TpSensorDriver.mk (SensorDriver.mk path 3 [1; 0; -5]) 13).
  split; [|split; [|split]].
  - apply (TpSensorDriver_new_well_formed path w0 items [LF] F0). reflexivity.
  - reflexivity.
  - rewrite TpSensorDriver_set_correction_eq. reflexivity.
  - apply (tp_read_temps_valid
             (TpSensorDriver.mk (SensorDriver.mk path 3 [1; 0; -5]) 13)
             w1 items [LF] fuel F1); try reflexivity.
    cbn. lia.
Qed.

Lemma thermal_example_witness :
  exists d d',
    TpSensorDriver.new proc_thermal
      (world_with_file proc_thermal (lit "temperatures: 45 50 0" ++ [LF]) 0)
      = (Ok d, world_with_file proc_thermal (lit "temperatures: 45 50 0" ++ [LF]) 0) /\
    TpSensorDriver.num_temps d = 3%nat /\
    TpSensorDriver.set_correction [1; 0; -5]
      (d, world_with_file proc_thermal (lit "temperatures: 45 50 0" ++ [LF]) 0)
      = (Ok tt, (d', world_with_file proc_thermal (lit "temperatures: 45 50 0" ++ [LF]) 0)) /\
    TpSensorDriver.read_temps 5
      (d', world_with_file proc_thermal (lit "temperatures: 45 50 0" ++ [LF]) 0)
      = (Ok tt,
         (d', set_temp_state [46; 50; -5]
                (world_with_file proc_thermal (lit "temperatures: 45 50 0" ++ [LF]) 0))).
Proof.
  apply (thermal_example proc_thermal
           (world_with_file proc_thermal (lit "temperatures: 45 50 0" ++ [LF]) 0)
           (world_with_file proc_thermal (lit "temperatures: 45 50 0" ++ [LF]) 0) 5).
  - reflexivity.
  - reflexivity.
  - lia.
Defined.

(** C1, at the failing input: a vendor-ACPI sensor binding on a three-channel
    file accepts the one-element correction vector [1] with a warning and
    stores it as it is.  The next read_temps() (with fuel for two rounds or
    more) appends 45 + 1 and then reads correction_[1], behind the end of the
    vector: the behaviour is undefined, no zero offset is supplied.  A
    sysfs-hwmon binding that was given the empty correction vector reads
    correction_[0] of an empty vector. *)
Theorem short_correction_vector_is_read_past_its_end :
  let w := world_with_files
             [(proc_thermal, lit "temperatures: 45 50 0" ++ [LF]);
              (sys_temp, lit "43000" ++ [LF])] 0 in
  (exists d d' w',
     TpSensorDriver.new proc_thermal w = (Ok d, w) /\
     TpSensorDriver.num_temps d = 3%nat /\
     TpSensorDriver.set_correction [1] (d, w) = (Ok tt, (d', w')) /\
     trace w' = [EvLog TF_WRN (MSG_CONF_CORRECTION_LEN proc_thermal 1 3)] /\
     SensorDriver.correction_ (TpSensorDriver.base d') = [1] /\
     forall fuel,
       TpSensorDriver.read_temps (S (S fuel)) (d', w') =
       (Undefined, (d', append_temps [46] w'))) /\
  (exists d d' w',
     HwmonSensorDriver.new sys_temp w = (Ok d, w) /\
     SensorDriver.num_temps d = 1%nat /\
     SensorDriver.set_correction [] (d, w) = (Ok tt, (d', w')) /\
     SensorDriver.correction_ d' = [] /\
     HwmonSensorDriver.read_temps (d', w') = (Undefined, (d', w'))).
Proof.
  cbv zeta. split.
  - eexists. eexists. eexists.
    split; [vm_compute; reflexivity|].
    split; [reflexivity|].
    split; [vm_compute; reflexivity|].
    split; [reflexivity|]. split; [reflexivity|].
    intro fuel. rewrite TpSensorDriver_read_temps_eq. reflexivity.
  - eexists. eexists. eexists.
    split; [vm_compute; reflexivity|].
    split; [reflexivity|].
    split; [vm_compute; reflexivity|].
    split; [reflexivity|].
    rewrite HwmonSensorDriver_read_temps_eq. reflexivity.
Qed.

(** C8, at the failing input: a vendor-ACPI sensor binding on a
    three-channel file and a sysfs-hwmon binding on a one-channel file are
    registered in that order, so the sum of num_temps() is 4.  The
    vendor-ACPI binding was given the correction vector [1], which
    set_correction accepts with a warning.  Its read_temps() (with fuel for
    two rounds or more) appends one value, 46, not three, and then reads
    behind the end of the correction vector: the behaviour is undefined.
    The polling cycle over the two bindings stops there with an aggregate of
    length 1; the sysfs-hwmon binding is not reached. *)
Theorem short_correction_vector_breaks_the_count :
  let w := world_with_files
             [(proc_thermal, lit "temperatures: 45 50 0" ++ [LF]);
              (sys_temp, lit "43000" ++ [LF])] 0 in
  exists dt dt' dh w',
    TpSensorDriver.new proc_thermal w = (Ok dt, w) /\
    HwmonSensorDriver.new sys_temp w = (Ok dh, w) /\
    TpSensorDriver.set_correction [1] (dt, w) = (Ok tt, (dt', w')) /\
    sensor_num_temps (TpSensor dt') = 3%nat /\
    list_sum (map sensor_num_temps [TpSensor dt'; HwmonSensor dh]) = 4%nat /\
    forall fuel,
      sensor_read_temps (S (S fuel)) (TpSensor dt') w' =
        (Undefined, append_temps [46] w') /\
      polling_cycle (S (S fuel)) [TpSensor dt'; HwmonSensor dh] w' =
        (Undefined, set_temp_state [46] w') /\
      length (temp_state
                (snd (polling_cycle (S (S fuel))
                        [TpSensor dt'; HwmonSensor dh] w'))) = 1%nat.
Proof.
  cbv zeta. eexists. eexists. eexists. eexists.
  split; [vm_compute; reflexivity|].
  split; [vm_compute; reflexivity|].
  split; [vm_compute; reflexivity|].
  split; [reflexivity|]. split; [reflexivity|].
  intro fuel.
  unfold polling_cycle, bind, modify. cbn [read_all].
  unfold bind, sensor_read_temps.
  rewrite !TpSensorDriver_read_temps_eq.
  split; [reflexivity|]. split; reflexivity.
Qed.

(** ** The aggregate after a polling cycle *)

Lemma corrected_length (vs cs : list Z) :
  (length vs <= length cs)%nat -> length (corrected vs cs) = length vs.
Proof.
  revert cs. induction vs as [|v vs IH]; intros cs H; [reflexivity|].
  destruct cs as [|c cs]; cbn in *; [lia|]. rewrite IH; [reflexivity|lia].
Qed.

(** On valid input one [read_temps()] ends normally and appends as many
    values as the binding has channels, whatever the aggregate holds. *)
Lemma sensor_read_temps_valid (s : sensor) (w : World) (fuel : nat) :
  valid_reading s w ->
  (sensor_num_temps s + 2 <= fuel)%nat ->
  exists part,
    length part = sensor_num_temps s /\
    forall w', files w' = files w ->
      sensor_read_temps fuel s w' = (Ok tt, append_temps part w').
Proof.
  destruct s as [d|d]; cbn [valid_reading sensor_num_temps]; intros V Hf.
  - destruct V as (sep & t & rest & c & F & Hs & Ht & Hr & Hn & Hc & Hv).
    exists [Z.quot (number_value t) 1000 + c]. split; [rewrite Hn; reflexivity|].
    intros w' E. unfold sensor_read_temps.
    rewrite (hwmon_read_temps_valid d w' sep t rest c []); try assumption.
    + reflexivity.
    + rewrite E. exact F.
  - destruct V as (items & trailing & F & WF & Hs & Hn & Hc & Hr).
    exists (corrected (readings items)
              (SensorDriver.correction_ (TpSensorDriver.base d))).
    split.
    + rewrite corrected_length; unfold readings; rewrite length_map; lia.
    + intros w' E. unfold sensor_read_temps.
      rewrite (tp_read_temps_valid d w' items trailing fuel); try assumption.
      * reflexivity.
      * rewrite E. exact F.
      * lia.
      * lia.
Qed.

Lemma read_all_valid (w : World) (fuel : nat) (sensors : list sensor) :
  Forall (fun s => valid_reading s w) sensors ->
  Forall (fun s => (sensor_num_temps s + 2 <= fuel)%nat) sensors ->
  exists parts,
    Forall2 (fun s part =>
               length part = sensor_num_temps s /\
               sensor_read_temps fuel s w = (Ok tt, append_temps part w))
            sensors parts /\
    forall w', files w' = files w ->
      read_all fuel sensors w' = (Ok tt, append_temps (concat parts) w').
Proof.
  induction sensors as [|s sensors IH]; intros V Hf.
  - exists []. split; [constructor|].
    intros w' _. cbn. rewrite append_temps_nil. reflexivity.
  - inversion V as [|? ? Vs Vr]; subst. inversion Hf as [|? ? Fs Fr]; subst.
    destruct (IH Vr Fr) as (parts & P2 & Hall).
    destruct (sensor_read_temps_valid s w fuel Vs Fs) as (part & Hl & Hread).
    exists (part :: parts). split.
    + constructor; [|exact P2]. split; [exact Hl|]. apply Hread. reflexivity.
    + intros w' E. cbn [read_all concat]. unfold bind.
      rewrite (Hread w' E).
      rewrite (Hall (append_temps part w')).
      * rewrite append_temps_app. reflexivity.
      * rewrite <- E. destruct w'; reflexivity.
Qed.

Lemma concat_length_sum (sensors : list sensor) (parts : list (list Z)) :
  Forall2 (fun s part => length part = sensor_num_temps s) sensors parts ->
  length (concat parts) = list_sum (map sensor_num_temps sensors).
Proof.
  induction 1 as [|s part sensors parts H _ IH]; [reflexivity|].
  cbn. rewrite length_app, H, IH. reflexivity.
Qed.

(** X22: for the sensor bindings that are always compiled in (sysfs-hwmon
    and vendor-ACPI), when every binding has one correction offset per
    channel, its file is read without error and holds one number per channel,
    and the corrected readings fit an int ([valid_reading]), one read_temps()
    call ends normally and appends exactly num_temps() values to the
    aggregate.  A polling cycle over such bindings therefore ends normally
    with an aggregate that is the concatenation of the bindings' readings in
    registration order, and whose length is the sum of their num_temps().
    [fuel] has to cover the rounds of the vendor-ACPI reading loop, two more
    than the binding has channels.  Correction vectors shorter than
    num_temps() are outside this statement. *)
Theorem read_temps_appends_num_temps
        (sensors : list sensor) (w : World) (fuel : nat) :
  Forall (fun s => valid_reading s w) sensors ->
  Forall (fun s => (sensor_num_temps s + 2 <= fuel)%nat) sensors ->
  exists parts : list (list Z),
    Forall2 (fun s part =>
               length part = sensor_num_temps s /\
               sensor_read_temps fuel s w = (Ok tt, append_temps part w))
            sensors parts /\
    polling_cycle fuel sensors w = (Ok tt, set_temp_state (concat parts) w) /\
    length (concat parts) = list_sum (map sensor_num_temps sensors).
Proof.
  intros V Hf.
  destruct (read_all_valid w fuel sensors V Hf) as (parts & P2 & Hall).
  exists parts. split; [exact P2|]. split.
  - unfold polling_cycle, bind, modify.
    rewrite (Hall (set_temp_state [] w)) by (destruct w; reflexivity).
    destruct w; reflexivity.
  - apply concat_length_sum.
    eapply Forall2_impl; [|exact P2]. intros s part [H _]. exact H.
Qed.

(** The bindings that the constructors make on well-formed files have
    valid input whenever the files keep their form. *)
Lemma constructed_sensors_valid
      (tp_path hw_path : string) (w w' : World)
      (items items' : list (bytes * number))
      (trailing trailing' data sep rest : bytes) (t : number) :
  files w tp_path = Content (thermal_file items trailing) ->
  well_formed_body items trailing = true ->
  files w' tp_path = Content (thermal_file items' trailing') ->
  well_formed_body items' trailing' = true ->
  length items' = length items ->
  files w hw_path = Content data ->
  files w' hw_path = Content (sep ++ number_text t ++ rest) ->
  forallb isspace sep = true ->
  well_formed_number t = true ->
  no_digit_ahead rest = true ->
  exists dt dh,
    TpSensorDriver.new tp_path w = (Ok dt, w) /\
    HwmonSensorDriver.new hw_path w = (Ok dh, w) /\
    TpSensorDriver.num_temps dt = length items /\
    SensorDriver.num_temps dh = 1%nat /\
    valid_reading (TpSensor dt) w' /\
    valid_reading (HwmonSensor dh) w'.
Proof.
  intros F WF F' WF' Hl Fh Fh' Hs Ht Hr.
  exists (TpSensorDriver.mk
            (SensorDriver.mk tp_path (length items) (repeat 0 (length items))) 13),
         (SensorDriver.mk hw_path 1 [0]).
  split; [exact (TpSensorDriver_new_well_formed tp_path w items trailing F WF)|].
  split.
  { rewrite HwmonSensorDriver_new_eq, Fh. reflexivity. }
  split; [reflexivity|]. split; [reflexivity|]. split.
  - exists items', trailing'. cbn [TpSensorDriver.base SensorDriver.path_
      TpSensorDriver.skip_bytes_ TpSensorDriver.num_temps SensorDriver.num_temps
      SensorDriver.num_temps_ SensorDriver.correction_].
    repeat split; try assumption.
    + apply repeat_length.
    + rewrite <- Hl.
      apply well_formed_body_inv in WF' as (Hi & _).
      clear - Hi. induction items' as [|[s n] items' IH]; [reflexivity|].
      cbn [forallb] in Hi. apply andb_true_iff in Hi as [Hit Hi].
      apply well_formed_item_inv in Hit as (_ & _ & Hn).
      apply well_formed_number_inv in Hn as (_ & _ & Hv).
      cbn [length repeat readings map corrected forallb snd].
      rewrite Z.add_0_r, Hv. exact (IH Hi).
  - exists sep, t, rest, 0. cbn [SensorDriver.path_ SensorDriver.num_temps
      SensorDriver.num_temps_ SensorDriver.correction_].
    repeat split; try assumption.
    rewrite Z.add_0_r.
    apply well_formed_number_inv in Ht as (_ & _ & Hv).
    unfold in_int_range, INT_MIN, INT_MAX in *.
    apply andb_true_iff in Hv as [H1 H2].
    apply Z.leb_le in H1, H2.
    pose proof (Z.quot_le_mono _ _ 1000 ltac:(lia) H1) as Q1.
    pose proof (Z.quot_le_mono _ _ 1000 ltac:(lia) H2) as Q2.
    change (-2147483648 ÷ 1000) with (-2147483) in Q1.
    change (2147483647 ÷ 1000) with 2147483 in Q2.
    apply andb_true_iff. split; apply Z.leb_le; lia.
Qed.

Lemma read_temps_appends_num_temps_witness :
  let w := world_with_files
             [(proc_thermal, lit "temperatures: 45 50 0" ++ [LF]);
              (sys_temp, lit "43000" ++ [LF])] 0 in
  let sensors :=
    [TpSensor (TpSensorDriver.mk (SensorDriver.mk proc_thermal 3 [1; 0; -5]) 13);
     HwmonSensor (SensorDriver.mk sys_temp 1 [2])] in
  exists parts : list (list Z),
    Forall2 (fun s part =>
               length part = sensor_num_temps s /\
               sensor_read_temps 5 s w = (Ok tt, append_temps part w))
            sensors parts /\
    polling_cycle 5 sensors w = (Ok tt, set_temp_state (concat parts) w) /\
    length (concat parts) = 4%nat.
Proof.
  intros w sensors.
  apply (read_temps_appends_num_temps sensors w 5).
  - constructor; [|constructor; [|constructor]].
    + exists [(lit " ", mkNumber false (lit "45"));
              (lit " ", mkNumber false (lit "50"));
              (lit " ", mkNumber false (lit "0"))], [LF].
      repeat split; reflexivity.
    + exists [], (mkNumber false (lit "43000")), [LF], 2.
      repeat split; reflexivity.
  - constructor; [|constructor; [|constructor]]; vm_compute; lia.
Defined.

(** ** Searching in the line buffer *)

Lemma has_cons (p : bytes) (c : ascii) (l : bytes) :
  has p (c :: l) = prefixb p (c :: l) || has p l.
Proof.
  unfold has. cbn [rfind].
  destruct (rfind p l); cbn; [rewrite orb_true_r; reflexivity|].
  rewrite orb_false_r. destruct (prefixb p (c :: l)); reflexivity.
Qed.

Lemma has_nil (p : bytes) : has p [] = is_nil p.
Proof. destruct p; reflexivity. Qed.

Lemma prefixb_spec (p l : bytes) :
  prefixb p l = true <-> exists post, l = p ++ post.
Proof.
  revert l. induction p as [|a p IH]; intro l.
  - split; [intros _; exists l; reflexivity|reflexivity].
  - destruct l as [|b l]; cbn [prefixb].
    + split; [discriminate|intros [post E]; discriminate E].
    + rewrite andb_true_iff, IH. split.
      * intros [E [post ->]]. apply Ascii.eqb_eq in E. subst b.
        exists post. reflexivity.
      * intros [post E]. injection E as -> ->.
        split; [apply Ascii.eqb_refl|exists post; reflexivity].
Qed.

(** [has p l] says that [p] occurs somewhere in [l]. *)
Lemma has_spec (p l : bytes) :
  has p l = true <-> exists pre post, l = pre ++ p ++ post.
Proof.
  induction l as [|c l IH].
  - rewrite has_nil. split.
    + destruct p; [|discriminate]. intros _. exists [], []. reflexivity.
    + intros (pre & post & E). symmetry in E.
      apply app_eq_nil in E as [_ E]. apply app_eq_nil in E as [-> _].
      reflexivity.
  - rewrite has_cons, orb_true_iff, prefixb_spec, IH. split.
    + intros [[post E]|(pre & post & E)].
      * exists [], post. exact E.
      * exists (c :: pre), post. rewrite E. reflexivity.
    + intros (pre & post & E). destruct pre as [|x pre].
      * left. exists post. exact E.
      * right. injection E as _ E. exists pre, post. exact E.
Qed.

Lemma pattern_ok_inv (p : bytes) :
  pattern_ok p = true ->
  exists c p', p = c :: p' /\ Ascii.eqb c NUL = false /\
               forallb (fun c => negb (Ascii.eqb c NUL)) p' = true.
Proof.
  unfold pattern_ok. destruct p as [|c p']; [discriminate|]. cbn.
  rewrite andb_true_iff, negb_true_iff. intros [H1 H2]. eauto.
Qed.

Lemma prefixb_app_NUL (p : bytes) :
  forallb (fun c => negb (Ascii.eqb c NUL)) p = true ->
  forall l t, prefixb p (l ++ NUL :: t) = prefixb p l.
Proof.
  induction p as [|a p IH]; intros Hp l t; [destruct l; reflexivity|].
  cbn in Hp. apply andb_true_iff in Hp as [Ha Hp]. apply negb_true_iff in Ha.
  destruct l as [|b l]; cbn.
  - rewrite Ha. reflexivity.
  - rewrite (IH Hp). reflexivity.
Qed.

Lemma has_app_NUL (p l t : bytes) :
  pattern_ok p = true -> has p (l ++ NUL :: t) = has p l || has p t.
Proof.
  intro Hp. destruct (pattern_ok_inv p Hp) as (c & p' & E & Hc & Hp').
  assert (NF : forallb (fun c => negb (Ascii.eqb c NUL)) p = true).
  { subst p. cbn. rewrite Hc, Hp'. reflexivity. }
  induction l as [|b l IH].
  - cbn [app]. rewrite has_cons, has_nil. subst p. cbn. rewrite Hc. reflexivity.
  - cbn [app]. rewrite !has_cons, IH.
    change (b :: l ++ NUL :: t) with ((b :: l) ++ NUL :: t).
    rewrite (prefixb_app_NUL p NF). rewrite orb_assoc. reflexivity.
Qed.

Lemma prefixb_app_l (p l t : bytes) :
  prefixb p l = true -> prefixb p (l ++ t) = true.
Proof.
  revert l. induction p as [|a p IH]; intros l H; [reflexivity|].
  destruct l as [|b l]; [discriminate H|]. cbn in *.
  apply andb_true_iff in H as [H1 H2]. rewrite H1, (IH l H2). reflexivity.
Qed.

Lemma has_app_l (p l t : bytes) :
  pattern_ok p = true -> has p l = true -> has p (l ++ t) = true.
Proof.
  intro Hp. destruct (pattern_ok_inv p Hp) as (c & p' & E & _).
  induction l as [|b l IH]; intro H.
  - rewrite has_nil in H. subst p. discriminate H.
  - cbn [app]. rewrite has_cons in *. apply orb_true_iff in H as [H|H].
    + change (b :: l ++ t) with ((b :: l) ++ t).
      rewrite (prefixb_app_l p (b :: l) t H). reflexivity.
    + rewrite (IH H). apply orb_true_r.
Qed.

Lemma has_skipn (p : bytes) (n : nat) :
  forall l, has p (skipn n l) = true -> has p l = true.
Proof.
  induction n as [|n IH]; intros l H; [exact H|].
  destruct l as [|b l]; [exact H|].
  cbn [skipn] in H. rewrite has_cons, (IH l H). apply orb_true_r.
Qed.

Lemma has_skipn_le (p l : bytes) (m n : nat) :
  (m <= n)%nat -> has p (skipn n l) = true -> has p (skipn m l) = true.
Proof.
  intros L H. replace n with ((n - m) + m)%nat in H by lia.
  rewrite <- skipn_skipn in H. exact (has_skipn p _ _ H).
Qed.

Lemma has_repeat_NUL (p : bytes) (n : nat) :
  pattern_ok p = true -> has p (repeat NUL n) = false.
Proof.
  intro Hp. destruct (pattern_ok_inv p Hp) as (c & p' & E & Hc & _). subst p.
  induction n as [|n IH]; [reflexivity|].
  cbn [repeat]. rewrite has_cons, IH. cbn. rewrite Hc. reflexivity.
Qed.

(** ** Reading the status text line by line *)

Lemma getline_chars_line (l : bytes) :
  forall (room : nat) (rest : bytes),
    (length l <= room)%nat ->
    existsb (Ascii.eqb LF) l = false ->
    getline_chars room (l ++ LF :: rest) = (l, rest, false, false).
Proof.
  induction l as [|c l IH]; intros room rest Hl Hn.
  - cbn. destruct room; reflexivity.
  - cbn [existsb] in Hn. apply orb_false_iff in Hn as [Hc Hn].
    rewrite Ascii.eqb_sym in Hc.
    destruct room as [|room]; [cbn in Hl; lia|].
    cbn [app getline_chars]. rewrite Hc.
    rewrite (IH room rest); [reflexivity|cbn in Hl; lia|exact Hn].
Qed.

Lemma store_line (buf l : bytes) :
  (S (length l) <= length buf)%nat ->
  store buf (l ++ [NUL]) = l ++ NUL :: skipn (S (length l)) buf /\
  length (l ++ NUL :: skipn (S (length l)) buf) = length buf.
Proof.
  intro H.
  assert (L : length (l ++ NUL :: skipn (S (length l)) buf) = length buf).
  { rewrite length_app. cbn [length]. rewrite length_skipn. lia. }
  split; [|exact L].
  unfold store. rewrite length_app. cbn [length].
  rewrite Nat.add_1_r, <- app_assoc. cbn [app].
  rewrite <- L at 1. apply firstn_all.
Qed.

Lemma line_ok_inv (l : bytes) :
  line_ok l = true ->
  (length l <= 254)%nat /\ existsb (Ascii.eqb LF) l = false.
Proof.
  unfold line_ok. rewrite andb_true_iff, negb_true_iff, Nat.leb_le. tauto.
Qed.

(** A line of the text is read whole; the array then holds the line, a
    NUL, and its old bytes behind that. *)
Lemma getline_line (f : istream) (buf l rest : bytes) :
  good f = true ->
  unread f = l ++ LF :: rest ->
  line_ok l = true ->
  length buf = 256%nat ->
  getline f buf 255 =
  (mkIstream (contents f) rest (offset f + S (length l)) false false,
   l ++ NUL :: skipn (S (length l)) buf).
Proof.
  intros G U Hl Hb. apply line_ok_inv in Hl as [Hl Hn].
  unfold getline. rewrite G, U.
  change (255 - 1)%nat with 254%nat.
  rewrite (getline_chars_line l 254 rest Hl Hn).
  rewrite (proj1 (store_line buf l ltac:(lia))).
  rewrite length_app. cbn [length].
  replace (length l + S (length rest) - length rest)%nat with (S (length l)) by lia.
  reflexivity.
Qed.

Lemma getline_end (f : istream) (buf : bytes) :
  unread f = [] -> failbit (fst (getline f buf 255)) = true.
Proof.
  intro U. unfold getline. destruct (good f); [|reflexivity].
  rewrite U. reflexivity.
Qed.

Lemma text_of_lines_cons (l : bytes) (ls : list bytes) :
  text_of_lines (l :: ls) = l ++ LF :: text_of_lines ls.
Proof. unfold text_of_lines. cbn. rewrite <- app_assoc. reflexivity. Qed.

Lemma text_of_lines_length (lines : list bytes) :
  (length lines <= length (text_of_lines lines))%nat.
Proof.
  induction lines as [|l ls IH]; [cbn; lia|].
  rewrite text_of_lines_cons, length_app. cbn [length]. lia.
Qed.

(** On a text made of lines that fit, the constructor's loop is
    [scan_lines]. *)
Lemma read_status_lines (lines : list bytes) :
  forall (fuel : nat) (f : istream) (buf initial : bytes) (ctrl : bool),
    forallb line_ok lines = true ->
    good f = true ->
    unread f = text_of_lines lines ->
    length buf = 256%nat ->
    (length lines < fuel)%nat ->
    status_scan fuel f buf initial ctrl =
    scan_lines lines buf initial ctrl.
Proof.
  induction lines as [|l ls IH]; intros fuel f buf initial ctrl Hl G U Hb Hf.
  - destruct fuel as [|fuel]; [reflexivity|].
    cbn [status_scan scan_lines].
    pose proof (getline_end f buf U) as E.
    destruct (getline f buf 255) as [f' line']. cbn [fst] in E.
    rewrite E. reflexivity.
  - destruct fuel as [|fuel]; [cbn in Hf; lia|].
    cbn [forallb] in Hl. apply andb_true_iff in Hl as [Hl Hls].
    rewrite text_of_lines_cons in U.
    cbn [status_scan scan_lines].
    rewrite (getline_line f buf l (text_of_lines ls) G U Hl Hb).
    cbn [failbit]. cbv zeta. fold level_colon commands_colon level_token.
    unfold has.
    assert (Hb' : length (l ++ NUL :: skipn (S (length l)) buf) = 256%nat).
    { rewrite <- Hb. apply store_line. apply line_ok_inv in Hl. lia. }
    cbn [length] in Hf.
    destruct (found (rfind level_colon _)).
    + apply IH; try assumption; try reflexivity. lia.
    + destruct (found (rfind commands_colon _) && found (rfind level_token _));
        apply IH; try assumption; try reflexivity; lia.
Qed.

(** ** What the line buffer holds *)

Lemma buffer_from_lines_init (n : nat) : buffer_from_lines (repeat NUL n) [].
Proof.
  intros p k Hp H. apply has_skipn in H.
  rewrite (has_repeat_NUL p n Hp) in H. discriminate H.
Qed.

Lemma skipn_past_line (l t : bytes) (n : nat) :
  (length l < n)%nat -> skipn n (l ++ NUL :: t) = skipn (n - S (length l)) t.
Proof.
  intro H. rewrite skipn_app, skipn_all2 by lia.
  replace (n - length l)%nat with (S (n - S (length l))) by lia.
  reflexivity.
Qed.

Lemma buffer_from_lines_step (buf l : bytes) (seen : list bytes) :
  buffer_from_lines buf seen ->
  buffer_from_lines (l ++ NUL :: skipn (S (length l)) buf) (l :: seen).
Proof.
  intros Inv p n Hp H. cbn [existsb]. apply orb_true_iff.
  destruct (Nat.le_gt_cases n (length l)) as [L|L].
  - rewrite skipn_app in H.
    replace (n - length l)%nat with 0%nat in H by lia. cbn [skipn] in H.
    rewrite (has_app_NUL p _ _ Hp) in H. apply orb_true_iff in H as [H|H].
    + left. exact H.
    + right. specialize (Inv p (S (length l)) Hp H).
      apply existsb_exists in Inv as (l0 & I0 & H0).
      apply existsb_exists. exists l0. split; [exact I0|].
      apply (has_skipn_le p l0 n (S (length l))); [lia|exact H0].
  - right. apply (Inv p n Hp).
    rewrite skipn_past_line in H by lia. rewrite skipn_skipn in H.
    replace (n - S (length l) + S (length l))%nat with n in H by lia.
    exact H.
Qed.

Lemma scan_lines_ctrl_stays (lines : list bytes) :
  forall buf initial, snd (scan_lines lines buf initial true) = true.
Proof.
  induction lines as [|l ls IH]; intros buf initial; [reflexivity|].
  cbn [scan_lines]. cbv zeta.
  destruct (has level_colon _); [apply IH|].
  destruct (has commands_colon _ && has level_token _); apply IH.
Qed.


Lemma has_level_colon_line (l : bytes) :
  level_only_at_start l = true -> has level_colon l = prefixb level_colon l.
Proof.
  unfold level_only_at_start. rewrite negb_true_iff. intro H.
  destruct l as [|c l]; [reflexivity|].
  cbn [skipn] in H. rewrite has_cons, H, orb_false_r. reflexivity.
Qed.

(** When "level:" stands only at the start of lines, the search for it in
    the buffer answers for the line just read. *)
Lemma has_level_colon_buffer (buf l : bytes) (seen : list bytes) :
  buffer_from_lines buf seen ->
  forallb level_only_at_start seen = true ->
  level_only_at_start l = true ->
  has level_colon (l ++ NUL :: skipn (S (length l)) buf) = prefixb level_colon l.
Proof.
  intros Inv Hs Hl.
  rewrite (has_app_NUL level_colon _ _ eq_refl), (has_level_colon_line l Hl).
  destruct (has level_colon (skipn (S (length l)) buf)) eqn:E;
    [|apply orb_false_r].
  exfalso. specialize (Inv level_colon (S (length l)) eq_refl E).
  apply existsb_exists in Inv as (l0 & I0 & H0).
  rewrite forallb_forall in Hs. specialize (Hs l0 I0).
  unfold level_only_at_start in Hs. apply negb_true_iff in Hs.
  rewrite (has_skipn_le level_colon l0 1 (S (length l))) in Hs;
    [discriminate Hs|lia|exact H0].
Qed.

(** A commands line with the token, read whole, makes control supported. *)
Lemma scan_lines_supported (lines : list bytes) :
  forall (buf : bytes) (seen : list bytes) (initial : bytes) (ctrl : bool),
    buffer_from_lines buf seen ->
    forallb level_only_at_start seen = true ->
    forallb level_only_at_start lines = true ->
    existsb (fun l => supports_level l && negb (prefixb level_colon l)) lines = true ->
    snd (scan_lines lines buf initial ctrl) = true.
Proof.
  induction lines as [|l ls IH]; intros buf seen initial ctrl Inv Hs Hl Hx;
    [discriminate Hx|].
  cbn [forallb] in Hl. apply andb_true_iff in Hl as [Hl Hls].
  pose proof (buffer_from_lines_step buf l seen Inv) as Inv'.
  assert (Hs' : forallb level_only_at_start (l :: seen) = true).
  { cbn [forallb]. rewrite Hl, Hs. reflexivity. }
  cbn [scan_lines]. cbv zeta.
  rewrite (has_level_colon_buffer buf l seen Inv Hs Hl).
  cbn [existsb] in Hx. apply orb_true_iff in Hx as [Hx|Hx].
  - apply andb_true_iff in Hx as [Hsup Hnl]. apply negb_true_iff in Hnl.
    unfold supports_level in Hsup. apply andb_true_iff in Hsup as [Hc Ht].
    rewrite Hnl.
    rewrite (has_app_l commands_colon l _ eq_refl Hc).
    rewrite (has_app_l level_token l _ eq_refl Ht).
    apply scan_lines_ctrl_stays.
  - destruct (prefixb level_colon l); [apply (IH _ (l :: seen)); assumption|].
    destruct (has commands_colon _ && has level_token _);
      apply (IH _ (l :: seen)); assumption.
Qed.

(** Lines that do not begin with "level:" leave the remembered state
    alone. *)
Lemma scan_lines_keeps_initial (lines : list bytes) :
  forall (buf : bytes) (seen : list bytes) (initial : bytes) (ctrl : bool),
    buffer_from_lines buf seen ->
    forallb level_only_at_start seen = true ->
    forallb level_only_at_start lines = true ->
    forallb (fun l => negb (prefixb level_colon l)) lines = true ->
    fst (scan_lines lines buf initial ctrl) = initial.
Proof.
  induction lines as [|l ls IH]; intros buf seen initial ctrl Inv Hs Hl Hn;
    [reflexivity|].
  cbn [forallb] in Hl, Hn.
  apply andb_true_iff in Hl as [Hl Hls]. apply andb_true_iff in Hn as [Hn Hns].
  apply negb_true_iff in Hn.
  pose proof (buffer_from_lines_step buf l seen Inv) as Inv'.
  assert (Hs' : forallb level_only_at_start (l :: seen) = true).
  { cbn [forallb]. rewrite Hl, Hs. reflexivity. }
  cbn [scan_lines]. cbv zeta.
  rewrite (has_level_colon_buffer buf l seen Inv Hs Hl), Hn.
  destruct (has commands_colon _ && has level_token _);
    apply (IH _ (l :: seen)); assumption.
Qed.

Lemma has_single (c : ascii) (s : bytes) : has [c] s = existsb (Ascii.eqb c) s.
Proof.
  induction s as [|x s IH]; [reflexivity|].
  rewrite has_cons, IH. cbn. rewrite andb_true_r. reflexivity.
Qed.

Lemma is_blank_not_NUL (x : ascii) : is_blank x = true -> pattern_ok [x] = true.
Proof.
  unfold is_blank, blanks, pattern_ok. cbn.
  destruct (Ascii.eqb_spec x " ") as [->|_]; [reflexivity|].
  destruct (Ascii.eqb_spec x "009") as [->|_]; [reflexivity|].
  discriminate.
Qed.

(** Behind the line just read, the buffer has no blank when no earlier
    line has one that far back. *)
Lemma stale_bytes_blank_free (buf : bytes) (seen : list bytes) (n : nat) :
  buffer_from_lines buf seen ->
  forallb (no_blank_beyond n) seen = true ->
  existsb is_blank (skipn (S n) buf) = false.
Proof.
  intros Inv Hs.
  destruct (existsb is_blank (skipn (S n) buf)) eqn:E; [|reflexivity].
  exfalso. apply existsb_exists in E as (x & Ix & Bx).
  assert (H : has [x] (skipn (S n) buf) = true).
  { rewrite has_single. apply existsb_exists. exists x. split; [exact Ix|].
    apply Ascii.eqb_refl. }
  specialize (Inv [x] (S n) (is_blank_not_NUL x Bx) H).
  apply existsb_exists in Inv as (l0 & I0 & H0).
  rewrite forallb_forall in Hs. specialize (Hs l0 I0).
  unfold no_blank_beyond in Hs. apply negb_true_iff in Hs.
  rewrite has_single in H0. apply existsb_exists in H0 as (y & Iy & Ey).
  apply Ascii.eqb_eq in Ey. subst y.
  assert (T : existsb is_blank (skipn (S n) l0) = true)
    by (apply existsb_exists; exists x; split; assumption).
  congruence.
Qed.

Lemma find_last_of_none (set t : bytes) :
  existsb (fun c => existsb (Ascii.eqb c) set) t = false ->
  find_last_of set t = None.
Proof.
  induction t as [|c t IH]; intro H; [reflexivity|].
  cbn [existsb] in H. apply orb_false_iff in H as [Hc Ht].
  cbn [find_last_of]. rewrite (IH Ht), Hc. reflexivity.
Qed.

Lemma find_last_of_app (set l t : bytes) :
  find_last_of set t = None -> find_last_of set (l ++ t) = find_last_of set l.
Proof.
  intro H. induction l as [|c l IH]; [exact H|].
  cbn [app find_last_of]. rewrite IH. reflexivity.
Qed.

Lemma find_last_of_lt (set l : bytes) (i : nat) :
  find_last_of set l = Some i -> (i < length l)%nat.
Proof.
  revert i. induction l as [|c l IH]; intros i H; [discriminate H|].
  cbn [find_last_of] in H. cbn [length].
  destruct (find_last_of set l) as [j|].
  - injection H as <-. specialize (IH j eq_refl). lia.
  - destruct (existsb (Ascii.eqb c) set); [|discriminate H].
    injection H as <-. lia.
Qed.

(** With no blank behind the line, [substr(find_last_of(" \t") + 1)] cuts
    inside the line and keeps everything behind it. *)
Lemma substr_after_last_of_line (l t : bytes) :
  existsb is_blank t = false ->
  substr_after_last_of blanks (l ++ NUL :: t) =
  substr_after_last_of blanks l ++ NUL :: t.
Proof.
  intro H. unfold substr_after_last_of.
  rewrite (find_last_of_app blanks l (NUL :: t)).
  - destruct (find_last_of blanks l) as [i|] eqn:E; [|reflexivity].
    apply find_last_of_lt in E.
    rewrite skipn_app.
    replace (S i - length l)%nat with 0%nat by lia. reflexivity.
  - apply find_last_of_none. cbn [existsb]. apply orb_false_iff.
    split; [reflexivity|exact H].
Qed.

(** What the loop remembers: the rest of the last "level:" line behind its
    last blank, a NUL, and what the array held behind that. *)
Lemma scan_lines_remembers (before : list bytes) (lv : bytes) (after : list bytes) :
  forall (buf : bytes) (seen : list bytes) (initial : bytes) (ctrl : bool),
    buffer_from_lines buf seen ->
    forallb level_only_at_start seen = true ->
    forallb level_only_at_start (before ++ lv :: after) = true ->
    prefixb level_colon lv = true ->
    forallb (fun l => negb (prefixb level_colon l)) after = true ->
    forallb (no_blank_beyond (length lv)) seen = true ->
    forallb (no_blank_beyond (length lv)) before = true ->
    exists tail,
      fst (scan_lines (before ++ lv :: after) buf initial ctrl) =
      substr_after_last_of blanks lv ++ NUL :: tail.
Proof.
  induction before as [|l before IH];
    intros buf seen initial ctrl Inv Hs Hl Hlv Ha Bs Bb.
  - cbn [app] in *. cbn [forallb] in Hl.
    apply andb_true_iff in Hl as [Hl Hla].
    exists (skipn (S (length lv)) buf).
    cbn [scan_lines]. cbv zeta.
    rewrite (has_level_colon_buffer buf lv seen Inv Hs Hl), Hlv.
    rewrite (scan_lines_keeps_initial after _ (lv :: seen)); try assumption.
    + apply substr_after_last_of_line.
      exact (stale_bytes_blank_free buf seen (length lv) Inv Bs).
    + apply buffer_from_lines_step, Inv.
    + cbn [forallb]. rewrite Hl, Hs. reflexivity.
  - cbn [app forallb] in *.
    apply andb_true_iff in Hl as [Hl Hla]. apply andb_true_iff in Bb as [Bl Bb].
    pose proof (buffer_from_lines_step buf l seen Inv) as Inv'.
    assert (Hs' : forallb level_only_at_start (l :: seen) = true).
    { cbn [forallb]. rewrite Hl, Hs. reflexivity. }
    assert (Bs' : forallb (no_blank_beyond (length lv)) (l :: seen) = true).
    { cbn [forallb]. rewrite Bl, Bs. reflexivity. }
    cbn [scan_lines]. cbv zeta.
    destruct (has level_colon _); [apply (IH _ (l :: seen)); assumption|].
    destruct (has commands_colon _ && has level_token _);
      apply (IH _ (l :: seen)); assumption.
Qed.

(** ** Construction of the vendor-ACPI fan binding *)

Lemma TpFanDriver_new_lines (path : string) (w : World) (lines : list bytes) :
  files w path = Content (text_of_lines lines) ->
  forallb line_ok lines = true ->
  TpFanDriver.new path w =
  let r := scan_lines lines (repeat NUL 256) [] false in
  if snd r
  then (Ok (FanDriver.mk path 120 0 (fst r) 0), w)
  else (Throw (SystemError MSG_FAN_MODOPTS), w).
Proof.
  intros F Hl. rewrite TpFanDriver_new_eq, F. cbv zeta.
  rewrite (read_status_lines lines); try assumption; try reflexivity.
  pose proof (text_of_lines_length lines). lia.
Qed.

Lemma supporting_line (lines : list bytes) :
  forallb token_in_commands_line lines = true ->
  existsb supports_level lines = true ->
  existsb (fun l => supports_level l && negb (prefixb level_colon l)) lines = true.
Proof.
  intros Ht Hx. apply existsb_exists in Hx as (l & I & Hsup).
  apply existsb_exists. exists l. split; [exact I|].
  rewrite forallb_forall in Ht. specialize (Ht l I).
  unfold token_in_commands_line in Ht. rewrite Hsup.
  unfold supports_level in Hsup. apply andb_true_iff in Hsup as [_ St].
  rewrite St in Ht.
  cbn [implb] in Ht. apply andb_true_iff in Ht as [_ Ht]. exact Ht.
Qed.



(** What the constructor remembers on the status text that thinkpad_acpi
    prints, 248 bytes in all: "auto", the NUL that [getline] stored behind the
    line, "led" left over from the longer first line "status:\t\tenabled",
    and NULs up to the end of the array. *)
Lemma canonical_status_remembered_bytes :
  exists d w',
    TpFanDriver.new proc_fan
      (world_with_file proc_fan (text_of_lines fan_status_lines) 0) = (Ok d, w') /\
    FanDriver.initial_state_ d =
      lit "auto" ++ NUL :: lit "led" ++ repeat NUL 240.
Proof.
  eexists. eexists. split; [vm_compute; reflexivity|]. vm_compute. reflexivity.
Qed.

(** C4, at the failing input: on the status text that thinkpad_acpi prints,
    with the level line "level:\t\tauto", the constructor succeeds, and the
    destructor of the object it made then makes its one write attempt with
    254 bytes: "level auto", a NUL, "led" and 240 more NULs, the bytes that
    the fixed-size line buffer held behind the last blank of the level line.
    That is not the level string "level auto" that was observed.  The write
    is attempted whatever the world is like, and when it fails the destructor
    throws the IOerror MSG_FAN_RESET with the write's errno. *)
Theorem destructor_writes_the_stale_line_buffer :
  let w := world_with_file proc_fan (text_of_lines fan_status_lines) 0 in
  let written := lit "level auto" ++ NUL :: lit "led" ++ repeat NUL 240 in
  exists d,
    TpFanDriver.new proc_fan w = (Ok d, w) /\
    (forall w1,
       TpFanDriver.destroy (d, w1) =
       (match write_reply w1 (writes_done w1) with
        | None => Ok tt
        | Some e => Throw (IOerror (MSG_FAN_RESET proc_fan) e)
        end, (d, after_write proc_fan written w1)) /\
       trace (after_write proc_fan written w1) =
       trace w1 ++ [EvWrite proc_fan written (write_reply w1 (writes_done w1))]) /\
    length written = 254%nat /\
    written <> lit "level auto".
Proof.
  cbv zeta. eexists. split; [vm_compute; reflexivity|]. split.
  - intro w1. split.
    + rewrite TpFanDriver_destroy_eq. reflexivity.
    + unfold after_write.
      destruct (write_reply w1 (writes_done w1)); reflexivity.
  - split; [reflexivity|]. discriminate.
Qed.



(** X23: what the constructor remembers, under the conditions of the
    construction theorem: when the status text has a line with "commands:"
    and "level <level>", and no line before the last "level:" line has a blank
    further back than that line is long, the remembered restore state begins
    with the text behind the last blank of that "level:" line, followed by
    the NUL that [getline] stored behind the line; what follows that NUL comes
    from the line buffer and is not said here. *)
Theorem tp_fan_remembers_level_and_more
        (path : string) (w : World) (lines before after : list bytes) (lv : bytes) :
  files w path = Content (text_of_lines lines) ->
  forallb line_ok lines = true ->
  forallb level_only_at_start lines = true ->
  forallb token_in_commands_line lines = true ->
  existsb supports_level lines = true ->
  lines = before ++ lv :: after ->
  prefixb level_colon lv = true ->
  forallb (fun l => negb (prefixb level_colon l)) after = true ->
  forallb (no_blank_beyond (length lv)) before = true ->
  exists d tail,
    TpFanDriver.new path w = (Ok d, w) /\
    FanDriver.initial_state_ d = substr_after_last_of blanks lv ++ NUL :: tail.
Proof.
  intros F Hl Hlev Htok X E Hlv Ha Hb.
  pose proof (TpFanDriver_new_lines path w lines F Hl) as N. cbv zeta in N.
  pose proof (buffer_from_lines_init 256) as Inv.
  rewrite N.
  rewrite (scan_lines_supported lines _ [] [] false Inv eq_refl Hlev
             (supporting_line lines Htok X)).
  subst lines.
  destruct (scan_lines_remembers before lv after _ [] [] false Inv eq_refl
              Hlev Hlv Ha eq_refl Hb) as [tail T].
  eexists. exists tail. split; [reflexivity|]. exact T.
Qed.

Lemma tp_fan_remembers_level_and_more_witness :
  exists d tail,
    TpFanDriver.new proc_fan
      (world_with_file proc_fan (text_of_lines fan_status_lines) 0)
    = (Ok d, world_with_file proc_fan (text_of_lines fan_status_lines) 0) /\
    FanDriver.initial_state_ d = lit "auto" ++ NUL :: tail.
Proof.
  apply (tp_fan_remembers_level_and_more proc_fan
           (world_with_file proc_fan (text_of_lines fan_status_lines) 0)
           fan_status_lines
           [lit "status:" ++ [TAB; TAB] ++ lit "enabled";
            lit "speed:" ++ [TAB; TAB] ++ lit "3000"]
           [lit "commands:" ++ [TAB] ++
              lit "level <level> (<level> is 0-7, auto, disengaged, full-speed)";
            lit "commands:" ++ [TAB] ++ lit "enable, disable";
            lit "commands:" ++ [TAB] ++
              lit "watchdog <timeout> (<timeout> is 0 (off), 1-120 (seconds))"]
           (lit "level:" ++ [TAB; TAB] ++ lit "auto"));
    reflexivity.
Defined.

(** * Further properties of the driver layer *)

(** ** Constructors on a path that cannot be opened *)

(** X1: each constructor that opens a file, given a path that cannot be
    opened (for the hwmon fan: whose "_enable" sibling cannot be opened),
    fails with an IOerror that carries the OS error of the failed open, under
    the message MSG_FAN_INIT (the sensor constructors too, through the base
    class); apart from [errno] the world stays as it was. *)
Theorem constructors_on_unreadable_path (path : string) (w : World) (e : Z) :
  (files w path = Unreadable e ->
     TpFanDriver.new path w = (Throw (IOerror (MSG_FAN_INIT path) e), set_errno e w) /\
     SensorDriver.new path w = (Throw (IOerror (MSG_FAN_INIT path) e), set_errno e w) /\
     HwmonSensorDriver.new path w
       = (Throw (IOerror (MSG_FAN_INIT path) e), set_errno e w) /\
     TpSensorDriver.new path w
       = (Throw (IOerror (MSG_FAN_INIT path) e), set_errno e w)) /\
  (files w (path ++ "_enable")%string = Unreadable e ->
     HwmonFanDriver.new path w
       = (Throw (IOerror (MSG_FAN_INIT path) e), set_errno e w)).
Proof.
  split; intro F.
  - rewrite TpFanDriver_new_eq, SensorDriver_new_eq, HwmonSensorDriver_new_eq,
      TpSensorDriver_new_eq, F. repeat split.
  - rewrite HwmonFanDriver_new_eq, F. reflexivity.
Qed.

Lemma constructors_on_unreadable_path_witness :
  TpSensorDriver.new proc_thermal (failing_world 0)
  = (Throw (IOerror (MSG_FAN_INIT proc_thermal) 2), set_errno 2 (failing_world 0)) /\
  HwmonFanDriver.new sys_pwm (failing_world 0)
  = (Throw (IOerror (MSG_FAN_INIT sys_pwm) 2), set_errno 2 (failing_world 0)).
Proof.
  split.
  - apply (proj1 (constructors_on_unreadable_path proc_thermal (failing_world 0) 2)).
    reflexivity.
  - apply (proj2 (constructors_on_unreadable_path sys_pwm (failing_world 0) 2)).
    reflexivity.
Defined.

(** ** SensorDriver::set_num_temps and the constructors *)

Lemma nth_error_repeat (A : Type) (x : A) (n i : nat) :
  nth_error (repeat x n) i = if (i <? n)%nat then Some x else None.
Proof.
  revert i. induction n as [|n IH]; intro i; [destruct i; reflexivity|].
  destruct i as [|i]; [reflexivity|]. cbn [repeat nth_error]. rewrite IH.
  reflexivity.
Qed.

(** X2: [set_num_temps(n)] sets the number of channels to [n] and leaves
    a correction vector of exactly [n] offsets: index [i] below [n] holds the
    old offset if there was one and 0 otherwise, and there is no index [n] or
    beyond.  The path is kept. *)
Theorem set_num_temps_resizes (n : nat) (d : SensorDriver.obj) :
  SensorDriver.num_temps (SensorDriver.set_num_temps n d) = n /\
  SensorDriver.path_ (SensorDriver.set_num_temps n d) = SensorDriver.path_ d /\
  length (SensorDriver.correction_ (SensorDriver.set_num_temps n d)) = n /\
  forall i,
    nth_error (SensorDriver.correction_ (SensorDriver.set_num_temps n d)) i =
    if (i <? n)%nat then Some (nth i (SensorDriver.correction_ d) 0) else None.
Proof.
  unfold SensorDriver.set_num_temps, SensorDriver.num_temps, resize.
  cbn [SensorDriver.num_temps_ SensorDriver.path_ SensorDriver.correction_].
  set (v := SensorDriver.correction_ d).
  split; [reflexivity|]. split; [reflexivity|]. split.
  - rewrite length_app, length_firstn, repeat_length. lia.
  - intro i. destruct (Nat.ltb_spec i n) as [L|L].
    + destruct (Nat.lt_ge_cases i (length v)) as [Lv|Lv].
      * rewrite nth_error_app1 by (rewrite length_firstn; lia).
        rewrite nth_error_firstn.
        destruct (Nat.ltb_spec i n) as [_|]; [|lia].
        rewrite (nth_error_nth' v 0 Lv). reflexivity.
      * rewrite nth_error_app2 by (rewrite length_firstn; lia).
        rewrite length_firstn, nth_error_repeat, (nth_overflow v 0 Lv).
        destruct (Nat.ltb_spec (i - Nat.min n (length v)) (n - length v));
          [reflexivity|lia].
    + apply nth_error_None. rewrite length_app, length_firstn, repeat_length. lia.
Qed.

(** ** What [getline] extracts *)

(** The characters stored are the head of the text, they hold no line
    feed, there are no more of them than the array has room for, and the
    characters left are the end of the text. *)
Lemma getline_chars_split (room : nat) (l : bytes) :
  let '(stored, rest, e, f) := getline_chars room l in
  (exists mid, l = stored ++ mid ++ rest) /\
  (length stored <= room)%nat /\
  existsb (Ascii.eqb LF) stored = false /\
  rest = skipn (length l - length rest) l /\
  (length rest <= length l)%nat.
Proof.
  revert room. induction l as [|c l IH]; intro room.
  - destruct room; cbn [getline_chars]; cbv beta iota;
      (split; [exists []; reflexivity|]); repeat split; cbn; lia.
  - destruct room as [|room]; cbn [getline_chars];
      destruct (Ascii.eqb c LF) eqn:E; cbv beta iota.
    + split; [exists [c]; reflexivity|].
      repeat split; try (cbn; lia).
      cbn [length]. replace (S (length l) - length l)%nat with 1%nat by lia.
      reflexivity.
    + split; [exists []; reflexivity|].
      repeat split; try (cbn; lia).
      rewrite Nat.sub_diag. reflexivity.
    + split; [exists [c]; reflexivity|].
      repeat split; try (cbn; lia).
      cbn [length]. replace (S (length l) - length l)%nat with 1%nat by lia.
      reflexivity.
    + specialize (IH room).
      destruct (getline_chars room l) as [[[stored rest] e] f].
      destruct IH as ((mid & Hm) & Hl & Hn & Hr & Hle).
      split.
      { exists mid. cbn [app]. rewrite <- Hm. reflexivity. }
      repeat split.
      * cbn [length]. lia.
      * cbn [existsb]. rewrite Ascii.eqb_sym, E, Hn. reflexivity.
      * cbn [length].
        replace (S (length l) - length rest)%nat
          with (S (length l - length rest)) by lia.
        exact Hr.
      * cbn [length]. lia.
Qed.

(** ** The format check of TpSensorDriver's constructor *)

(** Only the prefix itself leaves the prefix in the 13 bytes of [skip]. *)
Lemma store_prefix_iff (stored : bytes) :
  (length stored <= 13)%nat ->
  store (repeat NUL 13) (stored ++ [NUL]) = TpSensorDriver.skip_prefix_ ->
  stored = TpSensorDriver.skip_prefix_.
Proof.
  intros L H.
  do 13 (destruct stored as [|? stored];
         [cbn in H; discriminate H|]).
  destruct stored as [|? stored]; [|cbn in L; lia].
  cbn in H. exact H.
Qed.

(** A head without line feed that fills the room, and what ends the
    extraction behind it: the end of the file, a line feed, or the lack of
    room. *)
Lemma getline_chars_prefix (p tail : bytes) :
  existsb (Ascii.eqb LF) p = false ->
  getline_chars (length p) (p ++ tail) =
  match tail with
  | [] => (p, [], true, false)
  | c :: rest =>
      if Ascii.eqb c LF then (p, rest, false, false) else (p, tail, false, true)
  end.
Proof.
  induction p as [|a p IH]; intro H.
  - cbn [length app]. destruct tail as [|c rest]; [reflexivity|].
    cbn [getline_chars]. destruct (Ascii.eqb c LF); reflexivity.
  - cbn [existsb] in H. apply orb_false_iff in H as [Ha Hp].
    rewrite Ascii.eqb_sym in Ha.
    cbn [length app getline_chars]. rewrite Ha, (IH Hp).
    destruct tail as [|c rest]; [reflexivity|].
    destruct (Ascii.eqb c LF); reflexivity.
Qed.

(** The constructor's [getline] on a file that begins with the prefix. *)
Lemma getline_prefixed (tail : bytes) :
  let data := TpSensorDriver.skip_prefix_ ++ tail in
  getline (mkIstream data data 0 false false)
          (repeat NUL (length TpSensorDriver.skip_prefix_))
          (length TpSensorDriver.skip_prefix_ + 1) =
  (match tail with
   | [] => mkIstream data [] 13 true false
   | c :: rest =>
       if Ascii.eqb c LF then mkIstream data rest 14 false false
       else mkIstream data tail 13 false true
   end, TpSensorDriver.skip_prefix_).
Proof.
  intro data.
  unfold getline. cbn [good eofbit failbit negb andb unread contents offset].
  change (length TpSensorDriver.skip_prefix_ + 1 - 1)%nat
    with (length TpSensorDriver.skip_prefix_).
  unfold data at 1. rewrite getline_chars_prefix by reflexivity.
  assert (L : length data = (13 + length tail)%nat).
  { unfold data. rewrite length_app. reflexivity. }
  destruct tail as [|c rest].
  - rewrite L. reflexivity.
  - destruct (Ascii.eqb c LF); rewrite L; cbn [length].
    + replace (13 + S (length rest) - length rest)%nat with 14%nat by lia.
      reflexivity.
    + replace (13 + S (length rest) - S (length rest))%nat with 13%nat by lia.
      reflexivity.
Qed.

(** The constructor on a file that begins with the prefix. *)
Lemma TpSensorDriver_new_prefixed (path : string) (w : World) (tail : bytes) :
  files w path = Content (TpSensorDriver.skip_prefix_ ++ tail) ->
  TpSensorDriver.new path w =
  (Ok (TpSensorDriver.mk
         (SensorDriver.mk path (counted tail) (repeat 0 (counted tail)))
         (position_behind_prefix tail)), w).
Proof.
  intro F. rewrite TpSensorDriver_new_eq, F. cbv zeta.
  rewrite getline_prefixed. cbn [fst snd].
  destruct (list_eq_dec ascii_dec TpSensorDriver.skip_prefix_
              TpSensorDriver.skip_prefix_) as [_|N]; [|congruence].
  unfold SensorDriver.set_num_temps, resize.
  cbn [SensorDriver.path_ SensorDriver.correction_ length].
  rewrite firstn_nil, Nat.sub_0_r. unfold counted, behind_prefix.
  destruct tail as [|c rest]; [reflexivity|].
  unfold position_behind_prefix. destruct (Ascii.eqb c LF); reflexivity.
Qed.

(** The constructor on a readable file that does not begin with the
    prefix. *)
Lemma TpSensorDriver_new_other (path : string) (w : World) (data : bytes) :
  files w path = Content data ->
  prefixb TpSensorDriver.skip_prefix_ data = false ->
  TpSensorDriver.new path w =
  (Throw (SystemError (Text (path ++ ": Unknown file format."))), w).
Proof.
  intros F P. rewrite TpSensorDriver_new_eq, F. cbv zeta.
  destruct (list_eq_dec ascii_dec _ _) as [E|_]; [exfalso|reflexivity].
  unfold getline in E.
  cbn [good eofbit failbit negb andb unread contents offset] in E.
  pose proof (getline_chars_split
                (length TpSensorDriver.skip_prefix_ + 1 - 1) data) as S.
  destruct (getline_chars _ data) as [[[stored rest] e] fl].
  destruct S as ((mid & Hd) & Hl & _).
  cbn [snd] in E. apply store_prefix_iff in E; [|exact Hl].
  assert (T : prefixb TpSensorDriver.skip_prefix_ data = true).
  { apply prefixb_spec. exists (mid ++ rest). rewrite <- E. exact Hd. }
  congruence.
Qed.

Lemma skipn_prefix (tail : bytes) :
  skipn 13 (TpSensorDriver.skip_prefix_ ++ tail) = tail.
Proof. reflexivity. Qed.

(** X3: the constructor of TpSensorDriver accepts a readable file when,
    and only when, it begins with the 13 characters of "temperatures:".  Any
    other content gives the SystemError "<path>: Unknown file format." and
    leaves the world as it was.  An accepted file gives a driver for that
    path with one zero offset per channel; the position it remembers is 13,
    or 14 when a line feed follows the prefix at once, or -1 when the file
    ends with the prefix. *)
Theorem tp_sensor_format_check (path : string) (w : World) (data : bytes) :
  files w path = Content data ->
  (prefixb TpSensorDriver.skip_prefix_ data = false ->
     TpSensorDriver.new path w =
     (Throw (SystemError (Text (path ++ ": Unknown file format."))), w)) /\
  (prefixb TpSensorDriver.skip_prefix_ data = true ->
     exists d,
       TpSensorDriver.new path w = (Ok d, w) /\
       SensorDriver.path_ (TpSensorDriver.base d) = path /\
       SensorDriver.correction_ (TpSensorDriver.base d)
         = repeat 0 (TpSensorDriver.num_temps d) /\
       TpSensorDriver.skip_bytes_ d = position_behind_prefix (skipn 13 data)).
Proof.
  intro F. split; intro P.
  - exact (TpSensorDriver_new_other path w data F P).
  - apply prefixb_spec in P as (tail & ->).
    rewrite (TpSensorDriver_new_prefixed path w tail F), skipn_prefix.
    eexists. repeat split.
Qed.

Lemma tp_sensor_format_check_witness :
  TpSensorDriver.new proc_thermal
    (world_with_file proc_thermal (lit "temperature 45 50" ++ [LF]) 0)
  = (Throw (SystemError (Text (proc_thermal ++ ": Unknown file format."))),
     world_with_file proc_thermal (lit "temperature 45 50" ++ [LF]) 0) /\
  exists d,
    TpSensorDriver.new proc_thermal
      (world_with_file proc_thermal (lit "temperatures:" ++ TAB :: lit "45 x") 0)
    = (Ok d, world_with_file proc_thermal (lit "temperatures:" ++ TAB :: lit "45 x") 0) /\
    SensorDriver.path_ (TpSensorDriver.base d) = proc_thermal /\
    SensorDriver.correction_ (TpSensorDriver.base d)
      = repeat 0 (TpSensorDriver.num_temps d) /\
    TpSensorDriver.skip_bytes_ d = 13.
Proof.
  split.
  - apply (proj1 (tp_sensor_format_check proc_thermal
                    (world_with_file proc_thermal (lit "temperature 45 50" ++ [LF]) 0)
                    (lit "temperature 45 50" ++ [LF]) eq_refl)).
    reflexivity.
  - apply (proj2 (tp_sensor_format_check proc_thermal
                    (world_with_file proc_thermal
                       (lit "temperatures:" ++ TAB :: lit "45 x") 0)
                    (lit "temperatures:" ++ TAB :: lit "45 x") eq_refl)).
    reflexivity.
Defined.

(** ** Reading the file the constructor has counted *)

(** A value that [operator>>] delivers fits an [int]. *)
Lemma extract_int_in_range (f : istream) :
  failbit (fst (extract_int f)) = false ->
  in_int_range (snd (extract_int f)) = true.
Proof.
  unfold extract_int. destruct (good f); [|discriminate].
  destruct (skip_ws (unread f)) as [|c l']; [discriminate|].
  destruct (if Ascii.eqb c "-" then (true, l')
            else if Ascii.eqb c "+" then (false, l') else (false, c :: l'))
    as [neg l1].
  destruct (take_digits 0 l1) as [[v nd] rest].
  cbn [fst snd failbit].
  destruct (Nat.eqb nd 0); [discriminate|]. cbn [orb].
  destruct (in_int_range (if neg then - v else v)) eqn:R; [|discriminate].
  intros _. exact R.
Qed.

(** After a failure that did not reach the end of the file the loop of
    [read_temps] extracts nothing more and never ends; after one that did, it
    ends at once. *)
Lemma read_values_failed (corr : list Z) (tidx : nat) (fuel : nat) :
  forall f : istream,
    failbit f = true ->
    read_values fuel corr f tidx =
    (if eofbit f then match fuel with O => OutOfFuel | S _ => Ok tt end
     else OutOfFuel, []).
Proof.
  induction fuel as [|fuel IH]; intros f Hf.
  - cbn [read_values]. destruct (eofbit f); reflexivity.
  - cbn [read_values]. destruct (eofbit f) eqn:He; [reflexivity|].
    unfold extract_int, good. rewrite He, Hf. cbn [negb andb failbit set_failbit].
    rewrite (IH (set_failbit f) eq_refl). cbn [eofbit set_failbit]. rewrite He.
    reflexivity.
Qed.

Lemma count_temps_S (fuel : nat) :
  forall (f : istream) (count : nat),
    count_numbers fuel f (S count) =
    S (count_numbers fuel f count).
Proof.
  induction fuel as [|fuel IH]; intros f count; cbn [count_numbers];
    [reflexivity|].
  destruct (eofbit f || failbit f); [reflexivity|].
  destruct (extract_int f) as [f' tmp].
  destruct (failbit f'); apply IH.
Qed.

(** The loop of [read_temps] on the stream that the counting loop of the
    constructor has run over, with a zero offset for every number counted:
    it appends one value per round until the numbers counted are used up, and
    then either ends or goes on for ever. *)
Lemma read_values_counted (corr : list Z) (fuel : nat) :
  forall (f : istream) (tidx : nat),
    let n := count_numbers (S (length (unread f))) f 0 in
    failbit f = false ->
    (forall i, (tidx <= i < tidx + n)%nat -> nth_error corr i = Some 0) ->
    length (snd (read_values fuel corr f tidx)) = Nat.min fuel n /\
    (fst (read_values fuel corr f tidx) = Ok tt \/
     fst (read_values fuel corr f tidx) = OutOfFuel) /\
    (fst (read_values fuel corr f tidx) = Ok tt -> (n < fuel)%nat).
Proof.
  induction fuel as [|fuel IH]; intros f tidx n Hf Hc.
  - cbn [read_values fst snd length]. split; [reflexivity|].
    split; [right; reflexivity|discriminate].
  - subst n. revert Hc. cbn [read_values count_numbers].
    rewrite Hf, orb_false_r.
    destruct (eofbit f) eqn:He.
    { intros _. cbn [fst snd length]. rewrite Nat.min_0_r.
      split; [reflexivity|]. split; [left; reflexivity|lia]. }
    pose proof (extract_int_progress f) as Pr.
    pose proof (extract_int_in_range f) as Rg.
    destruct (extract_int f) as [f' tmp]. cbn [fst snd] in Pr, Rg.
    destruct (failbit f') eqn:Hf'.
    + rewrite count_temps_halted by (rewrite Hf', orb_true_r; reflexivity).
      intros _. rewrite (read_values_failed corr tidx fuel f' Hf').
      cbn [fst snd length]. rewrite Nat.min_0_r. split; [reflexivity|].
      split.
      * destruct (eofbit f'); [destruct fuel|]; auto.
      * destruct (eofbit f'); [destruct fuel|]; try discriminate. lia.
    + rewrite count_temps_S.
      assert (E : count_numbers (length (unread f)) f' 0 =
                  count_numbers (S (length (unread f'))) f' 0).
      { destruct (eofbit f') eqn:He'.
        - rewrite !count_temps_halted by (rewrite He'; reflexivity). reflexivity.
        - apply count_temps_fuel; [|lia].
          apply Pr. reflexivity. }
      rewrite E. intro Hc.
      rewrite (Hc tidx) by lia.
      rewrite Z.add_0_r, (Rg eq_refl).
      specialize (IH f' (S tidx) Hf').
      cbv zeta in IH.
      destruct IH as (L & R & K).
      { intros i Hi. apply Hc. lia. }
      destruct (read_values fuel corr f' (S tidx)) as [r l].
      cbn [fst snd length] in *. rewrite L.
      split; [reflexivity|]. split; [exact R|]. intro Q. specialize (K Q). lia.
Qed.

(** X4: a driver that the constructor of TpSensorDriver has returned,
    reading a file with the content the constructor saw.  When the file holds
    the prefix and nothing else, the driver has no channel and every read
    fails with an IOerror under MSG_T_GET whose code is EINVAL.  Otherwise the
    read never throws and never runs past the correction vector: it appends
    one value per round until the [num_temps] values are there, and it
    returns only with all of them; what is left open is whether it returns at
    all. *)
Theorem tp_read_after_construction
        (path : string) (w w0 w' : World) (data : bytes)
        (d : TpSensorDriver.obj) (fuel : nat) :
  files w path = Content data ->
  TpSensorDriver.new path w = (Ok d, w0) ->
  files w' path = Content data ->
  let out := TpSensorDriver.read_temps fuel (d, w') in
  (data = TpSensorDriver.skip_prefix_ ->
     TpSensorDriver.num_temps d = 0%nat /\
     out = (Throw (IOerror (MSG_T_GET path) EINVAL), (d, set_errno EINVAL w'))) /\
  (data <> TpSensorDriver.skip_prefix_ ->
     exists vals,
       snd out = (d, append_temps vals w') /\
       length vals = Nat.min fuel (TpSensorDriver.num_temps d) /\
       (fst out = Ok tt \/ fst out = OutOfFuel) /\
       (fst out = Ok tt -> length vals = TpSensorDriver.num_temps d)).
Proof.
  intros F N F' out. subst out.
  destruct (prefixb TpSensorDriver.skip_prefix_ data) eqn:P.
  2:{ rewrite (TpSensorDriver_new_other path w data F P) in N. discriminate N. }
  apply prefixb_spec in P as (tail & ->).
  rewrite (TpSensorDriver_new_prefixed path w tail F) in N.
  injection N as <- <-.
  rewrite TpSensorDriver_read_temps_eq.
  cbn [TpSensorDriver.base TpSensorDriver.skip_bytes_ SensorDriver.path_
       SensorDriver.correction_].
  rewrite F'. cbv zeta.
  unfold TpSensorDriver.num_temps, SensorDriver.num_temps.
  cbn [TpSensorDriver.base SensorDriver.num_temps_].
  destruct tail as [|c rest].
  - split; [intros _|intro Q; rewrite app_nil_r in Q; congruence].
    split; reflexivity.
  - split.
    { intro Q. exfalso.
      apply (f_equal (@length ascii)) in Q. rewrite length_app in Q.
      cbn [length] in Q. lia. }
    intros _.
    assert (Z : forall i, (0 <= i < 0 + counted (c :: rest))%nat ->
                nth_error (repeat 0 (counted (c :: rest))) i = Some 0).
    { intros i Hi. rewrite nth_error_repeat.
      destruct (Nat.ltb_spec i (counted (c :: rest))); [reflexivity|lia]. }
    revert Z. unfold counted, behind_prefix, position_behind_prefix.
    destruct (Ascii.eqb c LF); intro Z.
    + change (14 <? 0) with false. cbv iota.
      change (Z.to_nat 14) with 14%nat.
      change (skipn 14 (TpSensorDriver.skip_prefix_ ++ c :: rest)) with rest.
      match type of Z with
      | context [count_numbers _ ?f 0] =>
          destruct (read_values_counted _ fuel f 0 eq_refl Z) as (L & R & K)
      end.
      eexists. split; [reflexivity|]. cbn [fst snd] in *.
      split; [exact L|]. split; [exact R|]. intro Q. specialize (K Q). lia.
    + change (13 <? 0) with false. cbv iota.
      change (Z.to_nat 13) with 13%nat.
      change (skipn 13 (TpSensorDriver.skip_prefix_ ++ c :: rest)) with (c :: rest).
      match type of Z with
      | context [count_numbers _ ?f 0] =>
          destruct (read_values_counted _ fuel f 0 eq_refl Z) as (L & R & K)
      end.
      eexists. split; [reflexivity|]. cbn [fst snd] in *.
      split; [exact L|]. split; [exact R|]. intro Q. specialize (K Q). lia.
Qed.

Lemma tp_read_after_construction_witness :
  let data := lit "temperatures:" ++ TAB :: lit "45 x" in
  let w := world_with_file proc_thermal data 0 in
  let d := TpSensorDriver.mk (SensorDriver.mk proc_thermal 1 [0]) 13 in
  exists vals,
    snd (TpSensorDriver.read_temps 5 (d, w)) = (d, append_temps vals w) /\
    length vals = Nat.min 5 (TpSensorDriver.num_temps d) /\
    (fst (TpSensorDriver.read_temps 5 (d, w)) = Ok tt \/
     fst (TpSensorDriver.read_temps 5 (d, w)) = OutOfFuel) /\
    (fst (TpSensorDriver.read_temps 5 (d, w)) = Ok tt ->
     length vals = TpSensorDriver.num_temps d).
Proof.
  intros data w d.
  apply (proj2 (tp_read_after_construction proc_thermal w w w data d 5
                  eq_refl eq_refl eq_refl)).
  discriminate.
Defined.

(** ** A thermal file with something else than numbers in it *)

(** Before white space and a character that begins no number, the
    extraction fails without reaching the end of the file, and stands before
    that character. *)
Lemma extract_int_garbage (f : istream) (ws : bytes) (g : ascii) (rest : bytes) :
  good f = true ->
  forallb isspace ws = true ->
  begins_no_number g = true ->
  unread f = ws ++ g :: rest ->
  extract_int f =
  (mkIstream (contents f) (g :: rest)
             (offset f + (length (unread f) - length (g :: rest))) false true, 0).
Proof.
  intros G Hw Hg U. unfold begins_no_number in Hg.
  rewrite !andb_true_iff, !negb_true_iff in Hg.
  destruct Hg as [[[Hs Hd] Hm] Hp].
  unfold extract_int. rewrite G, U, skip_ws_app by assumption.
  cbn [skip_ws]. rewrite Hs, Hm, Hp. cbn [take_digits]. rewrite Hd.
  reflexivity.
Qed.

Lemma garbage_no_digit_ahead (ws : bytes) (g : ascii) (rest : bytes) :
  forallb isspace ws = true ->
  begins_no_number g = true ->
  no_digit_ahead (ws ++ g :: rest) = true.
Proof.
  intros Hw Hg. destruct ws as [|c ws].
  - unfold begins_no_number in Hg. rewrite !andb_true_iff in Hg.
    cbn. tauto.
  - cbn in Hw. apply andb_true_iff in Hw as [Hc _].
    cbn. rewrite (isspace_not_digit c Hc). reflexivity.
Qed.

Lemma thermal_body_no_digit (items : list (bytes * number)) (trailing : bytes) :
  forallb well_formed_item items = true ->
  no_digit_ahead trailing = true ->
  no_digit_ahead (thermal_body items trailing) = true.
Proof.
  destruct items as [|[sep t] items]; intros Hi Ht; [exact Ht|].
  cbn [forallb] in Hi. apply andb_true_iff in Hi as [Hi _].
  apply well_formed_item_inv in Hi as (Hne & Hs & _).
  rewrite thermal_body_cons.
  destruct sep as [|c sep]; [congruence|].
  cbn in Hs. apply andb_true_iff in Hs as [Hc _].
  cbn. rewrite (isspace_not_digit c Hc). reflexivity.
Qed.

Lemma thermal_body_not_nil (items : list (bytes * number)) (trailing : bytes) :
  is_nil trailing = false -> is_nil (thermal_body items trailing) = false.
Proof.
  intro H. unfold thermal_body.
  destruct (concat _) as [|c l]; [exact H|reflexivity].
Qed.

(** The counting loop counts the numbers in front of the first thing that
    is no number. *)
Lemma count_temps_garbage (items : list (bytes * number))
      (ws : bytes) (g : ascii) (rest : bytes) :
  forall (fuel : nat) (f : istream) (count : nat),
    forallb well_formed_item items = true ->
    forallb isspace ws = true ->
    begins_no_number g = true ->
    good f = true ->
    unread f = thermal_body items (ws ++ g :: rest) ->
    (length items < fuel)%nat ->
    count_numbers fuel f count = (count + length items)%nat.
Proof.
  induction items as [|[sep t] items IH]; intros fuel f count Hi Hw Hg G U Hf.
  - destruct fuel as [|fuel]; [cbn in Hf; lia|].
    destruct (good_bits f G) as [Ge Gf].
    cbn [count_numbers]. rewrite Ge, Gf. cbn [orb].
    rewrite (extract_int_garbage f ws g rest G Hw Hg U).
    cbn [failbit]. rewrite count_temps_halted by reflexivity.
    cbn. lia.
  - destruct fuel as [|fuel]; [cbn in Hf; lia|].
    destruct (good_bits f G) as [Ge Gf].
    cbn [forallb] in Hi. apply andb_true_iff in Hi as [Hit Hi].
    apply well_formed_item_inv in Hit as (Hne & Hs & Hn).
    rewrite thermal_body_cons in U.
    cbn [count_numbers]. rewrite Ge, Gf. cbn [orb].
    rewrite (extract_int_number f sep t (thermal_body items (ws ++ g :: rest))
               G Hs Hn
               (thermal_body_no_digit items _ Hi
                  (garbage_no_digit_ahead ws g rest Hw Hg)) U).
    cbn [failbit].
    assert (B : is_nil (thermal_body items (ws ++ g :: rest)) = false).
    { apply thermal_body_not_nil. destruct ws; reflexivity. }
    rewrite (IH fuel _ (S count) Hi Hw Hg); cbn [length] in *; try lia.
    + unfold good. cbn [eofbit failbit]. rewrite B. reflexivity.
    + reflexivity.
Qed.

(** The loop of [read_temps] appends the numbers in front of the first
    thing that is no number, one per round, and then goes on for ever. *)
Lemma read_values_garbage (corr : list Z) (items : list (bytes * number))
      (ws : bytes) (g : ascii) (rest : bytes) :
  forall (fuel : nat) (f : istream) (tidx : nat) (cs : list Z),
    forallb well_formed_item items = true ->
    forallb isspace ws = true ->
    begins_no_number g = true ->
    good f = true ->
    unread f = thermal_body items (ws ++ g :: rest) ->
    skipn tidx corr = cs ->
    (length items <= length cs)%nat ->
    forallb in_int_range (corrected (readings items) cs) = true ->
    read_values fuel corr f tidx =
    (OutOfFuel, firstn fuel (corrected (readings items) cs)).
Proof.
  induction items as [|[sep t] items IH];
    intros fuel f tidx cs Hi Hw Hg G U Hc Hl Hr.
  - destruct (good_bits f G) as [Ge Gf].
    destruct fuel as [|fuel]; [reflexivity|].
    cbn [read_values]. rewrite Ge.
    rewrite (extract_int_garbage f ws g rest G Hw Hg U).
    cbn [failbit]. rewrite read_values_failed by reflexivity.
    cbn [eofbit readings map corrected]. rewrite firstn_nil. reflexivity.
  - destruct fuel as [|fuel]; [reflexivity|].
    destruct (good_bits f G) as [Ge Gf].
    cbn [forallb] in Hi. apply andb_true_iff in Hi as [Hit Hi].
    apply well_formed_item_inv in Hit as (Hne & Hs & Hn).
    rewrite thermal_body_cons in U.
    destruct cs as [|c cs]; [cbn in Hl; lia|].
    destruct (skipn_nth_error _ corr tidx c cs Hc) as [Hnth Hskip].
    unfold readings in *.
    cbn [map corrected snd forallb firstn] in Hr |- *.
    apply andb_true_iff in Hr as [Hr1 Hr].
    cbn [read_values]. rewrite Ge.
    rewrite (extract_int_number f sep t (thermal_body items (ws ++ g :: rest))
               G Hs Hn
               (thermal_body_no_digit items _ Hi
                  (garbage_no_digit_ahead ws g rest Hw Hg)) U).
    cbn [failbit]. rewrite Hnth, Hr1.
    assert (B : is_nil (thermal_body items (ws ++ g :: rest)) = false).
    { apply thermal_body_not_nil. destruct ws; reflexivity. }
    rewrite (IH fuel _ (S tidx) cs Hi Hw Hg); cbn [length] in *; try lia;
      try assumption; try reflexivity.
    unfold good. cbn [eofbit failbit]. rewrite B. reflexivity.
Qed.

Lemma corrected_zeros (vs : list Z) : corrected vs (repeat 0 (length vs)) = vs.
Proof.
  induction vs as [|v vs IH]; [reflexivity|].
  cbn [length repeat corrected]. rewrite IH, Z.add_0_r. reflexivity.
Qed.

Lemma corrected_readings_zeros (items : list (bytes * number)) :
  corrected (readings items) (repeat 0 (length items)) = readings items.
Proof.
  rewrite <- (corrected_zeros (readings items)) at 2.
  unfold readings. rewrite length_map. reflexivity.
Qed.

Lemma readings_in_range (items : list (bytes * number)) :
  forallb well_formed_item items = true ->
  forallb in_int_range (readings items) = true.
Proof.
  induction items as [|[sep t] items IH]; [reflexivity|].
  cbn [forallb readings map snd]. intro H.
  apply andb_true_iff in H as [Hit Hi].
  apply well_formed_item_inv in Hit as (_ & _ & Hn).
  apply well_formed_number_inv in Hn as (_ & _ & Hv).
  rewrite Hv. exact (IH Hi).
Qed.

(** X5: a thermal file that holds, behind its numbers, a character with
    which no number can begin (a letter, say).  The constructor accepts the
    file and counts the numbers in front of that character.  A read of the
    same content appends those numbers, one per round, and then never
    returns: the loop waits for the end of the file, which the failed stream
    cannot reach. *)
Theorem tp_read_never_returns_on_garbage
        (path : string) (w w' : World) (items : list (bytes * number))
        (ws : bytes) (g : ascii) (rest : bytes) :
  let body := thermal_body items (ws ++ g :: rest) in
  forallb well_formed_item items = true ->
  forallb isspace ws = true ->
  begins_no_number g = true ->
  starts_with_LF body = false ->
  files w path = Content (TpSensorDriver.skip_prefix_ ++ body) ->
  files w' path = Content (TpSensorDriver.skip_prefix_ ++ body) ->
  exists d,
    TpSensorDriver.new path w = (Ok d, w) /\
    TpSensorDriver.num_temps d = length items /\
    forall fuel,
      TpSensorDriver.read_temps fuel (d, w') =
      (OutOfFuel, (d, append_temps (firstn fuel (readings items)) w')).
Proof.
  intros body Hi Hw Hg HL F F'.
  assert (B : is_nil body = false).
  { apply thermal_body_not_nil. destruct ws; reflexivity. }
  destruct body as [|c tail] eqn:Eb; [discriminate B|].
  cbn [starts_with_LF] in HL.
  assert (C : counted (c :: tail) = length items).
  { unfold counted, behind_prefix. rewrite HL. rewrite <- Eb.
    rewrite (count_temps_garbage items ws g rest _ _ 0 Hi Hw Hg);
      try reflexivity.
    cbn [unread]. subst body.
    pose proof (thermal_body_length items (ws ++ g :: rest) Hi). lia. }
  rewrite (TpSensorDriver_new_prefixed path w (c :: tail) F), C.
  unfold position_behind_prefix. rewrite HL.
  eexists. split; [reflexivity|]. split; [reflexivity|].
  intro fuel. rewrite TpSensorDriver_read_temps_eq.
  cbn [TpSensorDriver.base TpSensorDriver.skip_bytes_ SensorDriver.path_
       SensorDriver.correction_].
  rewrite F'. cbv zeta. change (13 <? 0) with false. cbv iota.
  change (Z.to_nat 13) with 13%nat. rewrite skipn_prefix, <- Eb.
  rewrite (read_values_garbage _ items ws g rest fuel _ 0
             (repeat 0 (length items)) Hi Hw Hg); try reflexivity.
  - rewrite corrected_readings_zeros. reflexivity.
  - rewrite repeat_length. lia.
  - rewrite corrected_readings_zeros. exact (readings_in_range items Hi).
Qed.

Lemma tp_read_never_returns_on_garbage_witness :
  let data := lit "temperatures:" ++ TAB :: lit "45 50 n/a" ++ [LF] in
  let w := world_with_file proc_thermal data 0 in
  exists d,
    TpSensorDriver.new proc_thermal w = (Ok d, w) /\
    TpSensorDriver.num_temps d = 2%nat /\
    forall fuel,
      TpSensorDriver.read_temps fuel (d, w) =
      (OutOfFuel, (d, append_temps (firstn fuel [45; 50]) w)).
Proof.
  intros data w.
  apply (tp_read_never_returns_on_garbage proc_thermal w w
           [([TAB], mkNumber false (lit "45"));
            (lit " ", mkNumber false (lit "50"))]
           (lit " ") "n"%char (lit "/a" ++ [LF]));
    reflexivity.
Defined.

(** ** The number of values follows the file *)

Lemma skipn_nil_nth_error (A : Type) (l : list A) (n : nat) :
  skipn n l = [] -> nth_error l n = None.
Proof.
  revert l. induction n as [|n IH]; intros l H.
  - cbn in H. subst l. reflexivity.
  - destruct l as [|a l]; [reflexivity|]. apply (IH l H).
Qed.

Lemma corrected_length_min (vs cs : list Z) :
  length (corrected vs cs) = Nat.min (length vs) (length cs).
Proof.
  revert cs. induction vs as [|v vs IH]; intros [|c cs]; cbn [corrected length];
    try reflexivity.
  rewrite IH. reflexivity.
Qed.

(** With fewer offsets than the file has numbers, the loop of [read_temps]
    appends a value for every offset and then reads past the end of the
    correction vector. *)
Lemma read_values_short (corr : list Z) (items : list (bytes * number))
      (trailing : bytes) :
  forall (fuel : nat) (f : istream) (tidx : nat) (cs : list Z),
    forallb well_formed_item items = true ->
    forallb isspace trailing = true ->
    good f = true ->
    unread f = thermal_body items trailing ->
    skipn tidx corr = cs ->
    (length cs < length items)%nat ->
    forallb in_int_range (corrected (readings items) cs) = true ->
    (length cs < fuel)%nat ->
    read_values fuel corr f tidx =
    (Undefined, corrected (readings items) cs).
Proof.
  induction items as [|[sep t] items IH];
    intros fuel f tidx cs Hi Ht G U Hc Hl Hr Hf; [cbn in Hl; lia|].
  destruct fuel as [|fuel]; [lia|].
  destruct (good_bits f G) as [Ge Gf].
  cbn [forallb] in Hi. apply andb_true_iff in Hi as [Hit Hi].
  apply well_formed_item_inv in Hit as (Hne & Hs & Hn).
  rewrite thermal_body_cons in U.
  cbn [read_values]. rewrite Ge.
  rewrite (extract_int_number f sep t (thermal_body items trailing) G Hs Hn
             (thermal_body_no_digit_ahead items trailing Hi Ht) U).
  cbn [failbit].
  destruct cs as [|c cs].
  - rewrite (skipn_nil_nth_error _ corr tidx Hc). reflexivity.
  - destruct (skipn_nth_error _ corr tidx c cs Hc) as [Hnth Hskip].
    unfold readings in *. cbn [map corrected snd forallb length] in Hr, Hl, Hf |- *.
    apply andb_true_iff in Hr as [Hr1 Hr].
    rewrite Hnth, Hr1.
    destruct (body_nil_or_not (thermal_body items trailing)) as [B|B].
    + rewrite (thermal_body_nil_inv items trailing Hi (is_nil_inv _ B)) in Hl.
      cbn in Hl. lia.
    + rewrite (IH fuel _ (S tidx) cs Hi Ht); try assumption; try lia;
        try reflexivity.
      unfold good. cbn [eofbit failbit]. rewrite B. reflexivity.
Qed.

(** X6: how many values a read of a well-formed thermal file appends is
    decided by the file and the correction vector alone; [num_temps] plays no
    part.  A file with no more numbers than there are offsets gives one value
    per number and a normal return, also when the numbers are fewer than
    [num_temps].  A file with more numbers gives one value per offset, and
    then the read goes past the end of the correction vector. *)
Theorem tp_read_follows_the_file
        (d : TpSensorDriver.obj) (w : World)
        (items : list (bytes * number)) (trailing : bytes) (fuel : nat) :
  let corr := SensorDriver.correction_ (TpSensorDriver.base d) in
  files w (SensorDriver.path_ (TpSensorDriver.base d))
    = Content (thermal_file items trailing) ->
  well_formed_body items trailing = true ->
  TpSensorDriver.skip_bytes_ d = 13 ->
  forallb in_int_range (corrected (readings items) corr) = true ->
  (length items + 2 <= fuel)%nat ->
  TpSensorDriver.read_temps fuel (d, w) =
    (if (length corr <? length items)%nat then Undefined else Ok tt,
     (d, append_temps (corrected (readings items) corr) w)) /\
  length (corrected (readings items) corr)
    = Nat.min (length items) (length corr).
Proof.
  intros corr F WF P R Hf.
  split; [|rewrite corrected_length_min; unfold readings; rewrite length_map;
           reflexivity].
  destruct (Nat.ltb_spec (length corr) (length items)) as [L|L].
  - pose proof WF as WF'.
    apply well_formed_body_inv in WF' as (Hi & Ht & c & rest & B & Hc).
    rewrite TpSensorDriver_read_temps_eq. cbv zeta. rewrite F, P.
    change (13 <? 0) with false. cbv iota. change (Z.to_nat 13) with 13%nat.
    unfold thermal_file. rewrite skipn_prefix.
    fold corr.
    rewrite (read_values_short corr items trailing fuel _ 0 corr Hi Ht);
      try reflexivity; try assumption; lia.
  - exact (tp_read_temps_valid d w items trailing fuel F WF P L R Hf).
Qed.

Lemma tp_read_follows_the_file_witness :
  let w := world_with_file proc_thermal (lit "temperatures: 45 50 0" ++ [LF]) 0 in
  TpSensorDriver.read_temps 5
    (TpSensorDriver.mk (SensorDriver.mk proc_thermal 2 [1; 1]) 13, w) =
  (Undefined,
   (TpSensorDriver.mk (SensorDriver.mk proc_thermal 2 [1; 1]) 13,
    append_temps [46; 51] w)) /\
  TpSensorDriver.read_temps 5
    (TpSensorDriver.mk (SensorDriver.mk proc_thermal 4 [1; 1; 1; 1]) 13, w) =
  (Ok tt,
   (TpSensorDriver.mk (SensorDriver.mk proc_thermal 4 [1; 1; 1; 1]) 13,
    append_temps [46; 51; 1] w)).
Proof.
  intro w. split.
  - refine (proj1 (tp_read_follows_the_file
                    (TpSensorDriver.mk (SensorDriver.mk proc_thermal 2 [1; 1]) 13) w
                    [(lit " ", mkNumber false (lit "45"));
                     (lit " ", mkNumber false (lit "50"));
                     (lit " ", mkNumber false (lit "0"))] [LF] 5
                    eq_refl eq_refl eq_refl eq_refl _)).
    vm_compute. lia.
  - refine (proj1 (tp_read_follows_the_file
                    (TpSensorDriver.mk (SensorDriver.mk proc_thermal 4 [1; 1; 1; 1]) 13) w
                    [(lit " ", mkNumber false (lit "45"));
                     (lit " ", mkNumber false (lit "50"));
                     (lit " ", mkNumber false (lit "0"))] [LF] 5
                    eq_refl eq_refl eq_refl eq_refl _)).
    vm_compute. lia.
Defined.

(** ** Reads that fail *)

Lemma set_errno_keeps (e : Z) (w : World) :
  temp_state (set_errno e w) = temp_state w /\
  trace (set_errno e w) = trace w.
Proof. destruct w. split; reflexivity. Qed.

(** X7: a read that throws, on either of the two bindings, throws an
    IOerror under MSG_T_GET for the binding's own path, and has written
    nothing to the log.  It has appended nothing to the temperatures either,
    unless it is a read of the thinkpad binding on a file whose reads fail:
    there the loop can have appended values before the read that fails. *)
Theorem sensor_read_throws_only_IOerror
        (s : sensor) (fuel : nat) (w : World) (e : exn) :
  fst (sensor_read_temps fuel s w) = Throw e ->
  (exists code, e = IOerror (MSG_T_GET (sensor_path s)) code) /\
  trace (snd (sensor_read_temps fuel s w)) = trace w /\
  (can_throw_late s w = false ->
   temp_state (snd (sensor_read_temps fuel s w)) = temp_state w).
Proof.
  destruct s as [d|d]; unfold sensor_read_temps, sensor_path, can_throw_late.
  - rewrite HwmonSensorDriver_read_temps_eq. cbv zeta.
    destruct (files w (SensorDriver.path_ d)) as [code|data|code data|data code].
    + cbn [fst snd]. intro H. injection H as <-.
      split; [exists code; reflexivity|].
      split; [|intros _]; apply set_errno_keeps.
    + destruct (failbit _).
      * cbn [fst snd]. intro H. injection H as <-.
        split; [eexists; reflexivity|split; reflexivity].
      * destruct (nth_error _ 0) as [c|]; [|discriminate].
        destruct (in_int_range _); discriminate.
    + destruct (failbit _).
      * cbn [fst snd]. intro H. injection H as <-.
        split; [eexists; reflexivity|split; reflexivity].
      * destruct (nth_error _ 0) as [c|]; [|discriminate].
        destruct (in_int_range _); discriminate.
    + destruct (eofbit _).
      { cbn [fst snd]. intro H. injection H as <-.
        split; [eexists; reflexivity|].
        split; [|intros _]; apply set_errno_keeps. }
      destruct (failbit _).
      * cbn [fst snd]. intro H. injection H as <-.
        split; [eexists; reflexivity|split; reflexivity].
      * destruct (nth_error _ 0) as [c|]; [|discriminate].
        destruct (in_int_range _); discriminate.
  - rewrite TpSensorDriver_read_temps_eq. cbv zeta.
    destruct (files w (SensorDriver.path_ (TpSensorDriver.base d)))
      as [code|data|code data|data code]; cbn [read_fails].
    + cbn [fst snd]. intro H. injection H as <-.
      split; [exists code; reflexivity|].
      split; [|intros _]; apply set_errno_keeps.
    + destruct (TpSensorDriver.skip_bytes_ d <? 0).
      * cbn [fst snd]. intro H. injection H as <-.
        split; [eexists; reflexivity|].
        split; [|intros _]; apply set_errno_keeps.
      * cbn [fst snd]. intro H. exfalso.
        exact (read_values_no_throw _ _ _ _ _ H).
    + destruct (TpSensorDriver.skip_bytes_ d <? 0).
      * cbn [fst snd]. intro H. injection H as <-.
        split; [eexists; reflexivity|].
        split; [|intros _]; apply set_errno_keeps.
      * cbn [fst snd]. intro H. exfalso.
        exact (read_values_no_throw _ _ _ _ _ H).
    + destruct (TpSensorDriver.skip_bytes_ d <? 0).
      * cbn [fst snd]. intro H. injection H as <-.
        split; [eexists; reflexivity|].
        split; [apply set_errno_keeps|discriminate].
      * destruct (read_values_io _ _ _ _ _) as [r l]. cbn [fst snd].
        destruct r as [[]|x| |]; cbn [fst snd]; try discriminate.
        intro H. injection H as <-.
        split; [eexists; reflexivity|].
        split; [|discriminate].
        rewrite (proj2 (set_errno_keeps _ _)).
        unfold append_temps. destruct w; reflexivity.
Qed.

Lemma sensor_read_throws_only_IOerror_witness :
  let s := TpSensor (TpSensorDriver.mk (SensorDriver.mk proc_thermal 1 [0]) 13) in
  (exists code, IOerror (MSG_T_GET proc_thermal) 2
                = IOerror (MSG_T_GET (sensor_path s)) code) /\
  trace (snd (sensor_read_temps 3 s (failing_world 0))) = [] /\
  (can_throw_late s (failing_world 0) = false ->
   temp_state (snd (sensor_read_temps 3 s (failing_world 0))) = []).
Proof.
  intro s.
  apply (sensor_read_throws_only_IOerror s 3 (failing_world 0)
           (IOerror (MSG_T_GET proc_thermal) 2) eq_refl).
Defined.

(** ** HwmonSensorDriver on a file without a usable number *)

Lemma extract_int_no_number (f : istream) :
  good f = true ->
  holds_no_number (unread f) = true ->
  failbit (fst (extract_int f)) = true.
Proof.
  intros G H. unfold extract_int. rewrite G.
  unfold holds_no_number in H.
  destruct (skip_ws (unread f)) as [|c l']; [reflexivity|].
  unfold begins_no_number in H.
  rewrite !andb_true_iff, !negb_true_iff in H.
  destruct H as [[[Hs Hd] Hm] Hp].
  rewrite Hm, Hp. cbn [take_digits]. rewrite Hd. reflexivity.
Qed.

Lemma extract_int_overflow (f : istream) (sep : bytes) (t : number) (rest : bytes) :
  good f = true ->
  forallb isspace sep = true ->
  nonempty (digits t) = true ->
  forallb isdigit (digits t) = true ->
  no_digit_ahead rest = true ->
  in_int_range (number_value t) = false ->
  unread f = sep ++ number_text t ++ rest ->
  failbit (fst (extract_int f)) = true.
Proof.
  intros G Hs Hne Hd Hr Hv U.
  unfold extract_int. rewrite G, U, skip_ws_app by assumption.
  unfold number_text, number_value in *.
  destruct t as [[|] ds]; cbn [minus digits] in *.
  - cbn [app skip_ws]. change (isspace "-") with false. cbv iota.
    change (Ascii.eqb "-" "-") with true. cbv iota.
    rewrite (take_digits_app ds 0 rest Hd Hr).
    fold (digits_value ds). rewrite Hv.
    cbn [fst failbit negb]. apply orb_true_r.
  - destruct ds as [|c ds]; [discriminate Hne|].
    cbn [forallb] in Hd. apply andb_true_iff in Hd as [Hc Hd].
    cbn [app skip_ws]. rewrite (isdigit_not_space c Hc).
    destruct (isdigit_not_sign c Hc) as [E1 E2]. rewrite E1, E2.
    change (c :: ds ++ rest) with ((c :: ds) ++ rest).
    rewrite (take_digits_app (c :: ds) 0 rest).
    2:{ cbn [forallb]. rewrite Hc, Hd. reflexivity. }
    2:{ exact Hr. }
    fold (digits_value (c :: ds)). rewrite Hv.
    cbn [fst failbit negb]. apply orb_true_r.
Qed.

(** X8: HwmonSensorDriver::read_temps on a readable file that yields no
    [int]: a file that is empty or holds white space only, one whose first
    character after the white space begins no number, or one that begins with
    a number too large for an [int].  The read fails with an IOerror under
    MSG_T_GET; its code is the value [errno] had before the call, since the
    failed extraction sets none.  Nothing is appended and the world stays as
    it was. *)
Theorem hwmon_read_without_number (d : SensorDriver.obj) (w : World) (data : bytes) :
  files w (SensorDriver.path_ d) = Content data ->
  holds_no_number data = true \/ begins_with_overflow data ->
  HwmonSensorDriver.read_temps (d, w) =
  (Throw (IOerror (MSG_T_GET (SensorDriver.path_ d)) (errno w)), (d, w)).
Proof.
  intros F H. rewrite HwmonSensorDriver_read_temps_eq. cbv zeta. rewrite F.
  assert (E : failbit (fst (extract_int (mkIstream data data 0 false false))) = true).
  { destruct H as [H|(sep & t & rest & U & Hs & Hne & Hd & Hr & Hv)].
    - apply extract_int_no_number; [reflexivity|exact H].
    - apply (extract_int_overflow _ sep t rest); try assumption; reflexivity. }
  rewrite E. reflexivity.
Qed.

Lemma hwmon_read_without_number_witness :
  HwmonSensorDriver.read_temps
    (SensorDriver.mk sys_temp 1 [0], world_with_file sys_temp (lit "n/a" ++ [LF]) 0)
  = (Throw (IOerror (MSG_T_GET sys_temp) 0),
     (SensorDriver.mk sys_temp 1 [0], world_with_file sys_temp (lit "n/a" ++ [LF]) 0)) /\
  HwmonSensorDriver.read_temps
    (SensorDriver.mk sys_temp 1 [0],
     world_with_file sys_temp (lit "4294967296" ++ [LF]) 0)
  = (Throw (IOerror (MSG_T_GET sys_temp) 0),
     (SensorDriver.mk sys_temp 1 [0],
      world_with_file sys_temp (lit "4294967296" ++ [LF]) 0)).
Proof.
  split.
  - apply (hwmon_read_without_number (SensorDriver.mk sys_temp 1 [0])
             (world_with_file sys_temp (lit "n/a" ++ [LF]) 0)
             (lit "n/a" ++ [LF]) eq_refl).
    left. reflexivity.
  - apply (hwmon_read_without_number (SensorDriver.mk sys_temp 1 [0])
             (world_with_file sys_temp (lit "4294967296" ++ [LF]) 0)
             (lit "4294967296" ++ [LF]) eq_refl).
    right. exists [], (mkNumber false (lit "4294967296")), [LF].
    repeat split; reflexivity.
Defined.

(** ** The value HwmonSensorDriver reads *)

(** X9: HwmonSensorDriver::read_temps on a file that begins with a number
    of millidegrees appends one value: the whole degrees, rounded toward zero
    (so -999 gives 0 and not -1), plus the first offset.  What follows the
    number in the file and what follows the first offset in the correction
    vector play no part. *)
Theorem hwmon_read_rounds_toward_zero
        (d : SensorDriver.obj) (w : World) (sep : bytes) (t : number)
        (rest : bytes) (c : Z) (cs : list Z) :
  files w (SensorDriver.path_ d) = Content (sep ++ number_text t ++ rest) ->
  forallb isspace sep = true ->
  well_formed_number t = true ->
  no_digit_ahead rest = true ->
  SensorDriver.correction_ d = c :: cs ->
  in_int_range (Z.quot (number_value t) 1000 + c) = true ->
  exists q,
    HwmonSensorDriver.read_temps (d, w) = (Ok tt, (d, append_temps [q + c] w)) /\
    Z.abs (1000 * q) <= Z.abs (number_value t) < Z.abs (1000 * q) + 1000 /\
    0 <= q * number_value t.
Proof.
  intros F Hs Ht Hr Hc Hv.
  exists (Z.quot (number_value t) 1000). split.
  - exact (hwmon_read_temps_valid d w sep t rest c cs F Hs Ht Hr Hc Hv).
  - pose proof (Z.quot_rem' (number_value t) 1000) as E.
    destruct (Z.le_ge_cases 0 (number_value t)) as [P|P].
    + pose proof (Z.rem_bound_pos_pos (number_value t) 1000 eq_refl P). nia.
    + pose proof (Z.rem_bound_pos_neg (number_value t) 1000 eq_refl P). nia.
Qed.

Lemma hwmon_read_rounds_toward_zero_witness :
  exists q,
    HwmonSensorDriver.read_temps
      (SensorDriver.mk sys_temp 1 [2],
       world_with_file sys_temp (lit "-999" ++ [LF]) 0)
    = (Ok tt,
       (SensorDriver.mk sys_temp 1 [2],
        append_temps [q + 2] (world_with_file sys_temp (lit "-999" ++ [LF]) 0))) /\
    Z.abs (1000 * q) <= Z.abs (-999) < Z.abs (1000 * q) + 1000 /\
    0 <= q * -999.
Proof.
  apply (hwmon_read_rounds_toward_zero (SensorDriver.mk sys_temp 1 [2])
           (world_with_file sys_temp (lit "-999" ++ [LF]) 0)
           [] (mkNumber true (lit "999")) [LF] 2 []);
    reflexivity.
Defined.

(** ** Files whose reads fail *)

(** On a file whose reads fail, the loop of [read_temps] does not end
    normally: its only way out is the end of the file, and there the read
    fails. *)
Lemma read_values_io_fails (e : Z) (fuel : nat) (corr : list Z) :
  forall (f : istream) (tidx : nat),
    eofbit f = false ->
    fst (read_values_io (Some e) fuel corr f tidx) <> Ok tt.
Proof.
  induction fuel as [|fuel IH]; intros f tidx E; cbn [read_values_io].
  - discriminate.
  - rewrite E. destruct (extract_int f) as [f' tmp]. cbn [meets_error].
    destruct (eofbit f') eqn:E'; [discriminate|].
    destruct (failbit f'); [apply IH; exact E'|].
    destruct (nth_error corr tidx) as [c|]; [|discriminate].
    destruct (in_int_range (tmp + c)); [|discriminate].
    specialize (IH f' (S tidx) E').
    destruct (read_values_io (Some e) fuel corr f' (S tidx)) as [r l].
    exact IH.
Qed.

(** X24: TpSensorDriver::read_temps on a file whose reads fail with OS error
    [e] where the file would end, for a binding with a skip offset that is
    not negative.  The call never ends normally (the loop leaves only at the
    end of the file, and the read that would find it fails).  When it throws,
    it throws the IOerror MSG_T_GET for the binding's path with [e], and
    [errno] is [e].  The log is untouched, and the temperatures that the
    aggregate held are still there, in front of whatever the loop appended
    before the read that failed. *)
Theorem failing_reads_reach_the_handler
        (fuel : nat) (d : TpSensorDriver.obj) (w : World) (data : bytes) (e : Z) :
  files w (SensorDriver.path_ (TpSensorDriver.base d)) = Failing data e ->
  0 <= TpSensorDriver.skip_bytes_ d ->
  let out := TpSensorDriver.read_temps fuel (d, w) in
  fst out <> Ok tt /\
  (forall x, fst out = Throw x ->
     x = IOerror (MSG_T_GET (SensorDriver.path_ (TpSensorDriver.base d))) e /\
     errno (snd (snd out)) = e) /\
  trace (snd (snd out)) = trace w /\
  exists values, temp_state (snd (snd out)) = temp_state w ++ values.
Proof.
  intros F K out. subst out.
  rewrite TpSensorDriver_read_temps_eq. cbv zeta. rewrite F.
  replace (TpSensorDriver.skip_bytes_ d <? 0) with false
    by (symmetry; apply Z.ltb_ge; exact K).
  pose proof (read_values_io_fails e fuel
                (SensorDriver.correction_ (TpSensorDriver.base d))
                (mkIstream data (skipn (Z.to_nat (TpSensorDriver.skip_bytes_ d)) data)
                   (Z.to_nat (TpSensorDriver.skip_bytes_ d)) false false)
                0 eq_refl) as N.
  destruct (read_values_io _ _ _ _ _) as [r l]. cbn [fst snd] in *.
  destruct r as [[]|x| |]; cbn [fst snd].
  - exfalso. apply N. reflexivity.
  - split; [discriminate|]. split.
    + intros y Y. injection Y as <-. split; [reflexivity|].
      destruct w; reflexivity.
    + split; [destruct w; reflexivity|].
      exists l. destruct w; reflexivity.
  - split; [discriminate|]. split; [discriminate|].
    split; [destruct w; reflexivity|]. exists l. destruct w; reflexivity.
  - split; [discriminate|]. split; [discriminate|].
    split; [destruct w; reflexivity|]. exists l. destruct w; reflexivity.
Qed.

Lemma failing_reads_reach_the_handler_witness :
  let d := TpSensorDriver.mk (SensorDriver.mk proc_thermal 2 [0; 0]) 13 in
  let w := world_with proc_thermal
             (Failing (lit "temperatures: 45 50" ++ [LF]) 5) 0 in
  let out := TpSensorDriver.read_temps 5 (d, w) in
  fst out <> Ok tt /\
  (forall x, fst out = Throw x ->
     x = IOerror (MSG_T_GET proc_thermal) 5 /\ errno (snd (snd out)) = 5) /\
  trace (snd (snd out)) = trace w /\
  exists values, temp_state (snd (snd out)) = temp_state w ++ values.
Proof.
  intros d w.
  apply (failing_reads_reach_the_handler 5 d w
           (lit "temperatures: 45 50" ++ [LF]) 5 eq_refl).
  vm_compute. discriminate.
Defined.

(** X25: the handlers of read errors at work, on files whose reads fail
    with OS error 5 where the file would end.  The constructor of a
    vendor-ACPI sensor binding on "temperatures: 45 50" and a line feed
    throws the IOerror MSG_SENSOR_INIT with 5.  A read_temps() of such a
    binding on that file appends 45 and 50 and then throws the IOerror
    MSG_T_GET with 5.  A read_temps() of a sysfs-hwmon binding throws the
    IOerror MSG_T_GET with 5 on "43000" with nothing behind it, where the
    extraction runs into the failing read, and appends 43 on "43000" and a
    line feed, where it does not.  The constructor of a vendor-ACPI fan
    binding on the status text that thinkpad_acpi prints throws the IOerror
    MSG_FAN_INIT with 5. *)
Theorem read_errors_at_the_handlers :
  let thermal := Failing (lit "temperatures: 45 50" ++ [LF]) 5 in
  let dt := TpSensorDriver.mk (SensorDriver.mk proc_thermal 2 [0; 0]) 13 in
  let dh := SensorDriver.mk sys_temp 1 [0] in
  fst (TpSensorDriver.new proc_thermal (world_with proc_thermal thermal 0)) =
    Throw (IOerror (MSG_SENSOR_INIT proc_thermal) 5) /\
  (fst (TpSensorDriver.read_temps 5 (dt, world_with proc_thermal thermal 0)) =
     Throw (IOerror (MSG_T_GET proc_thermal) 5) /\
   temp_state
     (snd (snd (TpSensorDriver.read_temps 5
                  (dt, world_with proc_thermal thermal 0)))) = [45; 50]) /\
  (fst (HwmonSensorDriver.read_temps
          (dh, world_with sys_temp (Failing (lit "43000") 5) 0)) =
     Throw (IOerror (MSG_T_GET sys_temp) 5) /\
   temp_state
     (snd (snd (HwmonSensorDriver.read_temps
                  (dh, world_with sys_temp (Failing (lit "43000") 5) 0)))) = []) /\
  (fst (HwmonSensorDriver.read_temps
          (dh, world_with sys_temp (Failing (lit "43000" ++ [LF]) 5) 0)) = Ok tt /\
   temp_state
     (snd (snd (HwmonSensorDriver.read_temps
                  (dh, world_with sys_temp (Failing (lit "43000" ++ [LF]) 5) 0))))
   = [43]) /\
  fst (TpFanDriver.new proc_fan
         (world_with proc_fan (Failing (text_of_lines fan_status_lines) 5) 0)) =
    Throw (IOerror (MSG_FAN_INIT proc_fan) 5).
Proof.
  cbv zeta. repeat split; vm_compute; reflexivity.
Qed.

(** ** What HwmonFanDriver remembers and writes back *)

Lemma HwmonFanDriver_destroy_eq (d : FanDriver.obj) (w : World) :
  HwmonFanDriver.destroy (d, w) =
  (match write_reply w (writes_done w) with
   | None => Ok tt
   | Some e => Throw (IOerror (MSG_FAN_RESET (FanDriver.path_ d)) e)
   end,
   (d, after_write (FanDriver.path_ d ++ "_enable")%string
         (FanDriver.initial_state_ d) w)).
Proof.
  unfold HwmonFanDriver.destroy, bind, this, gets, lift; simpl.
  rewrite guarded_write_eq.
  destruct (write_reply w (writes_done w)); reflexivity.
Qed.

Lemma skipn_repeat (A : Type) (x : A) (k n : nat) :
  skipn k (repeat x n) = repeat x (n - k).
Proof.
  revert n. induction k as [|k IH]; intro n.
  - rewrite Nat.sub_0_r. reflexivity.
  - destruct n as [|n]; [reflexivity|]. cbn [repeat skipn]. apply IH.
Qed.

(** A text without line feed that the array has room for is extracted
    whole, up to the end of the file. *)
Lemma getline_chars_eof (l : bytes) :
  forall room : nat,
    (length l <= room)%nat ->
    existsb (Ascii.eqb LF) l = false ->
    getline_chars room l = (l, [], true, false).
Proof.
  induction l as [|c l IH]; intros room L H.
  - destruct room; reflexivity.
  - cbn [existsb] in H. apply orb_false_iff in H as [Hc Hl].
    rewrite Ascii.eqb_sym in Hc.
    destruct room as [|room]; [cbn in L; lia|].
    cbn [getline_chars]. rewrite Hc, (IH room); [reflexivity| |exact Hl].
    cbn in L. lia.
Qed.

(** The line in the 64 bytes of the constructor's [line]: the characters,
    then NUL up to the end. *)
Lemma store_in_64 (line : bytes) :
  (length line <= 62)%nat ->
  store (repeat NUL 64) (line ++ [NUL]) = line ++ repeat NUL (64 - length line).
Proof.
  intro L.
  destruct (store_line (repeat NUL 64) line) as [E _].
  { rewrite repeat_length. lia. }
  rewrite E, skipn_repeat.
  replace (64 - length line)%nat with (S (64 - S (length line))) by lia.
  reflexivity.
Qed.

(** X10: HwmonFanDriver on a "_enable" file whose first line has at most
    62 characters (ended by a line feed, or by the end of a file that is not
    empty).  The constructor succeeds and remembers 64 bytes: the line,
    filled up with NUL.  The destructor makes one write attempt to the
    "_enable" file with exactly those 64 bytes, and a failure of it is an
    IOerror under MSG_FAN_RESET with the OS error. *)
Theorem hwmon_fan_restores_first_line
        (path : string) (w : World) (line data : bytes) :
  (length line <= 62)%nat ->
  existsb (Ascii.eqb LF) line = false ->
  files w (path ++ "_enable")%string = Content data ->
  (exists rest, data = line ++ LF :: rest) \/ (data = line /\ line <> []) ->
  let saved := line ++ repeat NUL (64 - length line) in
  let d := FanDriver.mk path 0 0 saved 0 in
  HwmonFanDriver.new path w = (Ok d, w) /\
  length saved = 64%nat /\
  forall w1,
    HwmonFanDriver.destroy (d, w1) =
    (match write_reply w1 (writes_done w1) with
     | None => Ok tt
     | Some e => Throw (IOerror (MSG_FAN_RESET path) e)
     end,
     (d, after_write (path ++ "_enable")%string saved w1)).
Proof.
  intros L H F S saved d. split; [|split].
  - rewrite HwmonFanDriver_new_eq, F. cbv zeta.
    unfold getline. cbn [good eofbit failbit negb andb unread contents offset].
    change (63 - 1)%nat with 62%nat.
    destruct S as [(rest & ->)|(-> & Hne)].
    + rewrite (getline_chars_line line 62 rest L H).
      rewrite length_app. cbn [length fst snd failbit orb].
      replace (length line + S (length rest) - length rest)%nat
        with (S (length line)) by lia.
      cbn [Nat.eqb]. rewrite (store_in_64 line L). reflexivity.
    + rewrite (getline_chars_eof line 62 L H).
      cbn [length fst snd failbit orb]. rewrite Nat.sub_0_r.
      destruct line as [|c line]; [congruence|].
      cbn [length Nat.eqb]. rewrite (store_in_64 (c :: line) L). reflexivity.
  - unfold saved. rewrite length_app, repeat_length. lia.
  - intro w1. apply HwmonFanDriver_destroy_eq.
Qed.

Lemma hwmon_fan_restores_first_line_witness :
  let saved := lit "2" ++ repeat NUL 63 in
  let d := FanDriver.mk sys_pwm 0 0 saved 0 in
  let w := world_with_file (sys_pwm ++ "_enable") (lit "2" ++ [LF]) 0 in
  HwmonFanDriver.new sys_pwm w = (Ok d, w) /\
  length saved = 64%nat /\
  forall w1,
    HwmonFanDriver.destroy (d, w1) =
    (match write_reply w1 (writes_done w1) with
     | None => Ok tt
     | Some e => Throw (IOerror (MSG_FAN_RESET sys_pwm) e)
     end,
     (d, after_write (sys_pwm ++ "_enable")%string saved w1)).
Proof.
  intros saved d w.
  refine (hwmon_fan_restores_first_line sys_pwm w (lit "2") (lit "2" ++ [LF])
            _ eq_refl eq_refl _).
  - vm_compute. lia.
  - left. exists []. reflexivity.
Defined.

(** X11: HwmonFanDriver's constructor on a "_enable" file that can be
    opened but gives no line: an empty file, or one whose first 63 characters
    hold no line feed.  It fails with an IOerror under MSG_FAN_INIT whose code
    is the value [errno] had before, and leaves the world as it was. *)
Theorem hwmon_fan_rejects_first_line (path : string) (w : World) (data : bytes) :
  files w (path ++ "_enable")%string = Content data ->
  data = [] \/
  (exists (p : bytes) (c : ascii) (tail : bytes),
     data = p ++ c :: tail /\ length p = 62%nat /\
     existsb (Ascii.eqb LF) p = false /\ Ascii.eqb c LF = false) ->
  HwmonFanDriver.new path w =
  (Throw (IOerror (MSG_FAN_INIT path) (errno w)), w).
Proof.
  intros F H. rewrite HwmonFanDriver_new_eq, F. cbv zeta.
  unfold getline. cbn [good eofbit failbit negb andb unread contents offset].
  change (63 - 1)%nat with 62%nat.
  destruct H as [->|(p & c & tail & -> & L & H & Hc)]; [reflexivity|].
  rewrite <- L, (getline_chars_prefix p (c :: tail) H), Hc. reflexivity.
Qed.

Lemma hwmon_fan_rejects_first_line_witness :
  HwmonFanDriver.new sys_pwm (world_with_file (sys_pwm ++ "_enable") [] 0) =
  (Throw (IOerror (MSG_FAN_INIT sys_pwm) 0),
   world_with_file (sys_pwm ++ "_enable") [] 0) /\
  HwmonFanDriver.new sys_pwm
    (world_with_file (sys_pwm ++ "_enable") (repeat "1"%char 63 ++ [LF]) 0) =
  (Throw (IOerror (MSG_FAN_INIT sys_pwm) 0),
   world_with_file (sys_pwm ++ "_enable") (repeat "1"%char 63 ++ [LF]) 0).
Proof.
  split.
  - apply (hwmon_fan_rejects_first_line sys_pwm
             (world_with_file (sys_pwm ++ "_enable") [] 0) [] eq_refl).
    left. reflexivity.
  - apply (hwmon_fan_rejects_first_line sys_pwm
             (world_with_file (sys_pwm ++ "_enable") (repeat "1"%char 63 ++ [LF]) 0)
             (repeat "1"%char 63 ++ [LF]) eq_refl).
    right. exists (repeat "1"%char 62), "1"%char, [LF].
    repeat split; reflexivity.
Defined.

(** ** The watchdog over several polling cycles *)

Lemma count_clock_iter (k : nat) (w : World) :
  clock (Nat.iter k count_clock w) = clock w /\
  clock_reads (Nat.iter k count_clock w) = (clock_reads w + k)%nat /\
  trace (Nat.iter k count_clock w) = trace w /\
  writes_done (Nat.iter k count_clock w) = writes_done w /\
  sleeptime (Nat.iter k count_clock w) = sleeptime w.
Proof.
  induction k as [|k (C & R & T & W & P)].
  - cbn. rewrite Nat.add_0_r. repeat split.
  - rewrite Nat.iter_succ.
    set (w' := Nat.iter k count_clock w) in *.
    unfold count_clock. cbn [clock clock_reads trace writes_done sleeptime].
    rewrite R. repeat split; try assumption. lia.
Qed.

Lemma iter_count_clock_shift (k : nat) (w : World) :
  Nat.iter k count_clock (count_clock w) = count_clock (Nat.iter k count_clock w).
Proof.
  induction k as [|k IH]; [reflexivity|].
  rewrite !Nat.iter_succ, IH. reflexivity.
Qed.

(** X12: without depulsing, a call of [ping_watchdog_and_depulse] that
    finds the clock past last ping + watchdog + sleeptime does nothing but read
    the clock; the time of the last ping stays as it was.  So, on a clock that
    does not run backwards, once one call has come too late, every later call
    comes too late as well: whatever their number, the calls write nothing to
    the fan and leave the object as it was. *)
Theorem missed_watchdog_is_never_pinged
        (level : Level) (d : FanDriver.obj) (w : World) (k : nat) :
  ~ (0 < FanDriver.depulse_ d)%Q ->
  (forall i j, (i <= j)%nat -> clock w i <= clock w j) ->
  TpFanDriver.deadline d w < clock w (clock_reads w) ->
  repeat_ping k level (d, w) = (Ok tt, (d, Nat.iter k count_clock w)) /\
  trace (Nat.iter k count_clock w) = trace w /\
  writes_done (Nat.iter k count_clock w) = writes_done w.
Proof.
  intros D Mono Late.
  split; [|split; apply (count_clock_iter k w)].
  apply Qltb_nlt in D.
  revert w Mono Late. induction k as [|k IH]; intros w Mono Late; [reflexivity|].
  cbn [repeat_ping]. unfold bind at 1.
  rewrite TpFanDriver_ping_eq, D.
  replace (TpFanDriver.deadline d w >=? clock w (clock_reads w)) with false
    by (symmetry; rewrite Z.geb_leb; apply Z.leb_gt; exact Late).
  rewrite (IH (count_clock w)).
  - rewrite Nat.iter_succ, iter_count_clock_shift. reflexivity.
  - exact Mono.
  - unfold TpFanDriver.deadline in *.
    cbn [count_clock sleeptime clock clock_reads].
    specialize (Mono (clock_reads w) (S (clock_reads w))). lia.
Qed.

Lemma missed_watchdog_is_never_pinged_witness :
  let d := FanDriver.mk proc_fan 120 0 (lit "auto") 0 in
  let w := scripted_world [] 126000000000 in
  repeat_ping 3 level7 (d, w) = (Ok tt, (d, Nat.iter 3 count_clock w)) /\
  trace (Nat.iter 3 count_clock w) = trace w /\
  writes_done (Nat.iter 3 count_clock w) = writes_done w.
Proof.
  intros d w.
  refine (missed_watchdog_is_never_pinged level7 d w 3 _ _ _).
  - vm_compute. discriminate.
  - intros i j _. vm_compute. discriminate.
  - vm_compute. reflexivity.
Defined.

(** ** set_speed and the next ping *)

(** X13: TpFanDriver::set_speed reads the clock only after the write has
    succeeded, and then takes that reading as the time of the last ping; a
    write that fails leaves the object as it was and the clock unread.
    Without depulsing, the call of [ping_watchdog_and_depulse] that follows a
    successful set_speed writes the level again when its own clock reading is
    not later than the deadline, and writes nothing otherwise.  The deadline
    is the stamp plus the watchdog timeout plus the polling period, in
    nanosecond ticks, as the clock's signed 64-bit count holds the sum: the
    sum itself when it lies between -2^63 and 2^63 - 1, and the sum reduced
    modulo 2^64 into that range when it does not. *)
Theorem set_speed_stamps_the_next_ping
        (level : Level) (d : FanDriver.obj) (w : World) :
  ~ (0 < FanDriver.depulse_ d)%Q ->
  let p := FanDriver.path_ d in
  let n := writes_done w in
  let t0 := clock w (clock_reads w) in
  let t1 := clock w (S (clock_reads w)) in
  let sum := t0 + FanDriver.watchdog_ d * 1000000000
             + sleeptime w * 1000000000 in
  let out1 := TpFanDriver.set_speed level (d, w) in
  let out2 := TpFanDriver.ping_watchdog_and_depulse level (snd out1) in
  (forall e, write_reply w n = Some e ->
     fst (snd out1) = d /\ clock_reads (snd (snd out1)) = clock_reads w) /\
  (write_reply w n = None ->
     fst out1 = Ok tt /\
     FanDriver.last_watchdog_ping_ (fst (snd out1)) = t0 /\
     clock_reads (snd (snd out1)) = S (clock_reads w) /\
     trace (snd (snd out2)) =
       trace w ++
       EvWrite p (str level) None ::
       (if to_int64 sum >=? t1
        then [EvWrite p (str level) (write_reply w (S n))]
        else []) /\
     (-9223372036854775808 <= sum <= 9223372036854775807 ->
      trace (snd (snd out2)) =
        trace w ++
        EvWrite p (str level) None ::
        (if sum >=? t1
         then [EvWrite p (str level) (write_reply w (S n))]
         else []))).
Proof.
  intros D p n t0 t1 sum out1 out2. subst out2 out1.
  apply Qltb_nlt in D.
  rewrite TpFanDriver_set_speed_eq. cbv zeta.
  split.
  - intros e E. fold n. rewrite E. cbn [fst snd].
    split; [reflexivity|].
    unfold after_write. fold n. rewrite E. reflexivity.
  - intro E. fold n. rewrite E. cbn [fst snd].
    assert (A : after_write (FanDriver.path_ d) (str level) w
                = count_write (emit (EvWrite (FanDriver.path_ d) (str level) None) w)).
    { unfold after_write. fold n. rewrite E. reflexivity. }
    rewrite A.
    split; [reflexivity|]. split; [reflexivity|]. split; [reflexivity|].
    assert (T : trace (snd (snd (TpFanDriver.ping_watchdog_and_depulse level
                  (with_watchdog_state (FanDriver.watchdog_ d)
                     (clock (count_write (emit (EvWrite (FanDriver.path_ d) (str level) None) w))
                        (clock_reads (count_write
                           (emit (EvWrite (FanDriver.path_ d) (str level) None) w))))
                     d,
                   count_clock (count_write
                     (emit (EvWrite (FanDriver.path_ d) (str level) None) w)))))) =
                trace w ++
                EvWrite p (str level) None ::
                (if to_int64 sum >=? t1
                 then [EvWrite p (str level) (write_reply w (S n))]
                 else [])).
    { rewrite TpFanDriver_ping_trace_watchdog by exact D.
      rewrite deadline_eq.
      unfold deadline_sum, with_watchdog_state, count_clock, count_write, emit.
      cbn [trace clock clock_reads writes_done write_reply sleeptime
           FanDriver.path_ FanDriver.watchdog_ FanDriver.last_watchdog_ping_].
      rewrite <- app_assoc. reflexivity. }
    split; [exact T|].
    intro F. rewrite T, (to_int64_fits sum F). reflexivity.
Qed.

Lemma set_speed_stamps_the_next_ping_witness :
  let d := FanDriver.mk proc_fan 120 0 (lit "auto") 0 in
  let w := scripted_world [] 7 in
  trace (snd (snd (TpFanDriver.ping_watchdog_and_depulse level7
                     (snd (TpFanDriver.set_speed level7 (d, w))))))
  = [EvWrite proc_fan (lit "level 7") None; EvWrite proc_fan (lit "level 7") None].
Proof.
  intros d w.
  refine (proj2 (proj2 (proj2 (proj2 (proj2
            (set_speed_stamps_the_next_ping level7 d w _) eq_refl)))) _).
  - vm_compute. discriminate.
  - vm_compute. split; discriminate.
Defined.

(** X27: a sum that leaves the clock's 64 bits.  The watchdog timeout and
    the polling period are 4294967295 seconds each, and the clock stands at
    1.8 * 10^18 ticks.  set_speed writes the level and stamps that time.  The
    stamp plus the timeout plus the period is above 2^63 - 1 ticks and far
    later than the clock reading, yet the ping that follows writes nothing:
    the 64-bit count has wrapped around to a time before the clock
    reading. *)
Theorem ping_past_the_64_bits_writes_nothing :
  let d := FanDriver.mk proc_fan 4294967295 0 (lit "auto") 0 in
  let w := set_sleeptime 4294967295 (scripted_world [] 1800000000000000000) in
  let out1 := TpFanDriver.set_speed level7 (d, w) in
  let out2 := TpFanDriver.ping_watchdog_and_depulse level7 (snd out1) in
  let sum := 1800000000000000000 + 4294967295 * 1000000000
             + 4294967295 * 1000000000 in
  fst out1 = Ok tt /\
  FanDriver.last_watchdog_ping_ (fst (snd out1)) = 1800000000000000000 /\
  clock w (S (clock_reads w)) = 1800000000000000000 /\
  9223372036854775807 < sum /\
  TpFanDriver.deadline (fst (snd out1)) (snd (snd out1)) = sum - 18446744073709551616 /\
  fst out2 = Ok tt /\
  trace (snd (snd out2)) = [EvWrite proc_fan (lit "level 7") None].
Proof.
  cbv zeta. repeat split; vm_compute; reflexivity.
Qed.

(** ** TpFanDriver's constructor on any readable text *)

(** One [getline] into the line buffer: the stream stays on a tail of the
    file, the buffer keeps its size, and what can be found in the buffer
    afterwards can be found in the file. *)
Lemma getline_keeps_within (data : bytes) (f : istream) (line : bytes) :
  (exists k, unread f = skipn k data) ->
  length line = 256%nat ->
  buffer_within data line ->
  (exists k, unread (fst (getline f line 255)) = skipn k data) /\
  length (snd (getline f line 255)) = 256%nat /\
  buffer_within data (snd (getline f line 255)).
Proof.
  intros (k & U) L B. unfold getline. destruct (good f).
  - pose proof (getline_chars_split (255 - 1) (unread f)) as S.
    destruct (getline_chars (255 - 1) (unread f)) as [[[stored rest] e] fl].
    destruct S as ((mid & Hm) & Hl & _ & Hr & _).
    cbn [fst snd unread].
    destruct (store_line line stored) as [E E'].
    { rewrite L. cbn in Hl. lia. }
    rewrite E. split; [|split].
    + exists (length (unread f) - length rest + k)%nat.
      rewrite <- skipn_skipn, <- U. exact Hr.
    + rewrite E'. exact L.
    + intros p Hp H. rewrite (has_app_NUL p _ _ Hp) in H.
      apply orb_true_iff in H as [H|H].
      * apply (has_skipn p k). rewrite <- U, Hm.
        apply has_app_l; assumption.
      * apply (B p Hp). exact (has_skipn p _ line H).
  - cbn [fst snd set_failbit unread].
    destruct (store_line line []) as [E E'].
    { rewrite L. cbn. lia. }
    cbn [app] in E. rewrite E. split; [|split].
    + exists k. exact U.
    + cbn [app] in E'. rewrite E'. exact L.
    + intros p Hp H.
      change (NUL :: skipn (S (length (@nil ascii))) line)
        with ([] ++ NUL :: skipn (S (length (@nil ascii))) line) in H.
      rewrite (has_app_NUL p _ _ Hp) in H.
      apply orb_true_iff in H as [H|H].
      * rewrite has_nil in H. unfold pattern_ok in Hp.
        destruct p; [discriminate Hp|discriminate H].
      * apply (B p Hp). exact (has_skipn p _ line H).
Qed.

(** The constructor's loop on a stream that stands on a tail of the file:
    it finds direct level control only if the file holds both "commands:" and
    "level <level>", and it changes the remembered level only if the file holds
    "level:". *)
Lemma read_status_within (data : bytes) (fuel : nat) :
  forall (f : istream) (line initial : bytes) (ctrl : bool),
    (exists k, unread f = skipn k data) ->
    length line = 256%nat ->
    buffer_within data line ->
    (has commands_colon data = false \/ has level_token data = false ->
     ctrl = false ->
     snd (status_scan fuel f line initial ctrl) = false) /\
    (has level_colon data = false ->
     fst (status_scan fuel f line initial ctrl) = initial).
Proof.
  induction fuel as [|fuel IH]; intros f line initial ctrl U L B.
  - cbn [status_scan fst snd]. split; [intros _ C; exact C|reflexivity].
  - cbn [status_scan].
    destruct (getline_keeps_within data f line U L B) as (U' & L' & B').
    destruct (getline f line 255) as [f' line']. cbn [fst snd] in U', L', B'.
    destruct (failbit f').
    { cbn [fst snd]. split; [intros _ C; exact C|reflexivity]. }
    change (found (rfind (lit "level:") line')) with (has level_colon line').
    change (found (rfind (lit "commands:") line')) with (has commands_colon line').
    change (found (rfind (lit "level <level>") line')) with (has level_token line').
    destruct (has level_colon line') eqn:H1.
    { apply (B' level_colon eq_refl) in H1.
      split.
      - apply (IH f' line' _ ctrl U' L' B').
      - intro N. congruence. }
    destruct (has commands_colon line' && has level_token line') eqn:H2.
    { apply andb_true_iff in H2 as [H2 H3].
      apply (B' commands_colon eq_refl) in H2.
      apply (B' level_token eq_refl) in H3.
      split.
      - intros [N|N] _; congruence.
      - apply (IH f' line' initial true U' L' B'). }
    apply (IH f' line' initial ctrl U' L' B').
Qed.

Lemma buffer_within_NUL (data : bytes) (n : nat) :
  buffer_within data (repeat NUL n).
Proof.
  intros p Hp H. rewrite (has_repeat_NUL p n Hp) in H. discriminate H.
Qed.

(** X14: TpFanDriver's constructor on any file that opens for reading and
    writing and is read without error, whatever its lines look like: when the
    text "commands:" or the text "level <level>" occurs nowhere in the file,
    the constructor fails with the SystemError MSG_FAN_MODOPTS and leaves the
    world as it was. *)
Theorem tp_fan_needs_commands_and_token (path : string) (w : World) (data : bytes) :
  files w path = Content data ->
  has commands_colon data = false \/ has level_token data = false ->
  TpFanDriver.new path w = (Throw (SystemError MSG_FAN_MODOPTS), w).
Proof.
  intros F H. rewrite TpFanDriver_new_eq, F. cbv zeta.
  destruct (read_status_within data (S (length data))
              (mkIstream data data 0 false false) (repeat NUL 256) [] false)
    as [S _].
  - exists 0%nat. reflexivity.
  - apply repeat_length.
  - apply buffer_within_NUL.
  - rewrite (S H eq_refl). reflexivity.
Qed.

Lemma tp_fan_needs_commands_and_token_witness :
  let data := lit "status:" ++ TAB :: lit "enabled" ++ LF ::
              lit "commands:" ++ TAB :: lit "enable, disable" in
  TpFanDriver.new proc_fan (world_with_file proc_fan data 0) =
  (Throw (SystemError MSG_FAN_MODOPTS), world_with_file proc_fan data 0).
Proof.
  intro data.
  apply (tp_fan_needs_commands_and_token proc_fan
           (world_with_file proc_fan data 0) data eq_refl).
  right. reflexivity.
Defined.

(** X15: a TpFanDriver built from a file in which the text "level:" occurs
    nowhere remembers no level at all, and its destructor writes "level "
    with nothing behind it. *)
Theorem tp_fan_without_level_line
        (path : string) (w w' : World) (data : bytes) (d : FanDriver.obj) :
  files w path = Content data ->
  has level_colon data = false ->
  TpFanDriver.new path w = (Ok d, w') ->
  FanDriver.initial_state_ d = [] /\
  forall w1,
    TpFanDriver.destroy (d, w1) =
    (match write_reply w1 (writes_done w1) with
     | None => Ok tt
     | Some e => Throw (IOerror (MSG_FAN_RESET path) e)
     end, (d, after_write path (lit "level ") w1)).
Proof.
  intros F H N. rewrite TpFanDriver_new_eq, F in N. cbv zeta in N.
  destruct (read_status_within data (S (length data))
              (mkIstream data data 0 false false) (repeat NUL 256) [] false)
    as [_ I].
  - exists 0%nat. reflexivity.
  - apply repeat_length.
  - apply buffer_within_NUL.
  - rewrite (I H) in N.
    destruct (snd (status_scan _ _ _ _ _)); [|discriminate N].
    injection N as <- <-. split; [reflexivity|].
    intro w1. rewrite TpFanDriver_destroy_eq.
    cbn [FanDriver.path_ FanDriver.initial_state_]. rewrite app_nil_r.
    reflexivity.
Qed.

Lemma tp_fan_without_level_line_witness :
  let data := lit "commands:" ++ TAB :: lit "level <level>" ++ [LF] in
  let d := FanDriver.mk proc_fan 120 0 [] 0 in
  FanDriver.initial_state_ d = [] /\
  forall w1,
    TpFanDriver.destroy (d, w1) =
    (match write_reply w1 (writes_done w1) with
     | None => Ok tt
     | Some e => Throw (IOerror (MSG_FAN_RESET proc_fan) e)
     end, (d, after_write proc_fan (lit "level ") w1)).
Proof.
  intros data d.
  apply (tp_fan_without_level_line proc_fan
           (world_with_file proc_fan data 0) (world_with_file proc_fan data 0)
           data d eq_refl eq_refl).
  vm_compute. reflexivity.
Defined.

(** ** Lines that are too long, and a last line without line feed *)

Lemma text_of_lines_cons_app (l : bytes) (ls : list bytes) (t : bytes) :
  text_of_lines (l :: ls) ++ t = l ++ LF :: (text_of_lines ls ++ t).
Proof. rewrite text_of_lines_cons, <- app_assoc. reflexivity. Qed.

(** One round of the constructor's loop on a line that has been read
    whole into the buffer. *)
Lemma read_status_step (fuel : nat) (f f' : istream) (buf l initial : bytes)
      (ctrl : bool) :
  getline f buf 255 = (f', l ++ NUL :: skipn (S (length l)) buf) ->
  failbit f' = false ->
  status_scan (S fuel) f buf initial ctrl =
  let buf' := l ++ NUL :: skipn (S (length l)) buf in
  if has level_colon buf'
  then status_scan fuel f' buf' (substr_after_last_of blanks buf') ctrl
  else if has commands_colon buf' && has level_token buf'
  then status_scan fuel f' buf' initial true
  else status_scan fuel f' buf' initial ctrl.
Proof.
  intros G F. cbn [status_scan]. rewrite G, F. reflexivity.
Qed.

(** The loop stops at a line of 255 characters or more: on lines that fit,
    followed by 255 characters without line feed, it does what it does on the
    lines that fit. *)
Lemma read_status_long_line (lines : list bytes) (p : bytes) (c : ascii)
      (tail : bytes) :
  forall (fuel : nat) (f : istream) (buf initial : bytes) (ctrl : bool),
    forallb line_ok lines = true ->
    length p = 254%nat ->
    existsb (Ascii.eqb LF) p = false ->
    Ascii.eqb c LF = false ->
    good f = true ->
    unread f = text_of_lines lines ++ p ++ c :: tail ->
    length buf = 256%nat ->
    (length lines < fuel)%nat ->
    status_scan fuel f buf initial ctrl =
    scan_lines lines buf initial ctrl.
Proof.
  induction lines as [|l ls IH];
    intros fuel f buf initial ctrl Hl Lp Hp Hc G U Hb Hf.
  - destruct fuel as [|fuel]; [reflexivity|].
    cbn [status_scan scan_lines].
    unfold getline. rewrite G. cbn [text_of_lines map concat app] in U.
    rewrite U. change (255 - 1)%nat with 254%nat.
    rewrite <- Lp, (getline_chars_prefix p (c :: tail) Hp), Hc.
    reflexivity.
  - destruct fuel as [|fuel]; [cbn in Hf; lia|].
    cbn [forallb] in Hl. apply andb_true_iff in Hl as [Hl Hls].
    rewrite text_of_lines_cons_app in U.
    rewrite (read_status_step fuel f _ buf l initial ctrl
               (getline_line f buf l _ G U Hl Hb) eq_refl).
    cbv zeta. cbn [scan_lines].
    assert (Hb' : length (l ++ NUL :: skipn (S (length l)) buf) = 256%nat).
    { rewrite <- Hb. apply store_line. apply line_ok_inv in Hl. lia. }
    cbn [length] in Hf.
    destruct (has level_colon _).
    + apply IH; try assumption; try reflexivity. lia.
    + destruct (has commands_colon _ && has level_token _);
        apply IH; try assumption; try reflexivity; lia.
Qed.

(** X19: TpFanDriver's constructor stops reading at the first line of 255
    characters or more.  On a file whose lines fit up to such a line, it gives
    what it gives on the file cut off in front of that line: whatever follows,
    a "commands:" line with "level <level>" or a "level:" line, is not
    seen. *)
Theorem tp_fan_stops_at_long_line
        (path : string) (w w' : World) (lines : list bytes)
        (p : bytes) (c : ascii) (tail : bytes) :
  files w path = Content (text_of_lines lines ++ p ++ c :: tail) ->
  files w' path = Content (text_of_lines lines) ->
  forallb line_ok lines = true ->
  length p = 254%nat ->
  existsb (Ascii.eqb LF) p = false ->
  Ascii.eqb c LF = false ->
  fst (TpFanDriver.new path w) = fst (TpFanDriver.new path w') /\
  snd (TpFanDriver.new path w) = w.
Proof.
  intros F F' Hl Lp Hp Hc.
  rewrite (TpFanDriver_new_lines path w' lines F' Hl).
  rewrite TpFanDriver_new_eq, F. cbv zeta.
  rewrite (read_status_long_line lines p c tail); try assumption;
    try reflexivity.
  - destruct (snd (scan_lines lines (repeat NUL 256) [] false));
      split; reflexivity.
  - rewrite length_app. pose proof (text_of_lines_length lines). lia.
Qed.

Lemma tp_fan_stops_at_long_line_witness :
  let lines := [lit "status:" ++ [TAB; TAB] ++ lit "enabled"] in
  let tail := [LF] ++ lit "commands:" ++ [TAB] ++ lit "level <level>" ++ [LF] in
  let w := world_with_file proc_fan
             (text_of_lines lines ++ repeat "x"%char 254 ++ "x"%char :: tail) 0 in
  let w' := world_with_file proc_fan (text_of_lines lines) 0 in
  fst (TpFanDriver.new proc_fan w) = fst (TpFanDriver.new proc_fan w') /\
  snd (TpFanDriver.new proc_fan w) = w.
Proof.
  intros lines tail w w'.
  refine (tp_fan_stops_at_long_line proc_fan w w' lines (repeat "x"%char 254)
            "x"%char tail eq_refl eq_refl eq_refl _ eq_refl eq_refl).
  apply repeat_length.
Defined.

(** A last line that the end of the file ends is read like the others. *)
Lemma read_status_last_line (lines : list bytes) (last : bytes) :
  forall (fuel : nat) (f : istream) (buf initial : bytes) (ctrl : bool),
    forallb line_ok lines = true ->
    line_ok last = true ->
    last <> [] ->
    good f = true ->
    unread f = text_of_lines lines ++ last ->
    length buf = 256%nat ->
    (length lines + 1 < fuel)%nat ->
    status_scan fuel f buf initial ctrl =
    scan_lines (lines ++ [last]) buf initial ctrl.
Proof.
  induction lines as [|l ls IH];
    intros fuel f buf initial ctrl Hl Hlast Hne G U Hb Hf.
  - destruct fuel as [|[|fuel]]; try (cbn in Hf; lia).
    cbn [text_of_lines map concat app] in U.
    pose proof Hlast as Hlast'. apply line_ok_inv in Hlast' as [L N].
    assert (GL : getline f buf 255 =
                 (mkIstream (contents f) [] (offset f + length last) true false,
                  last ++ NUL :: skipn (S (length last)) buf)).
    { unfold getline. rewrite G, U. change (255 - 1)%nat with 254%nat.
      rewrite (getline_chars_eof last 254 L N).
      rewrite (proj1 (store_line buf last ltac:(lia))).
      cbn [length]. rewrite Nat.sub_0_r.
      destruct last as [|a last]; [congruence|]. reflexivity. }
    rewrite (read_status_step _ f _ buf last initial ctrl GL eq_refl).
    cbv zeta. cbn [app scan_lines].
    assert (E : forall line i k,
              status_scan (S fuel)
                (mkIstream (contents f) [] (offset f + length last) true false)
                line i k = (i, k)).
    { intros line i k. cbn [status_scan]. reflexivity. }
    rewrite !E.
    destruct (has level_colon _); [reflexivity|].
    destruct (has commands_colon _ && has level_token _); reflexivity.
  - destruct fuel as [|fuel]; [cbn in Hf; lia|].
    cbn [forallb] in Hl. apply andb_true_iff in Hl as [Hl Hls].
    rewrite text_of_lines_cons_app in U.
    rewrite (read_status_step fuel f _ buf l initial ctrl
               (getline_line f buf l _ G U Hl Hb) eq_refl).
    cbv zeta. cbn [app scan_lines].
    assert (Hb' : length (l ++ NUL :: skipn (S (length l)) buf) = 256%nat).
    { rewrite <- Hb. apply store_line. apply line_ok_inv in Hl. lia. }
    cbn [length] in Hf.
    destruct (has level_colon _).
    + apply IH; try assumption; try reflexivity. lia.
    + destruct (has commands_colon _ && has level_token _);
        apply IH; try assumption; try reflexivity; lia.
Qed.

(** X20: TpFanDriver's constructor does not need the line feed at the end
    of the file: a last line that is not empty and is ended by the end of the
    file is read like every other line, so the constructor gives what it
    gives on the same file with the line feed added. *)
Theorem tp_fan_last_line_without_line_feed
        (path : string) (w w' : World) (lines : list bytes) (last : bytes) :
  files w path = Content (text_of_lines lines ++ last) ->
  files w' path = Content (text_of_lines (lines ++ [last])) ->
  forallb line_ok lines = true ->
  line_ok last = true ->
  last <> [] ->
  fst (TpFanDriver.new path w) = fst (TpFanDriver.new path w') /\
  snd (TpFanDriver.new path w) = w.
Proof.
  intros F F' Hl Hlast Hne.
  rewrite (TpFanDriver_new_lines path w' (lines ++ [last]) F').
  2:{ rewrite forallb_app, Hl. cbn [forallb]. rewrite Hlast. reflexivity. }
  rewrite TpFanDriver_new_eq, F. cbv zeta.
  rewrite (read_status_last_line lines last); try assumption;
    try reflexivity.
  - destruct (snd (scan_lines (lines ++ [last]) (repeat NUL 256) [] false));
      split; reflexivity.
  - rewrite length_app. pose proof (text_of_lines_length lines).
    destruct last as [|a last]; [congruence|]. cbn [length]. lia.
Qed.

Lemma tp_fan_last_line_without_line_feed_witness :
  let lines := [lit "level:" ++ [TAB; TAB] ++ lit "auto"] in
  let last := lit "commands:" ++ [TAB] ++ lit "level <level>" in
  let w := world_with_file proc_fan (text_of_lines lines ++ last) 0 in
  let w' := world_with_file proc_fan (text_of_lines (lines ++ [last])) 0 in
  fst (TpFanDriver.new proc_fan w) = fst (TpFanDriver.new proc_fan w') /\
  snd (TpFanDriver.new proc_fan w) = w.
Proof.
  intros lines last w w'.
  refine (tp_fan_last_line_without_line_feed proc_fan w w' lines last
            eq_refl eq_refl eq_refl eq_refl _).
  discriminate.
Defined.

(** ** Files that do not open for writing *)

(** X26: TpFanDriver's constructor opens its file for reading and writing.
    On a file that does not open at all, and on one that opens for reading
    only, with OS error [e], it throws the IOerror MSG_FAN_INIT with [e],
    whatever the file holds; [errno] is [e], nothing is logged or written and
    no stream stays open.  The vendor-ACPI sensor binding opens its file for
    reading: on a file that opens for reading only its constructor and its
    read_temps() end as they do on a file with the same text that opens for
    writing as well. *)
Theorem files_that_do_not_open_for_writing
        (path : string) (w w0 : World) (data : bytes) (e : Z) :
  files w path = Unreadable e \/ files w path = ReadOnly e data ->
  TpFanDriver.new path w =
    (Throw (IOerror (MSG_FAN_INIT path) e), set_errno e w) /\
  errno (set_errno e w) = e /\
  trace (set_errno e w) = trace w /\
  open_streams (set_errno e w) = open_streams w /\
  (files w path = ReadOnly e data ->
   files w0 path = Content data ->
   fst (TpSensorDriver.new path w) = fst (TpSensorDriver.new path w0) /\
   forall (fuel : nat) (d : TpSensorDriver.obj),
     SensorDriver.path_ (TpSensorDriver.base d) = path ->
     fst (TpSensorDriver.read_temps fuel (d, w)) =
       fst (TpSensorDriver.read_temps fuel (d, w0)) /\
     forall values,
       temp_state (snd (snd (TpSensorDriver.read_temps fuel (d, w0)))) =
         temp_state w0 ++ values ->
       temp_state (snd (snd (TpSensorDriver.read_temps fuel (d, w)))) =
         temp_state w ++ values).
Proof.
  intro H. split; [|split; [|split; [|split]]].
  - rewrite TpFanDriver_new_eq. destruct H as [H|H]; rewrite H; reflexivity.
  - destruct w; reflexivity.
  - destruct w; reflexivity.
  - destruct w; reflexivity.
  - intros F F0. split.
    + rewrite !TpSensorDriver_new_eq, F, F0. cbv zeta.
      destruct (list_eq_dec _ _ _); reflexivity.
    + intros fuel d P.
      rewrite !TpSensorDriver_read_temps_eq. cbv zeta. rewrite P, F, F0.
      destruct (TpSensorDriver.skip_bytes_ d <? 0).
      * split; [reflexivity|]. intros values V. cbn [fst snd] in *.
        rewrite (proj1 (set_errno_keeps _ w0)) in V.
        rewrite (proj1 (set_errno_keeps _ w)).
        rewrite <- (app_nil_r (temp_state w0)) in V at 1.
        apply app_inv_head in V. subst values. symmetry. apply app_nil_r.
      * split; [reflexivity|]. intros values V. cbn [fst snd] in *.
        unfold append_temps in *. destruct w, w0. cbn in *.
        apply app_inv_head in V. rewrite V. reflexivity.
Qed.

Lemma files_that_do_not_open_for_writing_witness :
  let text := text_of_lines fan_status_lines in
  let w := world_with proc_fan (ReadOnly EACCES text) 0 in
  TpFanDriver.new proc_fan w =
    (Throw (IOerror (MSG_FAN_INIT proc_fan) EACCES), set_errno EACCES w).
Proof.
  intros text w.
  apply (files_that_do_not_open_for_writing proc_fan w
           (world_with_file proc_fan text 0) text EACCES).
  right. reflexivity.
Defined.

(** ** Configuring a driver *)

(** X16: what a configured timeout and depulse duration do to the calls
    that follow.  [set_watchdog(t)] keeps [t] as an unsigned int, that is
    modulo 2^32; a following init() writes "watchdog " and that number in
    decimal, and the number counts as seconds of 10^9 ticks in the deadline
    of the pings.  After [set_depulse(q)] with [q] above zero a ping writes
    "level disengaged", sleeps for [q] and writes the level; with [q] zero or
    below it is left to the deadline test.  Neither setter does any I/O, and
    neither changes the path, the remembered initial state or the time of the
    last ping. *)
Theorem watchdog_and_depulse_setters
        (t : Z) (q : Q) (level : Level) (d : FanDriver.obj) (w : World) :
  let p := FanDriver.path_ d in
  let secs := t mod 4294967296 in
  let after_w := snd (TpFanDriver.set_watchdog t (d, w)) in
  let after_d := snd (TpFanDriver.set_depulse q (d, w)) in
  let out_w := (TpFanDriver.set_watchdog t ;; TpFanDriver.init) (d, w) in
  let out_d := (TpFanDriver.set_depulse q ;;
                TpFanDriver.ping_watchdog_and_depulse level) (d, w) in
  0 <= secs < 4294967296 /\
  trace (snd (snd out_w)) =
    trace w ++ [EvWrite p (lit "watchdog " ++ to_string secs)
                  (write_reply w (writes_done w))] /\
  TpFanDriver.deadline (fst after_w) w =
    to_int64 (FanDriver.last_watchdog_ping_ d + secs * 1000000000
              + sleeptime w * 1000000000) /\
  trace (snd (snd out_d)) =
    trace w ++
    (if Qle_bool q 0
     then if TpFanDriver.deadline d w >=? clock w (clock_reads w)
          then [EvWrite p (str level) (write_reply w (writes_done w))]
          else []
     else EvWrite p (lit "level disengaged") (write_reply w (writes_done w)) ::
          match write_reply w (writes_done w) with
          | None => [EvSleep q;
                     EvWrite p (str level) (write_reply w (S (writes_done w)))]
          | Some _ => []
          end) /\
  (snd after_w = w /\ snd after_d = w) /\
  (FanDriver.path_ (fst after_w) = p /\
   FanDriver.initial_state_ (fst after_w) = FanDriver.initial_state_ d /\
   FanDriver.last_watchdog_ping_ (fst after_w) = FanDriver.last_watchdog_ping_ d /\
   FanDriver.depulse_ (fst after_w) = FanDriver.depulse_ d) /\
  (FanDriver.path_ (fst after_d) = p /\
   FanDriver.initial_state_ (fst after_d) = FanDriver.initial_state_ d /\
   FanDriver.last_watchdog_ping_ (fst after_d) = FanDriver.last_watchdog_ping_ d /\
   FanDriver.watchdog_ (fst after_d) = FanDriver.watchdog_ d).
Proof.
  intros p secs after_w after_d out_w out_d.
  set (d1 := FanDriver.mk p (to_unsigned t) (FanDriver.depulse_ d)
               (FanDriver.initial_state_ d) (FanDriver.last_watchdog_ping_ d)).
  set (d2 := FanDriver.mk p (FanDriver.watchdog_ d) q
               (FanDriver.initial_state_ d) (FanDriver.last_watchdog_ping_ d)).
  assert (Sw : TpFanDriver.set_watchdog t (d, w) = (Ok tt, (d1, w))) by reflexivity.
  assert (Sd : TpFanDriver.set_depulse q (d, w) = (Ok tt, (d2, w))) by reflexivity.
  subst after_w after_d out_w out_d. unfold bind. rewrite Sw, Sd. cbn [fst snd].
  split; [apply Z.mod_pos_bound; lia|].
  split; [|split; [|split; [|split; [|split]]]].
  - rewrite TpFanDriver_init_eq. cbn [snd]. apply after_write_trace.
  - rewrite deadline_eq. reflexivity.
  - destruct (Qle_bool q 0) eqn:Q.
    + rewrite TpFanDriver_ping_trace_watchdog
        by (unfold Qltb; cbn [FanDriver.depulse_ d2]; rewrite Q; reflexivity).
      reflexivity.
    + rewrite TpFanDriver_ping_eq. unfold Qltb. cbn [FanDriver.depulse_ d2].
      rewrite Q. cbn [negb].
      destruct (write_reply w (writes_done w)) as [e|] eqn:R.
      * cbn [snd]. rewrite after_write_trace, R. reflexivity.
      * rewrite TpFanDriver_set_speed_eq. cbv zeta.
        unfold after_write at 1 2 3.
        rewrite R.
        cbn [emit count_write write_reply writes_done].
        destruct (write_reply w (S (writes_done w))) as [e2|] eqn:R2;
          cbn [snd]; unfold after_write;
          cbn [emit count_write count_clock set_errno write_reply writes_done trace
               FanDriver.path_ d2];
          rewrite R; cbn [emit count_write count_clock set_errno write_reply
                          writes_done trace];
          rewrite ?R2;
          cbn [emit count_write count_clock set_errno write_reply
               writes_done trace];
          rewrite <- !app_assoc; reflexivity.
  - split; reflexivity.
  - repeat split.
  - repeat split.
Qed.

Lemma set_corrections_cons (c : list Z) (cs : list (list Z))
      (d : SensorDriver.obj) (w : World) :
  set_corrections (c :: cs) (d, w) =
  let what := MSG_CONF_CORRECTION_LEN (SensorDriver.path_ d) (length c)
                (SensorDriver.num_temps_ d) in
  if (SensorDriver.num_temps d <? length c)%nat
  then (Throw (ConfigError what), (d, w))
  else set_corrections cs
         (SensorDriver.mk (SensorDriver.path_ d) (SensorDriver.num_temps_ d) c,
          if (length c <? SensorDriver.num_temps d)%nat
          then emit (EvLog TF_WRN what) w else w).
Proof.
  cbn [set_corrections]. unfold bind at 1.
  rewrite SensorDriver_set_correction_eq. cbv zeta.
  destruct (SensorDriver.num_temps d <? length c)%nat; reflexivity.
Qed.

Lemma set_corrections_keeps (cs : list (list Z)) :
  forall (d : SensorDriver.obj) (w : World),
    (length (SensorDriver.correction_ d) <= SensorDriver.num_temps d)%nat ->
    let d' := fst (snd (set_corrections cs (d, w))) in
    (length (SensorDriver.correction_ d') <= SensorDriver.num_temps d')%nat /\
    SensorDriver.num_temps d' = SensorDriver.num_temps d /\
    SensorDriver.path_ d' = SensorDriver.path_ d.
Proof.
  induction cs as [|c cs IH]; intros d w I; cbv zeta.
  - cbn. repeat split. exact I.
  - rewrite set_corrections_cons. cbv zeta.
    destruct (Nat.ltb_spec (SensorDriver.num_temps d) (length c)) as [L|L].
    + cbn [fst snd]. repeat split. exact I.
    + apply (IH (SensorDriver.mk (SensorDriver.path_ d)
                   (SensorDriver.num_temps_ d) c)).
      exact L.
Qed.

(** Whatever file it has read, a driver that TpSensorDriver's constructor
    returns has the path it was given and one zero offset per channel. *)
Lemma TpSensorDriver_new_shape (path : string) (w : World)
      (d : TpSensorDriver.obj) (w1 : World) :
  TpSensorDriver.new path w = (Ok d, w1) ->
  exists (n : nat) (pos : Z),
    d = TpSensorDriver.mk (SensorDriver.mk path n (repeat 0 n)) pos.
Proof.
  assert (R : forall c, SensorDriver.set_num_temps c (SensorDriver.mk path 0 [])
                        = SensorDriver.mk path c (repeat 0 c)).
  { intro c. unfold SensorDriver.set_num_temps, resize.
    cbn [SensorDriver.path_ SensorDriver.correction_ length].
    rewrite firstn_nil, Nat.sub_0_r. reflexivity. }
  rewrite TpSensorDriver_new_eq. cbv zeta.
  destruct (files w path) as [e|data|e data|data e]; [discriminate| | |].
  - destruct (list_eq_dec _ _ _); [|discriminate].
    intro H. injection H as <- _. rewrite R. eauto.
  - destruct (list_eq_dec _ _ _); [|discriminate].
    intro H. injection H as <- _. rewrite R. eauto.
  - destruct (eofbit _); [discriminate|].
    destruct (list_eq_dec _ _ _); [|discriminate].
    destruct (count_numbers_io _ _ _ _) as [c|x| |]; try discriminate.
    intro H. injection H as <- _. rewrite R. eauto.
Qed.

(** X17: a sensor driver never has more offsets than channels.  The
    constructors of HwmonSensorDriver and TpSensorDriver return a driver with
    one offset per channel, and no sequence of [set_correction] calls, whether
    they succeed or throw, makes the correction vector longer than
    [num_temps] or changes [num_temps] or the path.  (It can get shorter.) *)
Theorem correction_never_longer_than_num_temps
        (path : string) (w0 w : World) (cs : list (list Z)) :
  (forall d w1,
     HwmonSensorDriver.new path w0 = (Ok d, w1) ->
     let d' := fst (snd (set_corrections cs (d, w))) in
     length (SensorDriver.correction_ d) = SensorDriver.num_temps d /\
     (length (SensorDriver.correction_ d') <= SensorDriver.num_temps d')%nat /\
     SensorDriver.num_temps d' = SensorDriver.num_temps d /\
     SensorDriver.path_ d' = path) /\
  (forall d w1,
     TpSensorDriver.new path w0 = (Ok d, w1) ->
     let d' := fst (snd (set_corrections cs (TpSensorDriver.base d, w))) in
     length (SensorDriver.correction_ (TpSensorDriver.base d))
       = TpSensorDriver.num_temps d /\
     (length (SensorDriver.correction_ d') <= SensorDriver.num_temps d')%nat /\
     SensorDriver.num_temps d' = TpSensorDriver.num_temps d /\
     SensorDriver.path_ d' = path).
Proof.
  split; intros d w1 N d'.
  - assert (E : d = SensorDriver.mk path 1 [0]).
    { rewrite HwmonSensorDriver_new_eq in N.
      destruct (files w0 path); [discriminate N|..];
        injection N as <- _; reflexivity. }
    subst d.
    destruct (set_corrections_keeps cs (SensorDriver.mk path 1 [0]) w)
      as (I & K & P); [cbn; lia|].
    split; [reflexivity|]. split; [exact I|]. split; [exact K|exact P].
  - destruct (TpSensorDriver_new_shape path w0 d w1 N) as (n & pos & ->).
    destruct (set_corrections_keeps cs (SensorDriver.mk path n (repeat 0 n)) w)
      as (I & K & Q).
    { cbn. rewrite repeat_length. lia. }
    split; [apply repeat_length|]. split; [exact I|]. split; [exact K|exact Q].
Qed.

Lemma correction_never_longer_than_num_temps_witness :
  let w0 := world_with_file sys_temp (lit "43000" ++ [LF]) 0 in
  let d := SensorDriver.mk sys_temp 1 [0] in
  let d' := fst (snd (set_corrections [[]; [3; 4]; [5]] (d, w0))) in
  length (SensorDriver.correction_ d) = SensorDriver.num_temps d /\
  (length (SensorDriver.correction_ d') <= SensorDriver.num_temps d')%nat /\
  SensorDriver.num_temps d' = SensorDriver.num_temps d /\
  SensorDriver.path_ d' = sys_temp.
Proof.
  intros w0 d.
  exact (proj1 (correction_never_longer_than_num_temps sys_temp w0 w0
                  [[]; [3; 4]; [5]]) d w0 eq_refl).
Defined.

(** ** The loops of the constructors *)

Lemma status_scan_io_ends (err : option Z) (fuel : nat) :
  forall (f : istream) (line initial : bytes) (ctrl : bool),
    (length (unread f) < fuel)%nat ->
    status_scan_io err fuel f line initial ctrl <> OutOfFuel.
Proof.
  induction fuel as [|fuel IH]; intros f line initial ctrl H; [lia|].
  cbn [status_scan_io].
  pose proof (getline_progress f line 255) as P.
  destruct (getline f line 255) as [f' line']. cbn [fst] in P.
  destruct (meets_error err f'); [discriminate|].
  destruct (failbit f'); [discriminate|].
  specialize (P eq_refl).
  destruct (found (rfind (lit "level:") line')); [apply IH; lia|].
  destruct (found (rfind (lit "commands:") line')
            && found (rfind (lit "level <level>") line')); apply IH; lia.
Qed.

Lemma count_numbers_io_ends (err : option Z) (fuel : nat) :
  forall (f : istream) (count : nat),
    (S (length (unread f)) < fuel)%nat ->
    count_numbers_io err fuel f count <> OutOfFuel.
Proof.
  induction fuel as [|fuel IH]; intros f count H; [lia|].
  cbn [count_numbers_io].
  destruct (eofbit f || failbit f) eqn:B; [discriminate|].
  pose proof (extract_int_progress f) as P.
  destruct (extract_int f) as [f' tmp]. cbn [fst] in P.
  destruct (meets_error err f'); [discriminate|].
  destruct (eofbit f' || failbit f') eqn:B'.
  - destruct fuel as [|fuel]; [lia|].
    cbn [count_numbers_io]. rewrite B'. discriminate.
  - apply IH. specialize (P eq_refl). lia.
Qed.

(** X18: the loops of the two constructors that read a file come to an
    end, whatever the file holds and whether or not its reads fail.  Every
    round that does not end the loop extracts at least one character, so the
    loop of TpFanDriver's constructor ends within one round more than the
    stream has characters left, and the counting loop of TpSensorDriver's
    constructor within two more: with that many rounds to run, neither is cut
    off.  That is what the constructors give them, so no constructor is cut
    off either: each returns an object or throws. *)
Theorem constructor_loops_end
        (err : option Z) (fuel : nat) (f : istream) (line initial : bytes)
        (ctrl : bool) (count : nat) (path : string) (w : World) :
  ((length (unread f) < fuel)%nat ->
   fst (TpFanDriver.read_status err fuel f line initial ctrl w) <> OutOfFuel) /\
  ((S (length (unread f)) < fuel)%nat ->
   fst (TpSensorDriver.count_temps err fuel f count w) <> OutOfFuel) /\
  fst (TpFanDriver.new path w) <> OutOfFuel /\
  fst (TpSensorDriver.new path w) <> OutOfFuel /\
  fst (HwmonFanDriver.new path w) <> OutOfFuel /\
  fst (HwmonSensorDriver.new path w) <> OutOfFuel.
Proof.
  split; [|split; [|split; [|split; [|split]]]].
  - intro H. rewrite read_status_eq. cbn [fst].
    apply status_scan_io_ends, H.
  - intro H. rewrite count_temps_eq. cbn [fst].
    apply count_numbers_io_ends, H.
  - rewrite TpFanDriver_new_eq.
    destruct (files w path) as [e|data|e data|data e]; try discriminate.
    + cbv zeta. destruct (snd _); discriminate.
    + pose proof (status_scan_io_ends (Some e) (S (length data))
                    (mkIstream data data 0 false false) (repeat NUL 256)
                    [] false) as T.
      destruct (status_scan_io _ _ _ _ _ _) as [r|x| |]; try discriminate.
      * destruct (snd r); discriminate.
      * exfalso. apply T; [cbn [unread]; lia|reflexivity].
  - rewrite TpSensorDriver_new_eq. cbv zeta.
    destruct (files w path) as [e|data|e data|data e]; try discriminate.
    + destruct (list_eq_dec _ _ _); discriminate.
    + destruct (list_eq_dec _ _ _); discriminate.
    + destruct (eofbit _); [discriminate|].
      destruct (list_eq_dec _ _ _); [|discriminate].
      match goal with
      | |- context [count_numbers_io ?e ?n ?g ?c] =>
          pose proof (count_numbers_io_ends e n g c) as T;
          destruct (count_numbers_io e n g c) as [k|x| |]; try discriminate
      end.
      exfalso. apply T; [lia|reflexivity].
  - rewrite HwmonFanDriver_new_eq. cbv zeta.
    destruct (files w _) as [e|data|e data|data e]; try discriminate.
    + destruct (failbit _); discriminate.
    + destruct (failbit _); discriminate.
    + destruct (eofbit _); [discriminate|]. destruct (failbit _); discriminate.
  - rewrite HwmonSensorDriver_new_eq.
    destruct (files w path); discriminate.
Qed.

Lemma constructor_loops_end_witness :
  let f := mkIstream (lit " 45 x") (lit " 45 x") 0 false false in
  let w := world_with_file proc_thermal (lit " 45 x") 0 in
  fst (TpFanDriver.read_status None 6 f (repeat NUL 256) [] false w) <> OutOfFuel /\
  fst (TpSensorDriver.count_temps None 7 f 0 w) <> OutOfFuel.
Proof.
  intros f w.
  pose proof (constructor_loops_end None 6 f (repeat NUL 256) [] false 0
                proc_thermal w) as (A & _).
  pose proof (constructor_loops_end None 7 f (repeat NUL 256) [] false 0
                proc_thermal w) as (_ & B & _).
  split; [apply A|apply B]; vm_compute; lia.
Defined.
